(** * go-app-gen: the template-substitution and output engine

    A shallow embedding of the generator package of nhalm/go-app-gen and
    the proofs of its specified properties.

    The repository carries two revisions of the generator:
    - [Generator0] embeds src/unnamed/part_000 (hand-written [pluralize],
      [strings.Title], two path tokens, no post-processing);
    - [Generator1] embeds src/unnamed/part_001 ([titleCase], the inflection
      library, four path tokens, [PostProcess]).

    Go strings are byte sequences, so they are modelled by [string] (a list
    of 8-bit [ascii]).  The byte-level functions of Go's [strings] package
    and the [error] values of [fmt.Errorf] are modelled as they compute.
    What lies outside (the Unicode case tables, the inflection library,
    path/filepath, the embedded template tree, text/template, the file
    system and the processes) is a field of the records [Unicode] and
    [Generator1.World], which the definitions are parameterised by; the
    effects of [Generate] are recorded, call by call, in a trace.

    [Generator0Run] embeds the effects of part_000 in the same way, and
    [Create] embeds the command of src/cmd/go-app-gen/cmd/create.go that
    fills the configuration, validates it and calls the generator. *)

From stdpp Require Import gmap strings list fin_maps.
From Stdlib Require Import Ascii NArith.

Local Open Scope N_scope.

(** ** Byte strings *)

(** [s[n:]] *)
Fixpoint slice_from (n : nat) (s : string) : string :=
  match n, s with
  | O, _ => s
  | S n', String _ s' => slice_from n' s'
  | S _, EmptyString => EmptyString
  end.

(** [s[:n]] *)
Fixpoint slice_to (n : nat) (s : string) : string :=
  match n, s with
  | O, _ => EmptyString
  | S n', String c s' => String c (slice_to n' s')
  | S _, EmptyString => EmptyString
  end.

(** A newline, as written by [fmt.Println] and the [\n] of format strings. *)
Definition nl : string := String "010" EmptyString.

(** ** Go's [strings] package, as far as the generator calls it *)

(** The Unicode case tables of Go's [unicode] package are not part of the
    repository.  [strings.ToUpper] and [strings.ToLower] have a byte-wise
    path for ASCII-only input and otherwise map every rune through the
    tables; [strings.Title] visits one rune per byte on ASCII-only input.
    The behaviour on input that holds a byte [>= 0x80] is a parameter. *)
Record Unicode : Type := {
  unicode_ToUpper : string -> string;
  unicode_ToLower : string -> string;
  unicode_Title : string -> string
}.

Module strings.

(** [len(s) >= len(prefix) && s[:len(prefix)] == prefix] *)
Definition HasPrefix (s prefix : string) : bool :=
  (String.length prefix <=? String.length s)%nat
  && String.eqb (slice_to (String.length prefix) s) prefix.

(** [len(s) >= len(suffix) && s[len(s)-len(suffix):] == suffix] *)
Definition HasSuffix (s suffix : string) : bool :=
  (String.length suffix <=? String.length s)%nat
  && String.eqb (slice_from (String.length s - String.length suffix) s) suffix.

Definition TrimPrefix (s prefix : string) : string :=
  if HasPrefix s prefix then slice_from (String.length prefix) s else s.

Definition TrimSuffix (s suffix : string) : string :=
  if HasSuffix s suffix
  then slice_to (String.length s - String.length suffix) s
  else s.

(** The scan of [strings.Replace] with [n < 0] for a non-empty [old]:
    at each position the leftmost occurrence of [old] is replaced and
    the scan resumes after it (occurrences do not overlap).  [skip]
    counts the bytes of a matched occurrence still to be passed over. *)
Fixpoint replace_scan (old new : string) (skip : nat) (s : string) : string :=
  match s with
  | EmptyString => EmptyString
  | String c s' =>
      match skip with
      | S k => replace_scan old new k s'
      | O =>
          if HasPrefix s old
          then new +:+ replace_scan old new (String.length old - 1) s'
          else String c (replace_scan old new O s')
      end
  end.

(** [strings.ReplaceAll(s, old, new)].  [Replace] returns [s] when
    [old == new].  With an empty [old] Go inserts [new] at every rune
    boundary; the generator only passes its literal, non-empty tokens,
    and that branch is not modelled (it returns [s]); no theorem below
    instantiates [old] with the empty string. *)
Definition ReplaceAll (s old new : string) : string :=
  if String.eqb old new then s
  else match old with
       | EmptyString => s
       | String _ _ => replace_scan old new O s
       end.

(** [c < utf8.RuneSelf] *)
Definition is_ascii_byte (c : ascii) : bool := N_of_ascii c <? 128.

Fixpoint isASCII (s : string) : bool :=
  match s with
  | EmptyString => true
  | String c s' => is_ascii_byte c && isASCII s'
  end.

Definition is_lower (c : ascii) : bool :=
  (97 <=? N_of_ascii c) && (N_of_ascii c <=? 122).

Definition is_upper (c : ascii) : bool :=
  (65 <=? N_of_ascii c) && (N_of_ascii c <=? 90).

Definition is_digit (c : ascii) : bool :=
  (48 <=? N_of_ascii c) && (N_of_ascii c <=? 57).

(** [c -= 'a' - 'A'] for ['a' <= c <= 'z'] *)
Definition upper_byte (c : ascii) : ascii :=
  if is_lower c then ascii_of_N (N_of_ascii c - 32) else c.

(** [c += 'a' - 'A'] for ['A' <= c <= 'Z'] *)
Definition lower_byte (c : ascii) : ascii :=
  if is_upper c then ascii_of_N (N_of_ascii c + 32) else c.

Fixpoint map_bytes (f : ascii -> ascii) (s : string) : string :=
  match s with
  | EmptyString => EmptyString
  | String c s' => String (f c) (map_bytes f s')
  end.

(** [isSeparator] on an ASCII rune: alphanumerics and underscore are
    not separators, every other ASCII rune is. *)
Definition isSeparator (c : ascii) : bool :=
  negb (is_digit c || is_lower c || is_upper c || Ascii.eqb c "_").

(** The closure [strings.Title] hands to [strings.Map]: a rune that
    follows a separator is mapped to title case, any other is kept. *)
Fixpoint title_scan (prev : ascii) (s : string) : string :=
  match s with
  | EmptyString => EmptyString
  | String c s' =>
      String (if isSeparator prev then upper_byte c else c) (title_scan c s')
  end.

Section WithUnicode.
Context (U : Unicode).

Definition ToUpper (s : string) : string :=
  if isASCII s then map_bytes upper_byte s else unicode_ToUpper U s.

Definition ToLower (s : string) : string :=
  if isASCII s then map_bytes lower_byte s else unicode_ToLower U s.

(** [prev := ' '] before the first rune. *)
Definition Title (s : string) : string :=
  if isASCII s then title_scan " " s else unicode_Title U s.

End WithUnicode.

End strings.

(** Tables that are never consulted on ASCII-only input; they are used to
    run the definitions on concrete ASCII words. *)
Definition ascii_only : Unicode :=
  {| unicode_ToUpper := fun s => s;
     unicode_ToLower := fun s => s;
     unicode_Title := fun s => s |}.

(** ** Go errors *)

(** An [error] value: a plain one, or the [*fmt.wrapError] that
    [fmt.Errorf] builds for a format with [%w] ([msg] is the whole
    formatted text, [err] what [Unwrap] returns). *)
Inductive error : Type :=
| errorString (msg : string)
| wrapError (msg : string) (err : error).

(** [err.Error()] *)
Definition Error (e : error) : string :=
  match e with
  | errorString msg => msg
  | wrapError msg _ => msg
  end.

(** [errors.Unwrap(err)] *)
Definition Unwrap (e : error) : option error :=
  match e with
  | errorString _ => None
  | wrapError _ err => Some err
  end.

(** [fmt.Errorf(text + "%w", err)]: every format of the generator ends in
    [: %w]; [text] is the formatted text before the verb. *)
Definition Errorf (text : string) (err : error) : error :=
  wrapError (text +:+ Error err) err.

(** A Go [(value, error)] result. *)
Inductive result (A : Type) : Type :=
| Ok (a : A)
| Err (err : error).
Arguments Ok {A} a.
Arguments Err {A} err.

(** ** The generator of src/unnamed/part_000 *)

Module Generator0.

Module ProjectConfig.
Record t : Type := mk {
  AppName : string;
  ModuleName : string;
  Domain : string;
  Description : string;
  Author : string;
  Features : list string
}.
End ProjectConfig.

Module TemplateData.
Record t : Type := mk {
  AppName : string;
  ModuleName : string;
  Domain : string;
  DomainTitle : string;
  DomainPlural : string;
  Description : string;
  Author : string;
  PackageImportPath : string;
  HasFeature : string -> bool
}.
End TemplateData.

(** [pluralize] (lines 150-158). *)
Definition pluralize (word : string) : string :=
  if strings.HasSuffix word "y" then strings.TrimSuffix word "y" +:+ "ies"
  else if strings.HasSuffix word "s" || strings.HasSuffix word "sh"
          || strings.HasSuffix word "ch"
       then word +:+ "es"
       else word +:+ "s".

(** The closure stored in [HasFeature] (lines 64-71): a loop over
    [config.Features] that returns at the first equal element. *)
Fixpoint hasFeature (features : list string) (feature : string) : bool :=
  match features with
  | [] => false
  | f :: rest => if String.eqb f feature then true else hasFeature rest feature
  end.

(** The [data] value [Generate] builds (lines 55-72). *)
Definition templateData (U : Unicode) (config : ProjectConfig.t) : TemplateData.t :=
  {| TemplateData.AppName := ProjectConfig.AppName config;
     TemplateData.ModuleName := ProjectConfig.ModuleName config;
     TemplateData.Domain := ProjectConfig.Domain config;
     TemplateData.DomainTitle := strings.Title U (ProjectConfig.Domain config);
     TemplateData.DomainPlural := pluralize (ProjectConfig.Domain config);
     TemplateData.Description := ProjectConfig.Description config;
     TemplateData.Author := ProjectConfig.Author config;
     TemplateData.PackageImportPath := ProjectConfig.ModuleName config;
     TemplateData.HasFeature := hasFeature (ProjectConfig.Features config) |}.

(** [getOutputPath] (lines 133-147). *)
Definition getOutputPath (templatePath : string) (data : TemplateData.t) : string :=
  let path := strings.TrimPrefix templatePath "templates/" in
  let path :=
    if strings.HasSuffix path ".tmpl" then strings.TrimSuffix path ".tmpl" else path in
  let path := strings.ReplaceAll path "{{.AppName}}" (TemplateData.AppName data) in
  let path := strings.ReplaceAll path "{{.Domain}}" (TemplateData.Domain data) in
  path.

End Generator0.

(** ** The generator of src/unnamed/part_001 *)

Module Generator1.

Module ProjectConfig.
Record t : Type := mk {
  AppName : string;
  ModuleName : string;
  Domain : string;
  Description : string;
  Author : string;
  Features : list string
}.
End ProjectConfig.

Module TemplateData.
Record t : Type := mk {
  AppName : string;
  ModuleName : string;
  Domain : string;
  DomainTitle : string;
  DomainPlural : string;
  DomainPluralLower : string;
  DomainLower : string;
  Description : string;
  Author : string;
  PackageImportPath : string;
  GoVersion : string;
  HasFeature : string -> bool
}.
End TemplateData.

Record Generator : Type := {
  outputDir : string;
  verbose : bool
}.

Definition New (outputDir : string) : Generator :=
  {| outputDir := outputDir; verbose := false |}.

Definition NewWithVerbose (outputDir : string) (verbose : bool) : Generator :=
  {| outputDir := outputDir; verbose := verbose |}.

(** *** The world outside the generator *)

(** A template after a successful [template.New(name).Parse(text)]. *)
Record Template : Type := {
  tmpl_name : string;
  tmpl_text : string
}.

(** The [*exec.Cmd] that [runCommand] builds: [cmd_attached] says that
    [Stdout] and [Stderr] were set to the process's own (verbose). *)
Record Cmd : Type := {
  cmd_name : string;
  cmd_args : list string;
  cmd_dir : string;
  cmd_attached : bool
}.

(** One call of the [fs.WalkDir] callback: [(path, d, err)], with
    [d.IsDir()] for [d]. *)
Record WalkCall : Type := {
  wc_path : string;
  wc_isDir : bool;
  wc_err : option error
}.

(** What the generator did, each call with the answer it got. *)
Inductive Event : Type :=
| EvMkdirAll (path : string) (perm : N) (res : option error)
| EvReadFile (name : string) (res : result string)
| EvParse (name : string) (res : result Template)
| EvExecute (name : string) (res : result string)
| EvWriteFile (name data : string) (perm : N) (res : option error)
| EvRun (cmd : Cmd) (res : option error)
| EvPrint (text : string).

Definition Trace : Type := list Event.

(** Everything the generator calls that is not byte-level Go: the Unicode
    tables, the inflection library, path/filepath, the embedded template
    tree, text/template, the file system and the processes it starts.
    The answers of the operating system may depend on everything that
    happened before (the trace).  [template_Parse name text] is the
    error of parsing [text], if any.

    [templatesFS_walk] is the sequence of callback calls
    [fs.WalkDir(templatesFS, "templates", fn)] makes when [fn] never
    returns an error: the tree in lexical order, a directory before its
    entries, and a second call with [err] for a directory that cannot be
    read. *)
Record World : Type := {
  world_unicode : Unicode;
  inflection_Plural : string -> string;
  filepath_Join : string -> string -> string;
  filepath_Dir : string -> string;
  filepath_Base : string -> string;
  templatesFS_walk : list WalkCall;
  templatesFS_ReadFile : string -> result string;
  template_Parse : string -> string -> option error;
  template_Execute : Template -> TemplateData.t -> result string;
  os_MkdirAll : Trace -> string -> N -> option error;
  os_WriteFile : Trace -> string -> string -> N -> option error;
  exec_Run : Trace -> Cmd -> option error
}.

(** *** Effects *)

(** A computation reads the trace so far (the world's answers may depend
    on it) and returns its result with the events it adds. *)
Definition IO (A : Type) : Type := Trace -> A * Trace.

Definition ret {A : Type} (a : A) : IO A := fun _ => (a, []).

Definition bind {A B : Type} (m : IO A) (k : A -> IO B) : IO B :=
  fun tr =>
    let (a, ev1) := m tr in
    let (b, ev2) := k a (tr ++ ev1) in
    (b, ev1 ++ ev2).

Notation "x <- m ;; k" := (bind m (fun x => k))
  (at level 100, m at next level, right associativity).
Notation "m ;;; k" := (bind m (fun _ => k))
  (at level 100, right associativity).

(** Performs a call: asks the world, records call and answer. *)
Definition perform {A : Type} (ask : Trace -> A) (ev : A -> Event) : IO A :=
  fun tr => let a := ask tr in (a, [ev a]).

(** The result and the trace of a run that starts with an empty trace. *)
Definition run {A : Type} (m : IO A) : A * Trace := m [].

(** The files on disk that a trace wrote: every successful
    [os.WriteFile], a later one over an earlier one to the same name. *)
Definition written_step (disk : gmap string string) (ev : Event) : gmap string string :=
  match ev with
  | EvWriteFile name data _ None => <[name := data]> disk
  | _ => disk
  end.

Definition written (tr : Trace) : gmap string string :=
  foldl written_step ∅ tr.

(** The commands of a trace, in the order they ran. *)
Definition commands (tr : Trace) : list (list string) :=
  omap (fun ev => match ev with
                  | EvRun cmd _ => Some (cmd_name cmd :: cmd_args cmd)
                  | _ => None
                  end) tr.

(** The lines printed by a trace. *)
Definition printed (tr : Trace) : list string :=
  omap (fun ev => match ev with EvPrint text => Some text | _ => None end) tr.

(** The names of the templates a trace read, rendered, and the files it
    asked to write (whatever the answer). *)
Definition reads (tr : Trace) : list string :=
  omap (fun ev => match ev with EvReadFile name _ => Some name | _ => None end) tr.

Definition renders (tr : Trace) : list string :=
  omap (fun ev => match ev with EvExecute name _ => Some name | _ => None end) tr.

Definition writes (tr : Trace) : list (string * string) :=
  omap (fun ev => match ev with
                  | EvWriteFile name data _ _ => Some (name, data)
                  | _ => None
                  end) tr.

(** The non-directory resources of the store, in walk order. *)
Definition resources (walk : list WalkCall) : list string :=
  omap (fun c => match wc_err c with
                 | Some _ => None
                 | None => if wc_isDir c then None else Some (wc_path c)
                 end) walk.

Section Program.
Context (W : World).

(** [titleCase] (lines 249-254). *)
Definition titleCase (s : string) : string :=
  if (String.length s =? 0)%nat then s
  else strings.ToUpper (world_unicode W) (slice_to 1 s)
       +:+ strings.ToLower (world_unicode W) (slice_from 1 s).

(** The closure stored in [HasFeature] (lines 84-91). *)
Fixpoint hasFeature (features : list string) (feature : string) : bool :=
  match features with
  | [] => false
  | f :: rest => if String.eqb f feature then true else hasFeature rest feature
  end.

(** The [data] value [Generate] builds (lines 72-92). *)
Definition templateData (config : ProjectConfig.t) : TemplateData.t :=
  {| TemplateData.AppName := ProjectConfig.AppName config;
     TemplateData.ModuleName := ProjectConfig.ModuleName config;
     TemplateData.Domain := ProjectConfig.Domain config;
     TemplateData.DomainTitle := titleCase (ProjectConfig.Domain config);
     TemplateData.DomainPlural := inflection_Plural W (ProjectConfig.Domain config);
     TemplateData.DomainPluralLower :=
       strings.ToLower (world_unicode W)
         (inflection_Plural W (ProjectConfig.Domain config));
     TemplateData.DomainLower :=
       strings.ToLower (world_unicode W) (ProjectConfig.Domain config);
     TemplateData.Description := ProjectConfig.Description config;
     TemplateData.Author := ProjectConfig.Author config;
     TemplateData.PackageImportPath := ProjectConfig.ModuleName config;
     TemplateData.GoVersion := "1.23";
     TemplateData.HasFeature := hasFeature (ProjectConfig.Features config) |}.

(** The four literal replacements of [getOutputPath] (lines 172-175). *)
Definition substitute (path : string) (data : TemplateData.t) : string :=
  let path := strings.ReplaceAll path "{{.AppName}}" (TemplateData.AppName data) in
  let path := strings.ReplaceAll path "{{.Domain}}" (TemplateData.Domain data) in
  let path := strings.ReplaceAll path "{{.domain}}" (TemplateData.DomainLower data) in
  let path :=
    strings.ReplaceAll path "{{.domain_plural}}" (TemplateData.DomainPlural data) in
  path.

(** [getOutputPath] (lines 162-178). *)
Definition getOutputPath (templatePath : string) (data : TemplateData.t) : string :=
  let path := strings.TrimPrefix templatePath "templates/" in
  let path :=
    if strings.HasSuffix path ".tmpl" then strings.TrimSuffix path ".tmpl" else path in
  substitute path data.

(** The calls into the world. *)
Definition MkdirAll (path : string) (perm : N) : IO (option error) :=
  perform (fun tr => os_MkdirAll W tr path perm) (EvMkdirAll path perm).

Definition ReadFile (name : string) : IO (result string) :=
  perform (fun _ => templatesFS_ReadFile W name) (EvReadFile name).

Definition Parse (name text : string) : IO (result Template) :=
  perform (fun _ => match template_Parse W name text with
                    | Some err => Err err
                    | None => Ok {| tmpl_name := name; tmpl_text := text |}
                    end) (EvParse name).

Definition Execute (tmpl : Template) (data : TemplateData.t) : IO (result string) :=
  perform (fun _ => template_Execute W tmpl data) (EvExecute (tmpl_name tmpl)).

Definition WriteFile (name data : string) (perm : N) : IO (option error) :=
  perform (fun tr => os_WriteFile W tr name data perm) (EvWriteFile name data perm).

Definition Print (text : string) : IO unit :=
  fun _ => (tt, [EvPrint text]).

Definition Println (text : string) : IO unit := Print (text +:+ nl).

(** The callback of [processTemplates] (lines 115-158); [0755] is 493
    and [0644] is 420. *)
Definition walkFn (data : TemplateData.t) (projectDir : string) (c : WalkCall)
  : IO (option error) :=
  match wc_err c with
  | Some err => ret (Some err)
  | None =>
      if wc_isDir c then ret None
      else
        let path := wc_path c in
        r <- ReadFile path ;;
        match r with
        | Err err =>
            ret (Some (Errorf ("failed to read template file " +:+ path +:+ ": ") err))
        | Ok content =>
            r <- Parse path content ;;
            match r with
            | Err err =>
                ret (Some (Errorf ("failed to parse template " +:+ path +:+ ": ") err))
            | Ok tmpl =>
                r <- Execute tmpl data ;;
                match r with
                | Err err =>
                    ret (Some (Errorf ("failed to execute template " +:+ path +:+ ": ")
                                 err))
                | Ok buf =>
                    let outputPath := getOutputPath path data in
                    let outputPath := filepath_Join W projectDir outputPath in
                    r <- MkdirAll (filepath_Dir W outputPath) 493 ;;
                    match r with
                    | Some err =>
                        ret (Some (Errorf ("failed to create directory for "
                                           +:+ outputPath +:+ ": ") err))
                    | None =>
                        r <- WriteFile outputPath buf 420 ;;
                        match r with
                        | Some err =>
                            ret (Some (Errorf ("failed to write file "
                                               +:+ outputPath +:+ ": ") err))
                        | None => ret None
                        end
                    end
                end
            end
        end
  end.

(** [fs.WalkDir] for a callback that returns [nil] or an error other
    than [fs.SkipDir] and [fs.SkipAll] (the callback above only returns
    the error it was handed or a fresh [fmt.Errorf] value): the calls are
    made in order until one returns an error, which is the result. *)
Fixpoint WalkDir (calls : list WalkCall) (fn : WalkCall -> IO (option error))
  : IO (option error) :=
  match calls with
  | [] => ret None
  | c :: rest =>
      r <- fn c ;;
      match r with
      | Some err => ret (Some err)
      | None => WalkDir rest fn
      end
  end.

(** [processTemplates] (lines 114-159). *)
Definition processTemplates (data : TemplateData.t) (projectDir : string)
  : IO (option error) :=
  WalkDir (templatesFS_walk W) (walkFn data projectDir).

(** [runCommand] (lines 181-191). *)
Definition runCommand (g : Generator) (projectDir name : string) (args : list string)
  : IO (option error) :=
  let cmd := {| cmd_name := name; cmd_args := args; cmd_dir := projectDir;
                cmd_attached := verbose g |} in
  perform (fun tr => exec_Run W tr cmd) (EvRun cmd).

(** [PostProcess] (lines 194-246). *)
Definition PostProcess (g : Generator) (projectDir : string) (data : TemplateData.t)
  : IO (option error) :=
  Println "🔄 Running post-generation tasks..." ;;;
  r <- runCommand g projectDir "go" ["mod"; "init"; TemplateData.ModuleName data] ;;
  match r with
  | Some err => ret (Some (Errorf "failed to initialize go module: " err))
  | None =>
      (r <- runCommand g projectDir "sqlc" ["generate"] ;;
       match r with
       | Some err =>
           Print ("⚠️  SQLc generation failed: " +:+ Error err +:+ nl) ;;;
           Println "   Consider installing sqlc: go install github.com/sqlc-dev/sqlc/cmd/sqlc@latest" ;;;
           Println "   Or run 'make sqlc' in the project directory after setup"
       | None => Println "✅ SQLc code generation successful"
       end) ;;;
      r <- runCommand g projectDir "go" ["mod"; "tidy"] ;;
      match r with
      | Some err => ret (Some (Errorf "failed to run go mod tidy: " err))
      | None =>
          r <- runCommand g projectDir "go" ["fmt"; "./..."] ;;
          match r with
          | Some err => ret (Some (Errorf "failed to format generated code: " err))
          | None =>
              (r <- runCommand g projectDir "goimports" ["-w"; "."] ;;
               match r with
               | Some err =>
                   Print ("⚠️  goimports not available or failed: "
                          +:+ Error err +:+ nl) ;;;
                   Println "   Consider installing goimports: go install golang.org/x/tools/cmd/goimports@latest"
               | None => ret tt
               end) ;;;
              (r <- runCommand g projectDir "go" ["build"; "./..."] ;;
               match r with
               | Some err =>
                   Print ("⚠️  Build failed (this is expected if dependencies require database): "
                          +:+ Error err +:+ nl) ;;;
                   Println "   Run 'make up' in the project directory to start the database and complete setup"
               | None => Println "✅ Build successful"
               end) ;;;
              Println "✅ Post-generation tasks completed" ;;;
              Println "" ;;;
              Println "Next steps:" ;;;
              Println ("  cd " +:+ filepath_Base W projectDir) ;;;
              Println "  make up      # Start the development environment" ;;;
              Println "  make help    # See all available commands" ;;;
              ret None
          end
      end
  end.

(** [Generate] (lines 70-111). *)
Definition Generate (g : Generator) (config : ProjectConfig.t) : IO (option error) :=
  let data := templateData config in
  let projectDir := filepath_Join W (outputDir g) (ProjectConfig.AppName config) in
  r <- MkdirAll projectDir 493 ;;
  match r with
  | Some err => ret (Some (Errorf "failed to create project directory: " err))
  | None =>
      r <- processTemplates data projectDir ;;
      match r with
      | Some err => ret (Some err)
      | None =>
          r <- PostProcess g projectDir data ;;
          match r with
          | Some err => ret (Some (Errorf "post-processing failed: " err))
          | None => ret None
          end
      end
  end.

End Program.

End Generator1.

(** ** The vocabulary of the specification *)

(** [word] ends in [suffix]. *)
Definition ends_in (word suffix : string) : Prop :=
  exists stem, word = stem +:+ suffix.

(** [substr] occurs somewhere in [s]. *)
Fixpoint occurs (s substr : string) : bool :=
  strings.HasPrefix s substr
  || match s with
     | EmptyString => false
     | String _ s' => occurs s' substr
     end.

(** The placeholder tokens of [Generator1.getOutputPath]. *)
Definition tokens : list string :=
  ["{{.AppName}}"; "{{.Domain}}"; "{{.domain}}"; "{{.domain_plural}}"].

(** No non-empty suffix of [t] can begin a string that begins with [d]. *)
Fixpoint clear_of (d t : string) : bool :=
  match t with
  | EmptyString => true
  | String _ t' =>
      negb (strings.HasPrefix t d || strings.HasPrefix d t) && clear_of d t'
  end.

(** [d] occurs in [t] with something after it. *)
Fixpoint early (d t : string) : bool :=
  match t with
  | EmptyString => false
  | String _ t' =>
      (strings.HasPrefix t d && negb (String.eqb t d)) || early d t'
  end.

(** What keeps a match of the token [t] from reaching over either end
    of a string delimited by "{{" and "}}": after its first byte [t]
    cannot run into a "{{", it does not start with "}", and it holds
    "}}" at its end only. *)
Definition token_ok (t : string) : bool :=
  clear_of "{{" (slice_from 1 t) && negb (strings.HasPrefix t "}")
  && negb (early "}}" t).

(** An unknown token: [u] is delimited by "{{" and "}}" and holds none
    of the tokens. *)
Definition unknown_token (u : string) : Prop :=
  strings.HasPrefix u "{{" = true /\ strings.HasSuffix u "}}" = true
  /\ forall token, token ∈ tokens -> occurs u token = false.

(** The path that the replacements of [getOutputPath] work on: the
    template path without the prefix "templates/" and without one
    trailing ".tmpl" (part_001, lines 164-170; part_000, lines
    135-140). *)
Definition stripped (templatePath : string) : string :=
  let path := strings.TrimPrefix templatePath "templates/" in
  if strings.HasSuffix path ".tmpl" then strings.TrimSuffix path ".tmpl" else path.

(** No token can overlap [m], whatever stands before and after it: no
    token can begin inside [m], and no token begun before [m] can run
    into it. *)
Definition inert (m : string) : bool :=
  forallb (fun token => clear_of token m && clear_of m (slice_from 1 token)) tokens.

Section Vocabulary.
Import Generator1.

(** The successful writes of a trace. *)
Definition ok_writes (tr : Trace) : list (string * string) :=
  omap (fun ev => match ev with
                  | EvWriteFile name data _ None => Some (name, data)
                  | _ => None
                  end) tr.

(** The call of an event got a successful answer. *)
Definition io_ok (ev : Event) : Prop :=
  match ev with
  | EvMkdirAll _ _ res => res = None
  | EvReadFile _ res => exists content, res = Ok content
  | EvParse _ res => exists tmpl, res = Ok tmpl
  | EvExecute _ res => exists buf, res = Ok buf
  | EvWriteFile _ _ _ res => res = None
  | EvRun _ _ => True
  | EvPrint _ => True
  end.

(** An event of the post-processing: a command or a printed line. *)
Definition post_event (ev : Event) : bool :=
  match ev with
  | EvRun _ _ | EvPrint _ => true
  | _ => false
  end.

Definition store_step (disk : gmap string string) (w : string * string)
  : gmap string string := <[w.1 := w.2]> disk.

(** The steps of the post-processing by policy.  Fatal: [go mod init],
    [go mod tidy], [go fmt]; best-effort: [sqlc], [goimports],
    [go build]. *)
Definition module_init (cmd : Cmd) : bool :=
  String.eqb (cmd_name cmd) "go"
  && match cmd_args cmd with
     | [a; b; _] => String.eqb a "mod" && String.eqb b "init"
     | _ => false
     end.

Definition fatal (cmd : Cmd) : bool :=
  module_init cmd
  || (String.eqb (cmd_name cmd) "go"
      && (bool_decide (cmd_args cmd = ["mod"; "tidy"])
          || bool_decide (cmd_args cmd = ["fmt"; "./..."]))).

Definition best_effort (cmd : Cmd) : bool :=
  String.eqb (cmd_name cmd) "sqlc"
  || String.eqb (cmd_name cmd) "goimports"
  || (String.eqb (cmd_name cmd) "go" && bool_decide (cmd_args cmd = ["build"; "./..."])).

(** The text [PostProcess] puts before the error of a fatal step. *)
Definition fatal_step (cmd : Cmd) : string :=
  if module_init cmd then "failed to initialize go module: "
  else if bool_decide (cmd_args cmd = ["mod"; "tidy"]) then "failed to run go mod tidy: "
  else "failed to format generated code: ".

(** The first line [PostProcess] prints for a failed best-effort step. *)
Definition warning (cmd : Cmd) (err : error) : string :=
  (if String.eqb (cmd_name cmd) "sqlc" then "⚠️  SQLc generation failed: "
   else if String.eqb (cmd_name cmd) "goimports"
        then "⚠️  goimports not available or failed: "
        else "⚠️  Build failed (this is expected if dependencies require database): ")
  +:+ Error err +:+ nl.

(** The six commands of the post-processing, in order. *)
Definition pipeline (config : ProjectConfig.t) : list (list string) :=
  [ ["go"; "mod"; "init"; ProjectConfig.ModuleName config];
    ["sqlc"; "generate"];
    ["go"; "mod"; "tidy"];
    ["go"; "fmt"; "./..."];
    ["goimports"; "-w"; "."];
    ["go"; "build"; "./..."] ].

(** [err] wraps an error with the template [path] or the output path
    [out], in one of the five messages of the callback. *)
Definition names (err : error) (path out : string) : Prop :=
  exists inner,
    err = Errorf ("failed to read template file " +:+ path +:+ ": ") inner
    \/ err = Errorf ("failed to parse template " +:+ path +:+ ": ") inner
    \/ err = Errorf ("failed to execute template " +:+ path +:+ ": ") inner
    \/ err = Errorf ("failed to create directory for " +:+ out +:+ ": ") inner
    \/ err = Errorf ("failed to write file " +:+ out +:+ ": ") inner.

Context (W : World).

(** [projectDir] in [Generate]. *)
Definition projectDirOf (g : Generator) (config : ProjectConfig.t) : string :=
  filepath_Join W (outputDir g) (ProjectConfig.AppName config).

Context (data : TemplateData.t) (projectDir : string).

(** Where the template [path] is written. *)
Definition outputPath (path : string) : string :=
  filepath_Join W projectDir (getOutputPath path data).

(** The bytes the engine renders template [path] to (empty when the
    template cannot be read or executed). *)
Definition rendering (path : string) : string :=
  match templatesFS_ReadFile W path with
  | Ok content =>
      match template_Execute W {| tmpl_name := path; tmpl_text := content |} data with
      | Ok buf => buf
      | Err _ => EmptyString
      end
  | Err _ => EmptyString
  end.

Definition output (path : string) : string * string :=
  (outputPath path, rendering path).

(** The outcomes of one call of the callback of [processTemplates]: its
    result and the events it adds. *)
Inductive walk_outcome (c : WalkCall) : option error -> Trace -> Prop :=
| wo_error err :
    wc_err c = Some err ->
    walk_outcome c (Some err) []
| wo_directory :
    wc_err c = None -> wc_isDir c = true ->
    walk_outcome c None []
| wo_read_failed err :
    wc_err c = None -> wc_isDir c = false ->
    templatesFS_ReadFile W (wc_path c) = Err err ->
    walk_outcome c
      (Some (Errorf ("failed to read template file " +:+ wc_path c +:+ ": ") err))
      [EvReadFile (wc_path c) (Err err)]
| wo_parse_failed content err :
    wc_err c = None -> wc_isDir c = false ->
    templatesFS_ReadFile W (wc_path c) = Ok content ->
    template_Parse W (wc_path c) content = Some err ->
    walk_outcome c
      (Some (Errorf ("failed to parse template " +:+ wc_path c +:+ ": ") err))
      [EvReadFile (wc_path c) (Ok content); EvParse (wc_path c) (Err err)]
| wo_execute_failed content err :
    wc_err c = None -> wc_isDir c = false ->
    templatesFS_ReadFile W (wc_path c) = Ok content ->
    template_Parse W (wc_path c) content = None ->
    template_Execute W {| tmpl_name := wc_path c; tmpl_text := content |} data = Err err ->
    walk_outcome c
      (Some (Errorf ("failed to execute template " +:+ wc_path c +:+ ": ") err))
      [EvReadFile (wc_path c) (Ok content);
       EvParse (wc_path c) (Ok {| tmpl_name := wc_path c; tmpl_text := content |});
       EvExecute (wc_path c) (Err err)]
| wo_mkdir_failed content buf err :
    wc_err c = None -> wc_isDir c = false ->
    templatesFS_ReadFile W (wc_path c) = Ok content ->
    template_Parse W (wc_path c) content = None ->
    template_Execute W {| tmpl_name := wc_path c; tmpl_text := content |} data = Ok buf ->
    walk_outcome c
      (Some (Errorf ("failed to create directory for " +:+ outputPath (wc_path c) +:+ ": ")
               err))
      [EvReadFile (wc_path c) (Ok content);
       EvParse (wc_path c) (Ok {| tmpl_name := wc_path c; tmpl_text := content |});
       EvExecute (wc_path c) (Ok buf);
       EvMkdirAll (filepath_Dir W (outputPath (wc_path c))) 493 (Some err)]
| wo_write_failed content buf err :
    wc_err c = None -> wc_isDir c = false ->
    templatesFS_ReadFile W (wc_path c) = Ok content ->
    template_Parse W (wc_path c) content = None ->
    template_Execute W {| tmpl_name := wc_path c; tmpl_text := content |} data = Ok buf ->
    walk_outcome c
      (Some (Errorf ("failed to write file " +:+ outputPath (wc_path c) +:+ ": ") err))
      [EvReadFile (wc_path c) (Ok content);
       EvParse (wc_path c) (Ok {| tmpl_name := wc_path c; tmpl_text := content |});
       EvExecute (wc_path c) (Ok buf);
       EvMkdirAll (filepath_Dir W (outputPath (wc_path c))) 493 None;
       EvWriteFile (outputPath (wc_path c)) buf 420 (Some err)]
| wo_written content buf :
    wc_err c = None -> wc_isDir c = false ->
    templatesFS_ReadFile W (wc_path c) = Ok content ->
    template_Parse W (wc_path c) content = None ->
    template_Execute W {| tmpl_name := wc_path c; tmpl_text := content |} data = Ok buf ->
    walk_outcome c None
      [EvReadFile (wc_path c) (Ok content);
       EvParse (wc_path c) (Ok {| tmpl_name := wc_path c; tmpl_text := content |});
       EvExecute (wc_path c) (Ok buf);
       EvMkdirAll (filepath_Dir W (outputPath (wc_path c))) 493 None;
       EvWriteFile (outputPath (wc_path c)) buf 420 None].

(** The outcomes of a walk over [calls]: every call succeeds, or the
    walk stops at the first call that fails. *)
Inductive walk_run : list WalkCall -> option error -> Trace -> Prop :=
| wr_done : walk_run [] None []
| wr_stop c rest err ev :
    walk_outcome c (Some err) ev ->
    walk_run (c :: rest) (Some err) ev
| wr_next c rest ev res evs :
    walk_outcome c None ev ->
    walk_run rest res evs ->
    walk_run (c :: rest) res (ev ++ evs).

End Vocabulary.

(** The three ways a run of [Generate] ends: the project directory
    cannot be created; a template fails; the templates are written and
    the post-processing decides. *)
Inductive generate_run (W : Generator1.World) (g : Generator1.Generator)
    (config : Generator1.ProjectConfig.t) : option error -> Generator1.Trace -> Prop :=
| gr_mkdir_failed err :
    generate_run W g config
      (Some (Errorf "failed to create project directory: " err))
      [Generator1.EvMkdirAll (projectDirOf W g config) 493 (Some err)]
| gr_templates_failed err ev1 :
    walk_run W (Generator1.templateData W config) (projectDirOf W g config)
      (Generator1.templatesFS_walk W) (Some err) ev1 ->
    generate_run W g config (Some err)
      (Generator1.EvMkdirAll (projectDirOf W g config) 493 None :: ev1)
| gr_post_processed ev1 res ev2 :
    walk_run W (Generator1.templateData W config) (projectDirOf W g config)
      (Generator1.templatesFS_walk W) None ev1 ->
    Generator1.PostProcess W g (projectDirOf W g config)
      (Generator1.templateData W config)
      (Generator1.EvMkdirAll (projectDirOf W g config) 493 None :: ev1) = (res, ev2) ->
    generate_run W g config
      (match res with
       | Some err => Some (Errorf "post-processing failed: " err)
       | None => None
       end)
      (Generator1.EvMkdirAll (projectDirOf W g config) 493 None :: ev1 ++ ev2).

(** ** Sample worlds, to run the generator on concrete input *)

Module Sample.
Import Generator1.

(** [a/b], the join of two clean, non-empty elements. *)
Definition join (a b : string) : string := a +:+ "/" +:+ b.

Fixpoint has_slash (s : string) : bool :=
  match s with
  | EmptyString => false
  | String c s' => Ascii.eqb c "/" || has_slash s'
  end.

(** All but the last element of a clean path with a slash. *)
Fixpoint dir (s : string) : string :=
  match s with
  | EmptyString => EmptyString
  | String c s' => if has_slash s' then String c (dir s') else EmptyString
  end.

(** The last element of a clean path. *)
Fixpoint base (s : string) : string :=
  match s with
  | EmptyString => EmptyString
  | String c s' => if has_slash s then base s' else s
  end.

(** A plural function with the irregular noun that the documentation of
    the inflection library shows, person to people, and a plain "s"
    otherwise. *)
Definition plural (word : string) : string :=
  if String.eqb word "person" then "people" else word +:+ "s".

(** An engine that parses everything and renders a template as its
    text. *)
Definition parse (name text : string) : option error := None.

Definition execute (tmpl : Template) (data : TemplateData.t) : result string :=
  Ok (tmpl_text tmpl).

Definition file (path : string) : WalkCall :=
  {| wc_path := path; wc_isDir := false; wc_err := None |}.

Definition directory (path : string) : WalkCall :=
  {| wc_path := path; wc_isDir := true; wc_err := None |}.

(** A world over the store [walk] in which reading gives the empty
    template; [mkdir], [write] and [exec] decide which calls fail. *)
Definition world (walk : list WalkCall)
    (mkdir write : string -> option error) (exec : Cmd -> option error) : World :=
  {| world_unicode := ascii_only;
     inflection_Plural := plural;
     filepath_Join := join;
     filepath_Dir := dir;
     filepath_Base := base;
     templatesFS_walk := walk;
     templatesFS_ReadFile := fun _ => Ok EmptyString;
     template_Parse := parse;
     template_Execute := execute;
     os_MkdirAll := fun _ path _ => mkdir path;
     os_WriteFile := fun _ name _ _ => write name;
     exec_Run := fun _ cmd => exec cmd |}.

Definition always {A : Type} (_ : A) : option error := None.

(** Fails the command called [name] with [exit status 1]. *)
Definition failing (name : string) (arg : string) (cmd : Cmd) : option error :=
  if String.eqb (cmd_name cmd) name && bool_decide (arg ∈ cmd_args cmd)
  then Some (errorString "exit status 1") else None.

(** The first of two deciders that fails the command. *)
Definition or_else (first second : Cmd -> option error) (cmd : Cmd) : option error :=
  match first cmd with
  | Some err => Some err
  | None => second cmd
  end.

(** Fails path [name] with [permission denied]. *)
Definition denied (name : string) (path : string) : option error :=
  if String.eqb path name then Some (errorString "permission denied") else None.

Definition config (app domain : string) (features : list string) : ProjectConfig.t :=
  {| ProjectConfig.AppName := app;
     ProjectConfig.ModuleName := "github.com/user/" +:+ app;
     ProjectConfig.Domain := domain;
     ProjectConfig.Description := "A " +:+ domain +:+ " management API";
     ProjectConfig.Author := "Developer";
     ProjectConfig.Features := features |}.

Definition config0 (app domain : string) (features : list string)
  : Generator0.ProjectConfig.t :=
  {| Generator0.ProjectConfig.AppName := app;
     Generator0.ProjectConfig.ModuleName := "github.com/user/" +:+ app;
     Generator0.ProjectConfig.Domain := domain;
     Generator0.ProjectConfig.Description := "A " +:+ domain +:+ " management API";
     Generator0.ProjectConfig.Author := "Developer";
     Generator0.ProjectConfig.Features := features |}.

(** A store with a directory and three templates. *)
Definition store : list WalkCall :=
  [ directory "templates";
    file "templates/Makefile";
    directory "templates/internal";
    file "templates/internal/{{.domain}}.go.tmpl";
    file "templates/main.go.tmpl" ].

(** A store whose two templates resolve to one output path. *)
Definition colliding : list WalkCall :=
  [ directory "templates"; file "templates/a"; file "templates/a.tmpl" ].

End Sample.

(** ** More vocabulary *)

(** No byte after the first is changed by [strings.Title] or by the
    lower-casing of [titleCase]: none is an upper-case letter, and no
    lower-case letter follows a separator.  [prev] is the byte before. *)
Fixpoint title_stable (prev : ascii) (s : string) : bool :=
  match s with
  | EmptyString => true
  | String c s' =>
      negb (strings.is_upper c)
      && negb (strings.isSeparator prev && strings.is_lower c)
      && title_stable c s'
  end.

(** The two replacements of [getOutputPath] of part_000 (lines
    143-144). *)
Definition substitute0 (path : string) (data : Generator0.TemplateData.t) : string :=
  strings.ReplaceAll
    (strings.ReplaceAll path "{{.AppName}}" (Generator0.TemplateData.AppName data))
    "{{.Domain}}" (Generator0.TemplateData.Domain data).

(** The error that the call of an event returned, if it failed. *)
Definition failure (ev : Generator1.Event) : option error :=
  match ev with
  | Generator1.EvMkdirAll _ _ res => res
  | Generator1.EvReadFile _ (Err err) => Some err
  | Generator1.EvParse _ (Err err) => Some err
  | Generator1.EvExecute _ (Err err) => Some err
  | Generator1.EvWriteFile _ _ _ res => res
  | Generator1.EvRun _ res => res
  | _ => None
  end.

(** [cause] is on the [Unwrap] chain of [err], below [err] itself. *)
Fixpoint wraps (err cause : error) : Prop :=
  match err with
  | errorString _ => False
  | wrapError _ inner => inner = cause \/ wraps inner cause
  end.

(** The last line [PostProcess] prints when it succeeds. *)
Definition closing_line : string :=
  "  make help    # See all available commands" +:+ nl.

(** Every [os.WriteFile] of the trace [evs] has mode [0644], writes the
    rendering of one of the templates [paths] to its output path, and
    comes directly after the successful [os.MkdirAll], with mode [0755],
    of the directory of that path. *)
Definition writes_guarded (W : Generator1.World) (data : Generator1.TemplateData.t)
    (projectDir : string) (paths : list string) (evs : list Generator1.Event) : Prop :=
  forall i name buf perm r,
    evs !! i = Some (Generator1.EvWriteFile name buf perm r) ->
    perm = 420
    /\ (exists path, path ∈ paths /\ (name, buf) = output W data projectDir path)
    /\ exists j, i = S j
         /\ evs !! j
            = Some (Generator1.EvMkdirAll (Generator1.filepath_Dir W name) 493 None).

(** ** The effects of the generator of src/unnamed/part_000 *)

(** [New], [Generate] and [processTemplates] of part_000, over the events
    and the walk of [Generator1]: the template engine of this revision
    renders with the [TemplateData] of part_000, and nothing is run or
    printed. *)
Module Generator0Run.
Import Generator1.

Record Generator : Type := {
  outputDir : string
}.

(** [New] (lines 46-50). *)
Definition New (outputDir : string) : Generator :=
  {| outputDir := outputDir |}.

Record World : Type := {
  world_unicode : Unicode;
  filepath_Join : string -> string -> string;
  filepath_Dir : string -> string;
  templatesFS_walk : list WalkCall;
  templatesFS_ReadFile : string -> result string;
  template_Parse : string -> string -> option error;
  template_Execute : Template -> Generator0.TemplateData.t -> result string;
  os_MkdirAll : Trace -> string -> N -> option error;
  os_WriteFile : Trace -> string -> string -> N -> option error
}.

Section Program.
Context (W : World).

Definition MkdirAll (path : string) (perm : N) : IO (option error) :=
  perform (fun tr => os_MkdirAll W tr path perm) (EvMkdirAll path perm).

Definition ReadFile (name : string) : IO (result string) :=
  perform (fun _ => templatesFS_ReadFile W name) (EvReadFile name).

Definition Parse (name text : string) : IO (result Template) :=
  perform (fun _ => match template_Parse W name text with
                    | Some err => Err err
                    | None => Ok {| tmpl_name := name; tmpl_text := text |}
                    end) (EvParse name).

Definition Execute (tmpl : Template) (data : Generator0.TemplateData.t)
  : IO (result string) :=
  perform (fun _ => template_Execute W tmpl data) (EvExecute (tmpl_name tmpl)).

Definition WriteFile (name data : string) (perm : N) : IO (option error) :=
  perform (fun tr => os_WriteFile W tr name data perm) (EvWriteFile name data perm).

(** The callback of [processTemplates] (lines 86-129). *)
Definition walkFn (data : Generator0.TemplateData.t) (projectDir : string) (c : WalkCall)
  : IO (option error) :=
  match wc_err c with
  | Some err => ret (Some err)
  | None =>
      if wc_isDir c then ret None
      else
        let path := wc_path c in
        r <- ReadFile path ;;
        match r with
        | Err err =>
            ret (Some (Errorf ("failed to read template file " +:+ path +:+ ": ") err))
        | Ok content =>
            r <- Parse path content ;;
            match r with
            | Err err =>
                ret (Some (Errorf ("failed to parse template " +:+ path +:+ ": ") err))
            | Ok tmpl =>
                r <- Execute tmpl data ;;
                match r with
                | Err err =>
                    ret (Some (Errorf ("failed to execute template " +:+ path +:+ ": ")
                                 err))
                | Ok buf =>
                    let outputPath := Generator0.getOutputPath path data in
                    let outputPath := filepath_Join W projectDir outputPath in
                    r <- MkdirAll (filepath_Dir W outputPath) 493 ;;
                    match r with
                    | Some err =>
                        ret (Some (Errorf ("failed to create directory for "
                                           +:+ outputPath +:+ ": ") err))
                    | None =>
                        r <- WriteFile outputPath buf 420 ;;
                        match r with
                        | Some err =>
                            ret (Some (Errorf ("failed to write file "
                                               +:+ outputPath +:+ ": ") err))
                        | None => ret None
                        end
                    end
                end
            end
        end
  end.

(** [processTemplates] (lines 85-130). *)
Definition processTemplates (data : Generator0.TemplateData.t) (projectDir : string)
  : IO (option error) :=
  WalkDir (templatesFS_walk W) (walkFn data projectDir).

(** [Generate] (lines 53-82). *)
Definition Generate (g : Generator) (config : Generator0.ProjectConfig.t)
  : IO (option error) :=
  let data := Generator0.templateData (world_unicode W) config in
  let projectDir :=
    filepath_Join W (outputDir g) (Generator0.ProjectConfig.AppName config) in
  r <- MkdirAll projectDir 493 ;;
  match r with
  | Some err => ret (Some (Errorf "failed to create project directory: " err))
  | None => processTemplates data projectDir
  end.

(** Where part_000 writes the template [path], and with which bytes. *)
Definition output (data : Generator0.TemplateData.t) (projectDir path : string)
  : string * string :=
  (filepath_Join W projectDir (Generator0.getOutputPath path data),
   match templatesFS_ReadFile W path with
   | Ok content =>
       match template_Execute W {| tmpl_name := path; tmpl_text := content |} data with
       | Ok buf => buf
       | Err _ => EmptyString
       end
   | Err _ => EmptyString
   end).

End Program.

End Generator0Run.

(** A sample world for part_000, like [Sample.world]. *)
Module Sample0.
Import Generator1.

Definition execute (tmpl : Template) (data : Generator0.TemplateData.t)
  : result string := Ok (tmpl_text tmpl).

Definition world (walk : list WalkCall) (mkdir write : string -> option error)
  : Generator0Run.World :=
  {| Generator0Run.world_unicode := ascii_only;
     Generator0Run.filepath_Join := Sample.join;
     Generator0Run.filepath_Dir := Sample.dir;
     Generator0Run.templatesFS_walk := walk;
     Generator0Run.templatesFS_ReadFile := fun _ => Ok EmptyString;
     Generator0Run.template_Parse := Sample.parse;
     Generator0Run.template_Execute := execute;
     Generator0Run.os_MkdirAll := fun _ path _ => mkdir path;
     Generator0Run.os_WriteFile := fun _ name _ _ => write name |}.

End Sample0.

(** ** The [create] command of src/cmd/go-app-gen/cmd/create.go *)

(** The command that fills [config] from the flags or the prompts,
    validates it and calls the generator.  The package-level variable
    [config] is passed and returned; the terminal, the file system and
    [strings.TrimSpace] and [strings.EqualFold] on input that holds a
    byte [>= 0x80] are fields of [Create.World]; the generator it calls
    is [Generator1] over the field [generator_World]. *)
Module Create.

Module Config.
Record t : Type := mk {
  AppName : string;
  ModuleName : string;
  Domain : string;
  Description : string;
  Author : string;
  OutputDir : string;
  Features : list string
}.
End Config.

(** The values of the flags when none is given (lines 61-66). *)
Definition flags : Config.t :=
  {| Config.AppName := "";
     Config.ModuleName := "";
     Config.Domain := "";
     Config.Description := "";
     Config.Author := "";
     Config.OutputDir := ".";
     Config.Features := [] |}.

(** What the command did, each call with the answer it got; the events
    of the generator it called are embedded. *)
Inductive Event : Type :=
| EvPrint (text : string)
| EvScanln (input : string)
| EvStat (name : string) (res : option error)
| EvOpen (name : string) (res : option error)
| EvReaddirnames (name : string) (n : N) (res : option error)
| EvClose (name : string)
| EvRemoveAll (path : string) (res : option error)
| EvGenerator (ev : Generator1.Event).

Definition Trace : Type := list Event.

(** [fmt_Scanln] is the string that [fmt.Scanln(&input)] leaves in
    [input] (empty when it stores nothing; its error is not looked at).
    [file_Readdirnames] is the error of [f.Readdirnames(n)]; the names
    are not looked at. *)
Record World : Type := {
  unicode_TrimSpace : string -> string;
  unicode_EqualFold : string -> string -> bool;
  fmt_Scanln : Trace -> string;
  os_Stat : Trace -> string -> option error;
  os_IsNotExist : error -> bool;
  os_Open : Trace -> string -> option error;
  file_Readdirnames : Trace -> string -> N -> option error;
  os_RemoveAll : Trace -> string -> option error;
  generator_World : Generator1.World
}.

Definition IO (A : Type) : Type := Trace -> A * Trace.

Definition ret {A : Type} (a : A) : IO A := fun _ => (a, []).

Definition bind {A B : Type} (m : IO A) (k : A -> IO B) : IO B :=
  fun tr =>
    let (a, ev1) := m tr in
    let (b, ev2) := k a (tr ++ ev1) in
    (b, ev1 ++ ev2).

Notation "x <- m ;; k" := (bind m (fun x => k))
  (at level 100, m at next level, right associativity).
Notation "m ;;; k" := (bind m (fun _ => k))
  (at level 100, right associativity).

Definition perform {A : Type} (ask : Trace -> A) (ev : A -> Event) : IO A :=
  fun tr => let a := ask tr in (a, [ev a]).

Definition run {A : Type} (m : IO A) : A * Trace := m [].

(** The events of the generator in a trace. *)
Definition generated (tr : Trace) : Generator1.Trace :=
  omap (fun ev => match ev with EvGenerator ev => Some ev | _ => None end) tr.

(** How [runCreate] ends: it returns, or [args[0]] is out of range. *)
Inductive outcome : Type :=
| Return (err : option error)
| Panic.

(** [asciiSpace]: tab, newline, vertical tab, form feed, carriage
    return and space. *)
Definition asciiSpace (c : ascii) : bool :=
  ((9 <=? N_of_ascii c) && (N_of_ascii c <=? 13)) || (N_of_ascii c =? 32).

Fixpoint trim_left (s : string) : string :=
  match s with
  | EmptyString => EmptyString
  | String c s' => if asciiSpace c then trim_left s' else s
  end.

Fixpoint trim_right (s : string) : string :=
  match s with
  | EmptyString => EmptyString
  | String c s' =>
      match trim_right s' with
      | EmptyString => if asciiSpace c then EmptyString else String c EmptyString
      | rest => String c rest
      end
  end.

Section Program.
Context (W : World).

(** [strings.TrimSpace]: on ASCII-only input the bytes of [asciiSpace]
    are cut from both ends. *)
Definition TrimSpace (s : string) : string :=
  if strings.isASCII s then trim_right (trim_left s) else unicode_TrimSpace W s.

(** [strings.EqualFold]: bytes are compared up to ASCII case until one
    string ends or a byte [>= 0x80] is met; the strings are equal under
    folding when both end together. *)
Fixpoint EqualFold (s t : string) : bool :=
  match s, t with
  | String sr s', String tr t' =>
      if negb (strings.is_ascii_byte sr && strings.is_ascii_byte tr)
      then unicode_EqualFold W s t
      else if Ascii.eqb tr sr then EqualFold s' t'
      else
        let lo := if N_of_ascii tr <? N_of_ascii sr then tr else sr in
        let hi := if N_of_ascii tr <? N_of_ascii sr then sr else tr in
        if strings.is_upper lo && (N_of_ascii hi =? N_of_ascii lo + 32)
        then EqualFold s' t'
        else false
  | EmptyString, EmptyString => true
  | _, _ => false
  end.

(** The answers that let [validateConfig] go on (line 207). *)
Definition confirmed (response : string) : bool :=
  EqualFold response "y" || EqualFold response "yes".

(** The calls into the world. *)
Definition Print (text : string) : IO unit :=
  fun _ => (tt, [EvPrint text]).

Definition Println (text : string) : IO unit := Print (text +:+ nl).

Definition Scanln : IO string :=
  perform (fun tr => fmt_Scanln W tr) EvScanln.

Definition Stat (name : string) : IO (option error) :=
  perform (fun tr => os_Stat W tr name) (EvStat name).

Definition Open (name : string) : IO (option error) :=
  perform (fun tr => os_Open W tr name) (EvOpen name).

Definition Readdirnames (name : string) (n : N) : IO (option error) :=
  perform (fun tr => file_Readdirnames W tr name n) (EvReaddirnames name n).

Definition Close (name : string) : IO unit :=
  fun _ => (tt, [EvClose name]).

Definition RemoveAll (path : string) : IO (option error) :=
  perform (fun tr => os_RemoveAll W tr path) (EvRemoveAll path).

(** [gen.Generate(projectConfig)]: the generator runs in its world, on
    its own history, and its events are embedded. *)
Definition Generate (g : Generator1.Generator) (config : Generator1.ProjectConfig.t)
  : IO (option error) :=
  fun tr =>
    let (r, evs) := Generator1.Generate (generator_World W) g config (generated tr) in
    (r, EvGenerator <$> evs).

(** [filepath.Join], the one the generator calls. *)
Definition Join (dir name : string) : string :=
  Generator1.filepath_Join (generator_World W) dir name.

(** [isDirEmpty] (lines 222-235); the deferred [f.Close()] runs after
    [Readdirnames]. *)
Definition isDirEmpty (dir : string) : IO (bool * option error) :=
  r <- Open dir ;;
  match r with
  | Some err => ret (false, Some err)
  | None =>
      r <- Readdirnames dir 1 ;;
      Close dir ;;;
      match r with
      | None => ret (false, None)
      | Some _ => ret (true, None)
      end
  end.

(** [validateConfig] (lines 172-219). *)
Definition validateConfig (config : Config.t) : IO (option error) :=
  if String.eqb (Config.AppName config) "" then
    ret (Some (errorString "app name is required"))
  else if String.eqb (Config.ModuleName config) "" then
    ret (Some (errorString "module name is required"))
  else if String.eqb (Config.Domain config) "" then
    ret (Some (errorString "domain is required"))
  else
    r <- Stat (Config.OutputDir config) ;;
    if match r with Some err => os_IsNotExist W err | None => false end then
      ret (Some (errorString ("output directory does not exist: "
                              +:+ Config.OutputDir config)))
    else
      let targetDir := Join (Config.OutputDir config) (Config.AppName config) in
      r <- Stat targetDir ;;
      match r with
      | Some _ => ret None
      | None =>
          r <- isDirEmpty targetDir ;;
          match r.2 with
          | Some err =>
              ret (Some (Errorf "failed to check if directory is empty: " err))
          | None =>
              if r.1 then ret None
              else
                Print ("Directory '" +:+ targetDir
                       +:+ "' already exists and contains files." +:+ nl) ;;;
                Print "Do you want to recreate it? [y/N]: " ;;;
                response <- Scanln ;;
                if negb (EqualFold response "y") && negb (EqualFold response "yes")
                then ret (Some (errorString "operation cancelled"))
                else
                  r <- RemoveAll targetDir ;;
                  match r with
                  | Some err =>
                      ret (Some (Errorf "failed to remove existing directory: " err))
                  | None => ret None
                  end
          end
      end.

(** The defaults of [runDirectMode] (lines 112-123), one assignment
    after the other. *)
Definition defaults (config : Config.t) : Config.t :=
  let moduleName :=
    if String.eqb (Config.ModuleName config) ""
    then "github.com/user/" +:+ Config.AppName config
    else Config.ModuleName config in
  let domain :=
    if String.eqb (Config.Domain config) "" then "item" else Config.Domain config in
  let description :=
    if String.eqb (Config.Description config) ""
    then "A " +:+ domain +:+ " management API"
    else Config.Description config in
  let author :=
    if String.eqb (Config.Author config) "" then "Developer"
    else Config.Author config in
  {| Config.AppName := Config.AppName config;
     Config.ModuleName := moduleName;
     Config.Domain := domain;
     Config.Description := description;
     Config.Author := author;
     Config.OutputDir := Config.OutputDir config;
     Config.Features := Config.Features config |}.

(** [runDirectMode] (lines 110-126): the new [config] and the result. *)
Definition runDirectMode (config : Config.t) : IO (Config.t * option error) :=
  let config := defaults config in
  r <- validateConfig config ;;
  ret (config, r).

(** [promptString] (lines 156-170). *)
Definition promptString (prompt defaultValue : string) : IO string :=
  (if negb (String.eqb defaultValue "")
   then Print (prompt +:+ " [" +:+ defaultValue +:+ "]: ")
   else Print (prompt +:+ ": ")) ;;;
  input <- Scanln ;;
  if String.eqb input "" then ret defaultValue else ret (TrimSpace input).

(** [runInteractiveMode] (lines 128-154). *)
Definition runInteractiveMode (config : Config.t) : IO (Config.t * option error) :=
  Println "🚀 Welcome to go-app-gen!" ;;;
  Println "Let's create your Go application step by step." ;;;
  Println "" ;;;
  appName <- promptString "Project name" "myapp" ;;
  moduleName <- promptString "Go module name" ("github.com/user/" +:+ appName) ;;
  domain <- promptString "Primary domain entity (e.g., user, product, order)" "item" ;;
  description <-
    promptString "Project description" ("A " +:+ domain +:+ " management API") ;;
  author <- promptString "Author name" "Developer" ;;
  outputDir <- promptString "Output directory" "." ;;
  let config :=
    {| Config.AppName := appName;
       Config.ModuleName := moduleName;
       Config.Domain := domain;
       Config.Description := description;
       Config.Author := author;
       Config.OutputDir := outputDir;
       Config.Features := Config.Features config |} in
  r <- validateConfig config ;;
  ret (config, r).

(** The [Args] validator of [createCmd] (lines 48-56). *)
Definition Args (interactive : bool) (args : list string) : option error :=
  if interactive then None
  else if (length args <? 1)%nat
       then Some (errorString "project name is required when not using --interactive")
       else None.

(** [projectConfig] in [runCreate] (lines 87-94). *)
Definition projectConfig (config : Config.t) : Generator1.ProjectConfig.t :=
  {| Generator1.ProjectConfig.AppName := Config.AppName config;
     Generator1.ProjectConfig.ModuleName := Config.ModuleName config;
     Generator1.ProjectConfig.Domain := Config.Domain config;
     Generator1.ProjectConfig.Description := Config.Description config;
     Generator1.ProjectConfig.Author := Config.Author config;
     Generator1.ProjectConfig.Features := Config.Features config |}.

(** The lines [runCreate] prints after a successful generation (lines
    100-105). *)
Definition success (config : Config.t) : list string :=
  [ "✅ Successfully created project '" +:+ Config.AppName config +:+ "' in "
      +:+ Join (Config.OutputDir config) (Config.AppName config) +:+ nl;
    "📁 Project structure generated with module: " +:+ Config.ModuleName config +:+ nl;
    "🚀 To get started:" +:+ nl;
    "   cd " +:+ Config.AppName config +:+ nl;
    "   go mod tidy" +:+ nl;
    "   make help" +:+ nl ].

Fixpoint PrintAll (lines : list string) : IO unit :=
  match lines with
  | [] => ret tt
  | line :: rest => Print line ;;; PrintAll rest
  end.

(** What [runCreate] does once the mode has filled [config] (lines
    80-107). *)
Definition generate (config : Config.t) (err : option error) : IO outcome :=
  match err with
  | Some err => ret (Return (Some (Errorf "failed to create project: " err)))
  | None =>
      let gen := Generator1.New (Config.OutputDir config) in
      r <- Generate gen (projectConfig config) ;;
      match r with
      | Some err => ret (Return (Some (Errorf "failed to generate project: " err)))
      | None => PrintAll (success config) ;;; ret (Return None)
      end
  end.

(** [config.AppName = args[0]] (line 76). *)
Definition setAppName (config : Config.t) (name : string) : Config.t :=
  {| Config.AppName := name;
     Config.ModuleName := Config.ModuleName config;
     Config.Domain := Config.Domain config;
     Config.Description := Config.Description config;
     Config.Author := Config.Author config;
     Config.OutputDir := Config.OutputDir config;
     Config.Features := Config.Features config |}.

(** [runCreate] (lines 70-108). *)
Definition runCreate (interactive : bool) (config : Config.t) (args : list string)
  : IO outcome :=
  if interactive then
    r <- runInteractiveMode config ;;
    generate r.1 r.2
  else
    match args with
    | [] => ret Panic
    | name :: _ =>
        r <- runDirectMode (setAppName config name) ;;
        generate r.1 r.2
    end.

End Program.

End Create.

(** The text [promptString] shows, and what it returns for the input. *)
Definition label (prompt defaultValue : string) : string :=
  if negb (String.eqb defaultValue "")
  then prompt +:+ " [" +:+ defaultValue +:+ "]: "
  else prompt +:+ ": ".

Definition answer (W : Create.World) (defaultValue input : string) : string :=
  if String.eqb input "" then defaultValue else Create.TrimSpace W input.

(** An event of the command itself, not of the generator. *)
Definition own_event (ev : Create.Event) : bool :=
  match ev with
  | Create.EvGenerator _ => false
  | _ => true
  end.

(** An event of the terminal: a printed text or a line read. *)
Definition terminal_event (ev : Create.Event) : bool :=
  match ev with
  | Create.EvPrint _ | Create.EvScanln _ => true
  | _ => false
  end.

(** ** Sample worlds for the [create] command *)

Module SampleCreate.
Import Create.

(** The lines read so far. *)
Definition asked (tr : Trace) : nat :=
  length (omap (fun ev => match ev with EvScanln input => Some input | _ => None end) tr).

(** [filepath.Join] of two clean elements: a first element "." is
    dropped. *)
Definition join (a b : string) : string :=
  if String.eqb a "." then b else Sample.join a b.

(** A world where the user types [answers], one per prompt, the paths
    [existing] exist, the directories [full] hold an entry, every other
    directory is empty and nothing else fails; the generator runs in the
    sample world over [Sample.store]. *)
Definition world (answers existing full : list string) : World :=
  {| unicode_TrimSpace := fun s => s;
     unicode_EqualFold := fun _ _ => false;
     fmt_Scanln := fun tr => nth (asked tr) answers EmptyString;
     os_Stat := fun _ name =>
       if bool_decide (name ∈ existing) then None
       else Some (errorString ("stat " +:+ name +:+ ": no such file or directory"));
     os_IsNotExist := fun err =>
       strings.HasSuffix (Error err) "no such file or directory";
     os_Open := fun _ _ => None;
     file_Readdirnames := fun _ name _ =>
       if bool_decide (name ∈ full) then None else Some (errorString "EOF");
     os_RemoveAll := fun _ _ => None;
     generator_World :=
       {| Generator1.world_unicode := ascii_only;
          Generator1.inflection_Plural := Sample.plural;
          Generator1.filepath_Join := join;
          Generator1.filepath_Dir := Sample.dir;
          Generator1.filepath_Base := Sample.base;
          Generator1.templatesFS_walk := Sample.store;
          Generator1.templatesFS_ReadFile := fun _ => Ok EmptyString;
          Generator1.template_Parse := Sample.parse;
          Generator1.template_Execute := Sample.execute;
          Generator1.os_MkdirAll := fun _ _ _ => None;
          Generator1.os_WriteFile := fun _ _ _ _ => None;
          Generator1.exec_Run := fun _ _ => None |} |}.

End SampleCreate.

(** ** Proof automation *)

(** Membership in an explicit list. *)
Ltac in_list :=
  repeat first [ by apply list_elem_of_here | apply list_elem_of_further ].

(** Runs [PostProcess] symbolically, up to the answers of the world. *)
Ltac run_post :=
  unfold Generator1.PostProcess, Generator1.bind, Generator1.runCommand,
    Generator1.perform, Generator1.Println, Generator1.Print, Generator1.ret;
  cbn -[String.append].

(** Finds which event of an explicit list a member is. *)
Ltac which_event H :=
  repeat (apply elem_of_cons in H as [H|H]);
  [ try discriminate H; try (injection H as -> ?; subst) .. | by apply elem_of_nil in H ].

Ltac fatal_case Hin Hfatal :=
  intros [= <- <-] Hin Hfatal; which_event Hin;
  try (vm_compute in Hfatal; discriminate Hfatal);
  (split; [done|]); (split; [done|]);
  try done; intros Hinit; vm_compute in Hinit; discriminate Hinit.

Ltac best_effort_case Hbest e :=
  intros [= <- <-] Hbest; exfalso;
  specialize (Hbest _ e ltac:(in_list)); vm_compute in Hbest; discriminate Hbest.

(** A call of the callback that stops at a failed step: its result is
    an error, not every event is a success, and nothing was written. *)
Ltac failed_call :=
  simpl; repeat split; try done; try (by repeat constructor);
  intros [_ Hok]; repeat (apply Forall_cons in Hok as [? Hok]); simpl in *;
  repeat match goal with H : exists _, _ |- _ => destruct H end; congruence.

(** Runs [validateConfig] symbolically, up to the answers of the world. *)
Ltac run_validate :=
  unfold Create.validateConfig, Create.isDirEmpty, Create.bind, Create.Stat,
    Create.Open, Create.Readdirnames, Create.Close, Create.RemoveAll,
    Create.Scanln, Create.Print, Create.perform, Create.ret;
  cbn -[String.append Create.EqualFold Create.Join String.eqb].

Ltac validate_step :=
  match goal with
  | |- context [String.eqb (Create.Config.AppName ?c) ?s] =>
      destruct (String.eqb (Create.Config.AppName c) s) eqn:?
  | |- context [String.eqb (Create.Config.ModuleName ?c) ?s] =>
      destruct (String.eqb (Create.Config.ModuleName c) s) eqn:?
  | |- context [String.eqb (Create.Config.Domain ?c) ?s] =>
      destruct (String.eqb (Create.Config.Domain c) s) eqn:?
  | |- context [Create.os_Stat ?W ?tr ?n] => destruct (Create.os_Stat W tr n) eqn:?
  | |- context [Create.os_IsNotExist ?W ?e] => destruct (Create.os_IsNotExist W e) eqn:?
  | |- context [Create.os_Open ?W ?tr ?n] => destruct (Create.os_Open W tr n) eqn:?
  | |- context [Create.file_Readdirnames ?W ?tr ?n ?k] =>
      destruct (Create.file_Readdirnames W tr n k) eqn:?
  | |- context [Create.os_RemoveAll ?W ?tr ?n] =>
      destruct (Create.os_RemoveAll W tr n) eqn:?
  | |- context [Create.EqualFold ?W ?r "y"] =>
      destruct (Create.EqualFold W r "y") eqn:?
  | |- context [Create.EqualFold ?W ?r "yes"] =>
      destruct (Create.EqualFold W r "yes") eqn:?
  end;
  cbn -[String.append Create.EqualFold Create.Join String.eqb].

Ltac validate_cases := run_validate; repeat validate_step.


(** * Proofs *)

Set Warnings "-clear-no-such-hyp".

(** ** Byte strings *)

Section StringFacts.
Implicit Types s t p : string.

Lemma app_nil_string t : EmptyString +:+ t = t.
Proof. reflexivity. Qed.

Lemma app_cons_string c s t : String c s +:+ t = String c (s +:+ t).
Proof. reflexivity. Qed.

Lemma length_app s t :
  String.length (s +:+ t) = (String.length s + String.length t)%nat.
Proof.
  induction s as [|c s IH]; [done|].
  rewrite app_cons_string. simpl. by rewrite IH.
Qed.

Lemma app_empty_r s : s +:+ EmptyString = s.
Proof.
  induction s as [|c s IH]; [done|]. by rewrite app_cons_string, IH.
Qed.

Lemma app_assoc_string s t p : (s +:+ t) +:+ p = s +:+ (t +:+ p).
Proof.
  induction s as [|c s IH]; [done|]. by rewrite !app_cons_string, IH.
Qed.

Lemma app_inv_head_string s t p : s +:+ t = s +:+ p -> t = p.
Proof.
  induction s as [|c s IH]; [done|].
  rewrite !app_cons_string. intros [=]. auto.
Qed.

Lemma slice_to_app s t : slice_to (String.length s) (s +:+ t) = s.
Proof.
  induction s as [|c s IH]; [done|].
  rewrite app_cons_string. simpl. by rewrite IH.
Qed.

Lemma slice_from_app s t : slice_from (String.length s) (s +:+ t) = t.
Proof.
  induction s as [|c s IH]; [done|]. rewrite app_cons_string. simpl. done.
Qed.

Lemma slice_to_from n s : slice_to n s +:+ slice_from n s = s.
Proof.
  revert s; induction n as [|n IH]; intros [|c s]; simpl; try done.
  by rewrite app_cons_string, IH.
Qed.

Lemma slice_to_length n s :
  (n <= String.length s)%nat -> String.length (slice_to n s) = n.
Proof.
  revert s; induction n as [|n IH]; intros [|c s]; simpl; try done; try lia.
  intros Hle. rewrite IH; lia.
Qed.

Lemma string_eqb_true s t : String.eqb s t = true <-> s = t.
Proof. apply String.eqb_eq. Qed.

Lemma string_eqb_false s t : String.eqb s t = false <-> s <> t.
Proof. apply String.eqb_neq. Qed.

(** [HasPrefix] holds exactly of the strings that start with [p]. *)
Lemma HasPrefix_true s p :
  strings.HasPrefix s p = true <-> exists t, s = p +:+ t.
Proof.
  unfold strings.HasPrefix. rewrite andb_true_iff, Nat.leb_le, string_eqb_true.
  split.
  - intros [_ Heq]. exists (slice_from (String.length p) s).
    rewrite <- Heq at 1. by rewrite slice_to_from.
  - intros [t ->]. rewrite length_app, slice_to_app. split; [lia | done].
Qed.

Lemma HasPrefix_app p t : strings.HasPrefix (p +:+ t) p = true.
Proof. apply HasPrefix_true. by exists t. Qed.

(** [HasSuffix] holds exactly of the strings that end with [p]. *)
Lemma HasSuffix_true s p :
  strings.HasSuffix s p = true <-> exists t, s = t +:+ p.
Proof.
  unfold strings.HasSuffix. rewrite andb_true_iff, Nat.leb_le, string_eqb_true.
  split.
  - intros [_ Heq]. exists (slice_to (String.length s - String.length p) s).
    rewrite <- (slice_to_from (String.length s - String.length p) s) at 1.
    by rewrite Heq.
  - intros [t ->]. rewrite length_app.
    replace (String.length t + String.length p - String.length p)%nat
      with (String.length t) by lia.
    rewrite slice_from_app. split; [lia | done].
Qed.

Lemma HasSuffix_app t p : strings.HasSuffix (t +:+ p) p = true.
Proof. apply HasSuffix_true. by exists t. Qed.

Lemma TrimPrefix_app p t : strings.TrimPrefix (p +:+ t) p = t.
Proof.
  unfold strings.TrimPrefix. by rewrite HasPrefix_app, slice_from_app.
Qed.

Lemma TrimSuffix_app t p : strings.TrimSuffix (t +:+ p) p = t.
Proof.
  unfold strings.TrimSuffix. rewrite HasSuffix_app, length_app.
  replace (String.length t + String.length p - String.length p)%nat
    with (String.length t) by lia.
  apply slice_to_app.
Qed.

End StringFacts.

(** ** Name derivation: [pluralize], [titleCase], [HasFeature] *)

Lemma HasSuffix_false word suffix :
  strings.HasSuffix word suffix = false <-> ~ ends_in word suffix.
Proof.
  rewrite <- not_true_iff_false. unfold ends_in.
  by rewrite HasSuffix_true.
Qed.

Lemma pluralize_y stem :
  Generator0.pluralize (stem +:+ "y") = stem +:+ "ies".
Proof.
  unfold Generator0.pluralize. by rewrite HasSuffix_app, TrimSuffix_app.
Qed.

Lemma pluralize_sibilant word :
  ~ ends_in word "y" ->
  ends_in word "s" \/ ends_in word "sh" \/ ends_in word "ch" ->
  Generator0.pluralize word = word +:+ "es".
Proof.
  intros Hy Hs. unfold Generator0.pluralize.
  apply HasSuffix_false in Hy. rewrite Hy.
  destruct Hs as [Hs | [Hs | Hs]]; apply HasSuffix_true in Hs; rewrite Hs;
    by rewrite ?orb_true_r.
Qed.

Lemma pluralize_other word :
  ~ ends_in word "y" -> ~ ends_in word "s" ->
  ~ ends_in word "sh" -> ~ ends_in word "ch" ->
  Generator0.pluralize word = word +:+ "s".
Proof.
  intros Hy Hs Hsh Hch. unfold Generator0.pluralize.
  apply HasSuffix_false in Hy, Hs, Hsh, Hch. by rewrite Hy, Hs, Hsh, Hch.
Qed.

(** C1, as amended.  [pluralize] of part_000 is the stated heuristic on
    every word: a trailing "y" becomes "ies"; otherwise "es" is appended
    to a word ending in "s", "sh" or "ch"; otherwise "s" is appended;
    so "category", "bus", "order" and the empty word give "categories",
    "buses", "orders" and "s".  The [Generate] of part_000 stores
    [pluralize(config.Domain)] in [DomainPlural]; the [Generate] of
    part_001 stores the result of the inflection library's [Plural]
    there, and its lower-casing in [DomainPluralLower]. *)
Theorem pluralize_heuristic :
  (forall stem, Generator0.pluralize (stem +:+ "y") = stem +:+ "ies")
  /\ (forall word, ~ ends_in word "y" ->
        ends_in word "s" \/ ends_in word "sh" \/ ends_in word "ch" ->
        Generator0.pluralize word = word +:+ "es")
  /\ (forall word, ~ ends_in word "y" -> ~ ends_in word "s" ->
        ~ ends_in word "sh" -> ~ ends_in word "ch" ->
        Generator0.pluralize word = word +:+ "s")
  /\ Generator0.pluralize "category" = "categories"
  /\ Generator0.pluralize "bus" = "buses"
  /\ Generator0.pluralize "order" = "orders"
  /\ Generator0.pluralize "" = "s"
  /\ (forall U config,
        Generator0.TemplateData.DomainPlural (Generator0.templateData U config)
        = Generator0.pluralize (Generator0.ProjectConfig.Domain config))
  /\ (forall W config,
        Generator1.TemplateData.DomainPlural (Generator1.templateData W config)
        = Generator1.inflection_Plural W (Generator1.ProjectConfig.Domain config)
        /\ Generator1.TemplateData.DomainPluralLower (Generator1.templateData W config)
           = strings.ToLower (Generator1.world_unicode W)
               (Generator1.inflection_Plural W (Generator1.ProjectConfig.Domain config))).
Proof.
  split; [exact pluralize_y|].
  split; [exact pluralize_sibilant|].
  split; [exact pluralize_other|].
  repeat split.
Qed.

(** The heuristic at "church": no trailing "y", a trailing "ch". *)
Lemma pluralize_heuristic_witness :
  Generator0.pluralize "church" = "church" +:+ "es".
Proof.
  apply (proj1 (proj2 pluralize_heuristic)).
  - apply HasSuffix_false. reflexivity.
  - right; right. by exists "chur".
Defined.

(** C1 as stated fails on the [Generate] it cites (part_001, lines
    76-79): for the domain "person", and a [Plural] that has the
    library's documented irregular plural "people", [DomainPlural] is
    "people" while [pluralize] gives "persons". *)
Lemma pluralize_not_the_Generate1_plural :
  Generator1.TemplateData.DomainPlural
    (Generator1.templateData
       (Sample.world [] Sample.always Sample.always Sample.always)
       (Sample.config "shop" "person" []))
  <> Generator0.pluralize
       (Generator1.ProjectConfig.Domain (Sample.config "shop" "person" [])).
Proof. vm_compute. discriminate. Qed.

Lemma titleCase_cons W c rest :
  Generator1.titleCase W (String c rest)
  = strings.ToUpper (Generator1.world_unicode W) (String c EmptyString)
    +:+ strings.ToLower (Generator1.world_unicode W) rest.
Proof. reflexivity. Qed.

Lemma ToUpper_byte U c :
  strings.is_ascii_byte c = true ->
  strings.ToUpper U (String c EmptyString) = String (strings.upper_byte c) EmptyString.
Proof. intros Hc. unfold strings.ToUpper. simpl. by rewrite Hc. Qed.

Lemma ToLower_ascii U s :
  strings.isASCII s = true ->
  strings.ToLower U s = strings.map_bytes strings.lower_byte s.
Proof. intros Hs. unfold strings.ToLower. by rewrite Hs. Qed.

Lemma titleCase_ascii_first W c rest :
  strings.is_ascii_byte c = true ->
  Generator1.titleCase W (String c rest)
  = String (strings.upper_byte c)
      (strings.ToLower (Generator1.world_unicode W) rest).
Proof. intros Hc. by rewrite titleCase_cons, ToUpper_byte. Qed.

Lemma titleCase_ascii W c rest :
  strings.isASCII (String c rest) = true ->
  Generator1.titleCase W (String c rest)
  = String (strings.upper_byte c) (strings.map_bytes strings.lower_byte rest).
Proof.
  simpl. intros [Hc Hrest]%andb_true_iff.
  by rewrite titleCase_ascii_first, ToLower_ascii.
Qed.

(** C3, as amended.  [titleCase] of part_001 returns the empty string
    unchanged; for every word whose first rune is a single byte (ASCII)
    it upper-cases that rune and lower-cases the remainder, byte by byte
    when the whole word is ASCII.  "product" and "PRODUCT" give
    "Product".  The [Generate] of part_001 stores
    [titleCase(config.Domain)] in [DomainTitle]; the [Generate] of
    part_000 stores [strings.Title(config.Domain)]. *)
Theorem titleCase_first_upper_rest_lower :
  (forall W, Generator1.titleCase W "" = "")
  /\ (forall W c rest, strings.is_ascii_byte c = true ->
        Generator1.titleCase W (String c rest)
        = String (strings.upper_byte c)
            (strings.ToLower (Generator1.world_unicode W) rest))
  /\ (forall W c rest, strings.isASCII (String c rest) = true ->
        Generator1.titleCase W (String c rest)
        = String (strings.upper_byte c)
            (strings.map_bytes strings.lower_byte rest))
  /\ (forall W, Generator1.titleCase W "product" = "Product")
  /\ (forall W, Generator1.titleCase W "PRODUCT" = "Product")
  /\ (forall W config,
        Generator1.TemplateData.DomainTitle (Generator1.templateData W config)
        = Generator1.titleCase W (Generator1.ProjectConfig.Domain config))
  /\ (forall U config,
        Generator0.TemplateData.DomainTitle (Generator0.templateData U config)
        = strings.Title U (Generator0.ProjectConfig.Domain config)).
Proof.
  split; [done|].
  split; [exact titleCase_ascii_first|].
  split; [exact titleCase_ascii|].
  repeat split.
Qed.

(** [titleCase] at the ASCII word "oRDER". *)
Lemma titleCase_first_upper_rest_lower_witness :
  Generator1.titleCase
    (Sample.world [] Sample.always Sample.always Sample.always) "oRDER"
  = "Order".
Proof.
  exact (proj1 (proj2 (proj2 titleCase_first_upper_rest_lower))
           (Sample.world [] Sample.always Sample.always Sample.always)
           "o"%char "RDER" eq_refl).
Defined.

(** C3 as stated fails on the [Generate] it cites (part_000, line 59):
    for the domain "PRODUCT" its [DomainTitle] is [strings.Title] of the
    word, "PRODUCT", where [titleCase] gives "Product". *)
Lemma titleCase_not_the_Generate0_title :
  Generator0.TemplateData.DomainTitle
    (Generator0.templateData ascii_only (Sample.config0 "shop" "PRODUCT" []))
  = "PRODUCT"
  /\ Generator1.titleCase
       (Sample.world [] Sample.always Sample.always Sample.always)
       (Generator0.ProjectConfig.Domain (Sample.config0 "shop" "PRODUCT" []))
     = "Product"
  /\ Generator0.TemplateData.DomainTitle
       (Generator0.templateData ascii_only (Sample.config0 "shop" "PRODUCT" []))
     <> Generator1.titleCase
          (Sample.world [] Sample.always Sample.always Sample.always)
          (Generator0.ProjectConfig.Domain (Sample.config0 "shop" "PRODUCT" [])).
Proof. split; [reflexivity|]. split; [reflexivity|]. vm_compute. discriminate. Qed.

(** The loop of the [HasFeature] closure finds exactly the elements. *)
Lemma hasFeature_elem_of features feature :
  Generator1.hasFeature features feature = true <-> feature ∈ features.
Proof.
  induction features as [|f rest IH]; simpl.
  - split; [done | by intros ?%elem_of_nil].
  - rewrite elem_of_cons. destruct (String.eqb f feature) eqn:Heq.
    + apply String.eqb_eq in Heq. subst. split; [by left | done].
    + apply String.eqb_neq in Heq. rewrite IH.
      split; [by right | intros [-> | Hin]; done].
Qed.

Lemma hasFeature_same_elements features1 features2 feature :
  (forall f, f ∈ features1 <-> f ∈ features2) ->
  Generator1.hasFeature features1 feature = Generator1.hasFeature features2 feature.
Proof.
  intros Hsame. apply eq_true_iff_eq.
  by rewrite !hasFeature_elem_of.
Qed.

(** C7.  [HasFeature] of the data [Generate] builds is true exactly of
    the elements of [config.Features], compared byte for byte (so case
    matters); two configurations whose [Features] have the same elements,
    in any order and any multiplicity, give the same answers; with no
    features every answer is false. *)
Theorem HasFeature_is_membership :
  (forall W config feature,
      Generator1.TemplateData.HasFeature (Generator1.templateData W config) feature = true
      <-> feature ∈ Generator1.ProjectConfig.Features config)
  /\ (forall W config1 config2,
        (forall f, f ∈ Generator1.ProjectConfig.Features config1
                   <-> f ∈ Generator1.ProjectConfig.Features config2) ->
        forall feature,
          Generator1.TemplateData.HasFeature (Generator1.templateData W config1) feature
          = Generator1.TemplateData.HasFeature (Generator1.templateData W config2) feature)
  /\ (forall W config1 config2,
        Generator1.ProjectConfig.Features config1
          ≡ₚ Generator1.ProjectConfig.Features config2 ->
        forall feature,
          Generator1.TemplateData.HasFeature (Generator1.templateData W config1) feature
          = Generator1.TemplateData.HasFeature (Generator1.templateData W config2) feature)
  /\ (forall features f feature,
        Generator1.hasFeature (f :: f :: features) feature
        = Generator1.hasFeature (f :: features) feature)
  /\ (forall W config feature,
        Generator1.ProjectConfig.Features config = [] ->
        Generator1.TemplateData.HasFeature (Generator1.templateData W config) feature
        = false)
  /\ Generator1.hasFeature ["auth"] "Auth" = false
  /\ Generator1.hasFeature ["auth"] "auth" = true.
Proof.
  split; [intros W config feature; apply hasFeature_elem_of|].
  split; [intros W c1 c2 Hsame feature; by apply hasFeature_same_elements|].
  split.
  { intros W c1 c2 Hperm feature. apply hasFeature_same_elements.
    intros f. by rewrite Hperm. }
  split.
  { intros features f feature. apply hasFeature_same_elements.
    intros g. rewrite !elem_of_cons. tauto. }
  split; [|done].
  intros W config feature Hnil. simpl. by rewrite Hnil.
Qed.

(** Reordered features with a duplicate answer alike. *)
Lemma HasFeature_is_membership_witness :
  Generator1.TemplateData.HasFeature
    (Generator1.templateData
       (Sample.world [] Sample.always Sample.always Sample.always)
       (Sample.config "shop" "order" ["auth"; "cache"; "auth"])) "cache"
  = Generator1.TemplateData.HasFeature
      (Generator1.templateData
         (Sample.world [] Sample.always Sample.always Sample.always)
         (Sample.config "shop" "order" ["cache"; "auth"])) "cache".
Proof.
  apply (proj1 (proj2 HasFeature_is_membership)).
  intros f. simpl. rewrite !elem_of_cons, !elem_of_nil. tauto.
Defined.

(** ** Path resolution *)

Lemma replace_scan_absent old new s :
  occurs s old = false -> strings.replace_scan old new O s = s.
Proof.
  induction s as [|c s IH]; [done|].
  cbn [occurs strings.replace_scan].
  intros [Hhere Hlater]%orb_false_iff.
  by rewrite Hhere, IH.
Qed.

(** A string without an occurrence of [old] is returned as it is. *)
Lemma ReplaceAll_absent s old new :
  occurs s old = false -> strings.ReplaceAll s old new = s.
Proof.
  intros Habsent. unfold strings.ReplaceAll.
  destruct (String.eqb old new); [done|].
  destruct old; [done|]. by apply replace_scan_absent.
Qed.

Lemma getOutputPath_tmpl rest data :
  Generator1.getOutputPath ("templates/" +:+ rest +:+ ".tmpl") data
  = Generator1.substitute rest data.
Proof.
  unfold Generator1.getOutputPath.
  by rewrite TrimPrefix_app, HasSuffix_app, TrimSuffix_app.
Qed.

Lemma getOutputPath_plain rest data :
  ~ ends_in rest ".tmpl" ->
  Generator1.getOutputPath ("templates/" +:+ rest) data
  = Generator1.substitute rest data.
Proof.
  intros Hsuffix%HasSuffix_false. unfold Generator1.getOutputPath.
  by rewrite TrimPrefix_app, Hsuffix.
Qed.

(** C2, as amended.  [getOutputPath] strips the prefix "templates/",
    then one trailing ".tmpl" if there is one, then replaces the literal
    tokens [{{.AppName}}], [{{.Domain}}], [{{.domain}}] and
    [{{.domain_plural}}], in this order, by [AppName], [Domain],
    [DomainLower] and [DomainPlural].  So
    [templates/{{.AppName}}/{{.Domain}}.go.tmpl] resolves to
    [shop/order.go] for the application "shop" and the domain "order";
    and a ".tmpl" that a substituted value ends in is kept, since the
    suffix was stripped before. *)
Theorem getOutputPath_strip_then_substitute :
  (forall rest data,
      Generator1.getOutputPath ("templates/" +:+ rest +:+ ".tmpl") data
      = Generator1.substitute rest data)
  /\ (forall rest data, ~ ends_in rest ".tmpl" ->
        Generator1.getOutputPath ("templates/" +:+ rest) data
        = Generator1.substitute rest data)
  /\ (forall path data,
        Generator1.substitute path data
        = strings.ReplaceAll
            (strings.ReplaceAll
               (strings.ReplaceAll
                  (strings.ReplaceAll path "{{.AppName}}"
                     (Generator1.TemplateData.AppName data))
                  "{{.Domain}}" (Generator1.TemplateData.Domain data))
               "{{.domain}}" (Generator1.TemplateData.DomainLower data))
            "{{.domain_plural}}" (Generator1.TemplateData.DomainPlural data))
  /\ (forall data,
        Generator1.TemplateData.AppName data = "shop" ->
        Generator1.TemplateData.Domain data = "order" ->
        Generator1.getOutputPath "templates/{{.AppName}}/{{.Domain}}.go.tmpl" data
        = "shop/order.go")
  /\ (forall data,
        Generator1.TemplateData.Domain data = "order.tmpl" ->
        Generator1.getOutputPath "templates/{{.Domain}}" data = "order.tmpl").
Proof.
  split; [exact getOutputPath_tmpl|].
  split; [exact getOutputPath_plain|].
  split; [done|].
  split.
  - intros data Happ Hdomain.
    change "templates/{{.AppName}}/{{.Domain}}.go.tmpl"
      with ("templates/" +:+ "{{.AppName}}/{{.Domain}}.go" +:+ ".tmpl").
    rewrite getOutputPath_tmpl. unfold Generator1.substitute.
    rewrite Happ, Hdomain.
    change (strings.ReplaceAll
              (strings.ReplaceAll "{{.AppName}}/{{.Domain}}.go" "{{.AppName}}" "shop")
              "{{.Domain}}" "order") with "shop/order.go".
    rewrite (ReplaceAll_absent "shop/order.go" "{{.domain}}") by reflexivity.
    by rewrite ReplaceAll_absent by reflexivity.
  - intros data Hdomain.
    change "templates/{{.Domain}}" with ("templates/" +:+ "{{.Domain}}").
    rewrite getOutputPath_plain.
    + unfold Generator1.substitute. rewrite Hdomain.
      rewrite (ReplaceAll_absent _ "{{.AppName}}") by reflexivity.
      change (strings.ReplaceAll "{{.Domain}}" "{{.Domain}}" "order.tmpl")
        with "order.tmpl".
      rewrite (ReplaceAll_absent "order.tmpl" "{{.domain}}") by reflexivity.
      by rewrite ReplaceAll_absent by reflexivity.
    + by apply HasSuffix_false.
Qed.

(** The path of the specification's scenario, with the tokens the code
    replaces. *)
Lemma getOutputPath_strip_then_substitute_witness :
  Generator1.getOutputPath "templates/{{.AppName}}/{{.Domain}}.go.tmpl"
    (Generator1.templateData
       (Sample.world [] Sample.always Sample.always Sample.always)
       (Sample.config "shop" "order" []))
  = "shop/order.go".
Proof.
  apply (proj1 (proj2 (proj2 (proj2 getOutputPath_strip_then_substitute))));
    reflexivity.
Defined.

(** C2 as stated fails at its own path: [{{AppName}}] and [{{Domain}}],
    without the dot, are not tokens of [getOutputPath] and stay in the
    result. *)
Lemma getOutputPath_dotless_tokens_stay :
  Generator1.getOutputPath "templates/{{AppName}}/{{Domain}}.go.tmpl"
    (Generator1.templateData
       (Sample.world [] Sample.always Sample.always Sample.always)
       (Sample.config "shop" "order" []))
  = "{{AppName}}/{{Domain}}.go"
  /\ Generator1.getOutputPath "templates/{{AppName}}/{{Domain}}.go.tmpl"
       (Generator1.templateData
          (Sample.world [] Sample.always Sample.always Sample.always)
          (Sample.config "shop" "order" []))
     <> "shop/order.go".
Proof. split; [reflexivity|]. vm_compute. discriminate. Qed.

(** ** The files a trace wrote *)

Section Effects.
Import Generator1.

Lemma foldl_written_step disk tr :
  foldl written_step disk tr = foldl store_step disk (ok_writes tr).
Proof.
  revert disk. induction tr as [|ev tr IH]; intros disk; [done|].
  destruct ev as [| | | |name d perm [err|]| |]; simpl; by rewrite IH.
Qed.

Lemma written_ok_writes tr : written tr = foldl store_step ∅ (ok_writes tr).
Proof. apply foldl_written_step. Qed.

Lemma written_app tr1 tr2 :
  written (tr1 ++ tr2) = foldl written_step (written tr1) tr2.
Proof. apply foldl_app. Qed.

Lemma written_app_no_writes tr1 tr2 :
  ok_writes tr2 = [] -> written (tr1 ++ tr2) = written tr1.
Proof.
  intros Hnone. by rewrite written_app, foldl_written_step, Hnone.
Qed.

Lemma dom_foldl_store disk (ws : list (string * string)) :
  dom (foldl store_step disk ws) = dom disk ∪ list_to_set ws.*1.
Proof.
  revert disk. induction ws as [|[name d] ws IH]; intros disk; simpl.
  - set_solver.
  - rewrite IH. unfold store_step. simpl. rewrite dom_insert_L. set_solver.
Qed.

Lemma size_foldl_store disk (ws : list (string * string)) :
  NoDup ws.*1 -> (forall name, name ∈ ws.*1 -> disk !! name = None) ->
  size (foldl store_step disk ws) = (size disk + length ws)%nat.
Proof.
  revert disk. induction ws as [|[name d] ws IH]; intros disk Hnodup Hfresh; simpl.
  - lia.
  - apply NoDup_cons in Hnodup as [Hname Hnodup]. rewrite IH; [|done|].
    + unfold store_step. simpl. rewrite map_size_insert_None; [lia|].
      apply Hfresh. simpl. by left.
    + intros name' Hin. unfold store_step. simpl.
      rewrite lookup_insert_ne; [apply Hfresh; simpl; by right|].
      intros ->. done.
Qed.

Lemma writes_app tr1 tr2 : writes (tr1 ++ tr2) = writes tr1 ++ writes tr2.
Proof. apply omap_app. Qed.

Lemma ok_writes_app tr1 tr2 : ok_writes (tr1 ++ tr2) = ok_writes tr1 ++ ok_writes tr2.
Proof. apply omap_app. Qed.

Lemma reads_app tr1 tr2 : reads (tr1 ++ tr2) = reads tr1 ++ reads tr2.
Proof. apply omap_app. Qed.

Lemma renders_app tr1 tr2 : renders (tr1 ++ tr2) = renders tr1 ++ renders tr2.
Proof. apply omap_app. Qed.

(** ** The walk over the templates *)

Lemma resources_cons c rest : resources (c :: rest) = resources [c] ++ resources rest.
Proof. apply (omap_app _ [c] rest). Qed.

Section Outcomes.
Context (W : World) (data : TemplateData.t) (projectDir : string).

Lemma walkFn_outcome c tr :
  walk_outcome W data projectDir c
    (walkFn W data projectDir c tr).1 (walkFn W data projectDir c tr).2.
Proof.
  unfold walkFn.
  destruct (wc_err c) as [err|] eqn:Herr; [by constructor|].
  destruct (wc_isDir c) eqn:Hdir; [by constructor|].
  unfold bind, ReadFile, Parse, Execute, MkdirAll, WriteFile, perform, ret.
  destruct (templatesFS_ReadFile W (wc_path c)) as [content|err] eqn:Hread;
    [|by constructor].
  destruct (template_Parse W (wc_path c) content) as [err|] eqn:Hparse;
    [by constructor|].
  cbn -[getOutputPath].
  destruct (template_Execute W _ data) as [buf|err] eqn:Hexec; [|by constructor].
  cbn -[getOutputPath].
  destruct (os_MkdirAll W _ _ _) as [err|] eqn:Hmkdir; [by constructor|].
  cbn -[getOutputPath].
  destruct (os_WriteFile W _ _ _ _) as [err|] eqn:Hwrite; by constructor.
Qed.

Lemma WalkDir_run calls tr :
  walk_run W data projectDir calls (WalkDir calls (walkFn W data projectDir) tr).1
    (WalkDir calls (walkFn W data projectDir) tr).2.
Proof.
  revert tr. induction calls as [|c rest IH]; intros tr; [constructor|].
  cbn [WalkDir]. unfold bind.
  pose proof (walkFn_outcome c tr) as Hc.
  destruct (walkFn W data projectDir c tr) as [[err|] ev]; simpl in *.
  - rewrite app_nil_r. by constructor.
  - specialize (IH (tr ++ ev)).
    destruct (WalkDir rest _ (tr ++ ev)) as [res evs]. by constructor.
Qed.

(** A run that fails splits at the failing call. *)
Lemma walk_run_failed calls err evs :
  walk_run W data projectDir calls (Some err) evs ->
  exists pre c post ev1 ev2,
    calls = pre ++ c :: post /\ evs = ev1 ++ ev2
    /\ walk_run W data projectDir pre None ev1
    /\ walk_outcome W data projectDir c (Some err) ev2.
Proof.
  intros Hrun. remember (Some err) as res eqn:Hres.
  induction Hrun as [|c rest err' ev Hc|c rest ev res evs Hc Hrest IH].
  - done.
  - injection Hres as ->. exists [], c, rest, [], ev.
    repeat split; [constructor | done].
  - destruct (IH Hres) as (pre & c' & post & ev1 & ev2 & -> & -> & Hpre & Hfail).
    exists (c :: pre), c', post, (ev ++ ev1), ev2.
    repeat split; [by rewrite app_assoc | by constructor | done].
Qed.

(** What a successful call adds: nothing for a directory, the five
    successful steps for a template. *)
Lemma walk_outcome_ok c ev :
  walk_outcome W data projectDir c None ev ->
  wc_err c = None /\ Forall io_ok ev
  /\ reads ev = resources [c] /\ renders ev = resources [c]
  /\ writes ev = output W data projectDir <$> resources [c]
  /\ ok_writes ev = writes ev.
Proof.
  inversion 1 as [| Herr Hdir | | | | | | content buf Herr Hdir Hread Hparse Hexec];
    subst; unfold resources; simpl; rewrite Herr, Hdir; simpl.
  - by repeat split.
  - repeat split; try done.
    + repeat constructor; simpl; eauto.
    + unfold output, rendering. by rewrite Hread, Hexec.
Qed.

(** What a failing call adds: no successful write, and nothing that is
    not about its own template. *)
Lemma walk_outcome_failed c err ev :
  walk_outcome W data projectDir c (Some err) ev ->
  ok_writes ev = []
  /\ reads ev ⊆ [wc_path c] /\ renders ev ⊆ [wc_path c]
  /\ (writes ev).*1 ⊆ [outputPath W data projectDir (wc_path c)].
Proof.
  inversion 1; subst; simpl; repeat split; set_solver.
Qed.

Lemma walk_outcome_all_ok c res ev :
  walk_outcome W data projectDir c res ev ->
  wc_err c = None -> Forall io_ok ev -> res = None.
Proof.
  inversion 1; subst; try done; intros Hnone Hok; exfalso;
    rewrite ?Forall_cons in Hok; simpl in Hok;
    repeat match goal with
           | H : _ /\ _ |- _ => destruct H
           | H : exists _, _ |- _ => destruct H
           end; congruence.
Qed.

Lemma walk_run_ok calls res evs :
  walk_run W data projectDir calls res evs -> res = None ->
  Forall (fun c => wc_err c = None) calls /\ Forall io_ok evs
  /\ reads evs = resources calls /\ renders evs = resources calls
  /\ writes evs = output W data projectDir <$> resources calls
  /\ ok_writes evs = writes evs.
Proof.
  induction 1 as [|c rest err' ev Hc|c rest ev res evs Hc Hrest IH]; intros Hres.
  - by repeat split.
  - done.
  - subst res.
    destruct (IH eq_refl) as (Herrs & Hoks & Hreads & Hrenders & Hwrites & Hokw).
    apply walk_outcome_ok in Hc as (Herr & Hok & Hread & Hrender & Hwrite & Hokw1).
    unfold reads, renders, writes, ok_writes in *.
    rewrite !omap_app.
    rewrite (resources_cons c rest), fmap_app,
      Hokw, Hokw1, Hreads, Hrenders, Hwrites, Hread, Hrender, Hwrite.
    split; [by constructor|]. split; [by apply Forall_app|]. by repeat split.
Qed.

Lemma walk_outcome_events c res ev :
  walk_outcome W data projectDir c res ev ->
  Forall (fun ev => post_event ev = false) ev.
Proof. inversion 1; by repeat constructor. Qed.

Lemma walk_run_events calls res evs :
  walk_run W data projectDir calls res evs ->
  Forall (fun ev => post_event ev = false) evs.
Proof.
  induction 1 as [|c rest err' ev Hc|c rest ev res evs Hc Hrest IH].
  - constructor.
  - by eapply walk_outcome_events.
  - apply Forall_app. split; [by eapply walk_outcome_events | done].
Qed.

Lemma walk_run_all_ok calls res evs :
  walk_run W data projectDir calls res evs ->
  Forall (fun c => wc_err c = None) calls -> Forall io_ok evs -> res = None.
Proof.
  induction 1 as [|c rest err' ev Hc|c rest ev res evs Hc Hrest IH]; [done| |].
  - intros [Herr _]%Forall_cons Hok. by apply (walk_outcome_all_ok c (Some err') ev).
  - intros [_ Herrs]%Forall_cons [_ Hoks]%Forall_app. by apply IH.
Qed.
End Outcomes.

Lemma walk_outcome_names W data dir c err ev :
  walk_outcome W data dir c (Some err) ev ->
  wc_err c = Some err \/ names err (wc_path c) (outputPath W data dir (wc_path c)).
Proof.
  inversion 1; subst; [by left|right..]; eexists; eauto 6.
Qed.

Lemma commands_template_events evs :
  Forall (fun ev => post_event ev = false) evs -> commands evs = [].
Proof.
  induction 1 as [|ev evs Hev _ IH]; [done|].
  destruct ev; try discriminate Hev; done.
Qed.

Lemma run_not_template_event evs cmd res :
  Forall (fun ev => post_event ev = false) evs -> EvRun cmd res ∉ evs.
Proof.
  intros Hall Hin. rewrite Forall_forall in Hall. by apply Hall in Hin.
Qed.

Lemma printed_template_events evs :
  Forall (fun ev => post_event ev = false) evs -> printed evs = [].
Proof.
  induction 1 as [|ev evs Hev _ IH]; [done|].
  destruct ev; try discriminate Hev; done.
Qed.

Lemma writes_post_events evs :
  Forall (fun ev => post_event ev = true) evs ->
  writes evs = [] /\ ok_writes evs = [] /\ reads evs = [] /\ renders evs = [].
Proof.
  induction 1 as [|ev evs Hev _ IH]; [done|].
  destruct ev; try discriminate Hev; done.
Qed.

(** ** The post-processing *)

Lemma PostProcess_fatal W g dir data tr res evs cmd err :
  PostProcess W g dir data tr = (res, evs) ->
  EvRun cmd (Some err) ∈ evs -> fatal cmd = true ->
  res = Some (Errorf (fatal_step cmd) err)
  /\ last evs = Some (EvRun cmd (Some err))
  /\ (module_init cmd = true ->
      commands evs = [["go"; "mod"; "init"; TemplateData.ModuleName data]]).
Proof.
  run_post.
  destruct (exec_Run W _ _) as [e1|] eqn:H1; [fatal_case Hin Hfatal|].
  destruct (exec_Run W _ _) as [e2|] eqn:H2 in |- *; cbn -[String.append].
  all: destruct (exec_Run W _ _) as [e3|] eqn:H3 in |- *; cbn -[String.append].
  all: try (by fatal_case Hin Hfatal).
  all: destruct (exec_Run W _ _) as [e4|] eqn:H4 in |- *; cbn -[String.append].
  all: try (by fatal_case Hin Hfatal).
  all: destruct (exec_Run W _ _) as [e5|] eqn:H5 in |- *; cbn -[String.append].
  all: destruct (exec_Run W _ _) as [e6|] eqn:H6 in |- *; cbn -[String.append].
  all: intros [= <- <-] Hin Hfatal; which_event Hin;
    vm_compute in Hfatal; discriminate Hfatal.
Qed.

Lemma PostProcess_best_effort W g dir data tr res evs :
  PostProcess W g dir data tr = (res, evs) ->
  (forall cmd err, EvRun cmd (Some err) ∈ evs -> best_effort cmd = true) ->
  res = None
  /\ commands evs
     = [ ["go"; "mod"; "init"; TemplateData.ModuleName data];
         ["sqlc"; "generate"];
         ["go"; "mod"; "tidy"];
         ["go"; "fmt"; "./..."];
         ["goimports"; "-w"; "."];
         ["go"; "build"; "./..."] ]
  /\ (forall cmd err, EvRun cmd (Some err) ∈ evs -> warning cmd err ∈ printed evs).
Proof.
  run_post.
  destruct (exec_Run W _ _) as [e1|] eqn:H1; [best_effort_case Hbest e1|].
  destruct (exec_Run W _ _) as [e2|] eqn:H2 in |- *; cbn -[String.append].
  all: destruct (exec_Run W _ _) as [e3|] eqn:H3 in |- *; cbn -[String.append].
  all: try (by best_effort_case Hbest e3).
  all: destruct (exec_Run W _ _) as [e4|] eqn:H4 in |- *; cbn -[String.append].
  all: try (by best_effort_case Hbest e4).
  all: destruct (exec_Run W _ _) as [e5|] eqn:H5 in |- *; cbn -[String.append].
  all: destruct (exec_Run W _ _) as [e6|] eqn:H6 in |- *; cbn -[String.append].
  all: intros [= <- <-] _; (split; [done|]); (split; [done|]).
  all: intros cmd err Hin; which_event Hin; cbn -[String.append]; in_list.
Qed.

Lemma PostProcess_events W g dir data tr :
  Forall (fun ev => post_event ev = true) (PostProcess W g dir data tr).2.
Proof.
  run_post.
  repeat (destruct (exec_Run W _ _) in |- *; cbn -[String.append]);
    by repeat constructor.
Qed.

(** ** [Generate] *)

Lemma Generate_run W g config :
  generate_run W g config (run (Generate W g config)).1 (run (Generate W g config)).2.
Proof.
  unfold run, Generate, bind, MkdirAll, perform, ret, processTemplates.
  fold (projectDirOf W g config).
  set (dir := projectDirOf W g config). set (data := templateData W config).
  cbn [app].
  destruct (os_MkdirAll W [] dir 493) as [err|]; [constructor|].
  pose proof (WalkDir_run W data dir (templatesFS_walk W) [EvMkdirAll dir 493 None])
    as Hwalk.
  destruct (WalkDir _ _ _) as [[err|] ev1]; simpl in Hwalk.
  - cbn. rewrite app_nil_r. by constructor.
  - cbn [app]. destruct (PostProcess _ _ _ _ _) as [res ev2] eqn:Hpost.
    pose proof (gr_post_processed W g config ev1 res ev2 Hwalk Hpost) as Hrun.
    destruct res; cbn; by rewrite ?app_nil_r.
Qed.

(** C4.  In every world, if a run of [Generate] contains a fatal command
    ([go mod init], [go mod tidy] or [go fmt]) that returned an error,
    then [Generate] returns that error wrapped with the step that failed
    ("post-processing failed: failed to initialize go module: ..." for
    the module initialisation), and the failed command is the last event
    of the run: nothing runs after it.  When the failed step is the
    module initialisation it is the only command of the run, so
    [go mod tidy] is never executed. *)
Theorem Generate_stops_at_fatal_step W g config res evs cmd err :
  run (Generate W g config) = (res, evs) ->
  EvRun cmd (Some err) ∈ evs -> fatal cmd = true ->
  res = Some (Errorf "post-processing failed: " (Errorf (fatal_step cmd) err))
  /\ last evs = Some (EvRun cmd (Some err))
  /\ (module_init cmd = true ->
      fatal_step cmd = "failed to initialize go module: "
      /\ commands evs
         = [["go"; "mod"; "init"; ProjectConfig.ModuleName config]]).
Proof.
  intros Hrun Hin Hfatal. pose proof (Generate_run W g config) as Hcases.
  rewrite Hrun in Hcases. simpl in Hcases.
  inversion Hcases as [err0|err0 ev1 Hwalk|ev1 res2 ev2 Hwalk Hpost]; subst.
  - apply list_elem_of_singleton in Hin. discriminate Hin.
  - apply elem_of_cons in Hin as [Hin|Hin]; [discriminate Hin|].
    by apply (run_not_template_event _ _ _ (walk_run_events _ _ _ _ _ _ Hwalk)) in Hin.
  - apply walk_run_events in Hwalk.
    apply elem_of_cons in Hin as [Hin|Hin]; [discriminate Hin|].
    apply elem_of_app in Hin as [Hin|Hin];
      [by apply (run_not_template_event _ _ _ Hwalk) in Hin|].
    destruct (PostProcess_fatal _ _ _ _ _ _ _ _ _ Hpost Hin Hfatal)
      as (-> & Hlast & Hinit).
    split; [done|]. split.
    + rewrite app_comm_cons, last_app, Hlast. done.
    + intros Hcmd. split; [unfold fatal_step; by rewrite Hcmd|].
      change (EvMkdirAll ?d ?p ?r :: ev1 ++ ev2)
        with ((EvMkdirAll d p r :: ev1) ++ ev2).
      unfold commands in *. rewrite omap_app.
      fold (commands (EvMkdirAll (projectDirOf W g config) 493 None :: ev1)).
      rewrite commands_template_events by (by constructor).
      by rewrite (Hinit Hcmd).
Qed.

(** A world where [go mod init] exits with status 1. *)
Lemma Generate_stops_at_fatal_step_witness :
  let W := Sample.world Sample.store Sample.always Sample.always
             (Sample.failing "go" "init") in
  let r := run (Generate W (New "out") (Sample.config "shop" "order" [])) in
  r.1 = Some (Errorf "post-processing failed: "
                (Errorf "failed to initialize go module: "
                   (errorString "exit status 1")))
  /\ commands r.2 = [["go"; "mod"; "init"; "github.com/user/shop"]].
Proof.
  intros W r.
  destruct (Generate_stops_at_fatal_step W (New "out")
              (Sample.config "shop" "order" []) r.1 r.2
              {| cmd_name := "go"; cmd_args := ["mod"; "init"; "github.com/user/shop"];
                 cmd_dir := "out/shop"; cmd_attached := false |}
              (errorString "exit status 1")) as (Hres & _ & Hinit).
  - apply surjective_pairing.
  - vm_compute. in_list.
  - reflexivity.
  - split; [exact Hres | apply Hinit; reflexivity].
Defined.

(** C5.  In every world, if a run of [Generate] reached the
    post-processing (it ran a command) and every command that returned
    an error is a best-effort one ([sqlc], [goimports] or [go build]),
    then [Generate] returns no error, all six commands ran in their
    order (so [go build] ran after a failed [goimports]), and for each
    failed command its warning was printed. *)
Theorem Generate_tolerates_best_effort_failures W g config res evs :
  run (Generate W g config) = (res, evs) ->
  commands evs <> [] ->
  (forall cmd err, EvRun cmd (Some err) ∈ evs -> best_effort cmd = true) ->
  res = None
  /\ commands evs = pipeline config
  /\ (forall cmd err, EvRun cmd (Some err) ∈ evs -> warning cmd err ∈ printed evs).
Proof.
  intros Hrun Hreached Hbest. pose proof (Generate_run W g config) as Hcases.
  rewrite Hrun in Hcases. simpl in Hcases.
  inversion Hcases as [err0|err0 ev1 Hwalk|ev1 res2 ev2 Hwalk Hpost]; subst.
  - done.
  - exfalso. apply Hreached. apply walk_run_events in Hwalk.
    apply commands_template_events. by constructor.
  - apply walk_run_events in Hwalk.
    assert (Forall (fun ev => post_event ev = false)
              (EvMkdirAll (projectDirOf W g config) 493 None :: ev1)) as Hpre
      by (by constructor).
    rewrite app_comm_cons in Hbest |- *.
    destruct (PostProcess_best_effort _ _ _ _ _ _ _ Hpost) as (-> & Hcmds & Hwarn).
    { intros cmd err Hin. apply (Hbest cmd err), elem_of_app. by right. }
    split; [done|]. unfold commands, printed in *. rewrite !omap_app.
    fold (commands (EvMkdirAll (projectDirOf W g config) 493 None :: ev1)).
    fold (printed (EvMkdirAll (projectDirOf W g config) 493 None :: ev1)).
    rewrite commands_template_events, printed_template_events by done.
    split; [done|]. intros cmd err [Hin|Hin]%elem_of_app.
    + by apply (run_not_template_event _ _ _ Hpre) in Hin.
    + by apply Hwarn.
Qed.

(** A world where [goimports] and [go build] exit with status 1. *)
Lemma Generate_tolerates_best_effort_failures_witness :
  let W := Sample.world Sample.store Sample.always Sample.always
             (Sample.or_else (Sample.failing "goimports" "-w")
                (Sample.failing "go" "build")) in
  let r := run (Generate W (New "out") (Sample.config "shop" "order" [])) in
  r.1 = None
  /\ commands r.2 = pipeline (Sample.config "shop" "order" [])
  /\ ("⚠️  goimports not available or failed: exit status 1" +:+ nl) ∈ printed r.2.
Proof.
  intros W r.
  destruct (Generate_tolerates_best_effort_failures W (New "out")
              (Sample.config "shop" "order" []) r.1 r.2) as (Hres & Hcmds & Hwarn).
  - apply surjective_pairing.
  - vm_compute. discriminate.
  - intros cmd err Hin. vm_compute in Hin. which_event Hin; reflexivity.
  - split; [exact Hres|]. split; [exact Hcmds|].
    apply (Hwarn {| cmd_name := "goimports"; cmd_args := ["-w"; "."];
                    cmd_dir := "out/shop"; cmd_attached := false |}
             (errorString "exit status 1")).
    vm_compute. in_list.
Defined.

(** C8, as amended.  In every world, if every read, parse, render,
    directory creation and write of a run of [Generate] succeeds (and the
    walk itself reports no error), then the run performs exactly one
    write per non-directory resource, in store order: the N writes go to
    [filepath.Join(projectDir, getOutputPath(path, data))] with the
    rendering of the template, and all succeed.  The files written are
    those N paths; they are N distinct files when the N output paths are
    pairwise distinct. *)
Theorem Generate_writes_each_resource W g config res evs :
  run (Generate W g config) = (res, evs) ->
  Forall io_ok evs ->
  Forall (fun c => wc_err c = None) (templatesFS_walk W) ->
  let out := output W (templateData W config) (projectDirOf W g config) in
  let N := length (resources (templatesFS_walk W)) in
  writes evs = out <$> resources (templatesFS_walk W)
  /\ ok_writes evs = writes evs
  /\ length (writes evs) = N
  /\ reads evs = resources (templatesFS_walk W)
  /\ renders evs = resources (templatesFS_walk W)
  /\ dom (written evs) = list_to_set (out <$> resources (templatesFS_walk W)).*1
  /\ (NoDup (out <$> resources (templatesFS_walk W)).*1 -> size (written evs) = N).
Proof.
  intros Hrun Hok Hwalk_ok out N. pose proof (Generate_run W g config) as Hcases.
  rewrite Hrun in Hcases. simpl in Hcases.
  inversion Hcases as [err0|err0 ev1 Hwalk|ev1 res2 ev2 Hwalk Hpost]; subst.
  - apply Forall_cons in Hok as [Hmk _]. discriminate Hmk.
  - apply Forall_cons in Hok as [_ Hok].
    by pose proof (walk_run_all_ok _ _ _ _ _ _ Hwalk Hwalk_ok Hok).
  - pose proof (PostProcess_events W g (projectDirOf W g config) (templateData W config)
                  (EvMkdirAll (projectDirOf W g config) 493 None :: ev1)) as Hpost_ev.
    rewrite Hpost in Hpost_ev. simpl in Hpost_ev.
    apply writes_post_events in Hpost_ev as (Hw2 & Hokw2 & Hr2 & Hx2).
    destruct (walk_run_ok _ _ _ _ _ _ Hwalk eq_refl)
      as (_ & _ & Hreads & Hrenders & Hwrites & Hokw).
    set (mk := EvMkdirAll (projectDirOf W g config) 493 None).
    change (mk :: ev1 ++ ev2) with ([mk] ++ ev1 ++ ev2).
    assert (writes ([mk] ++ ev1 ++ ev2) = out <$> resources (templatesFS_walk W)) as Hw.
    { by rewrite !writes_app, Hw2, app_nil_r, Hwrites. }
    assert (ok_writes ([mk] ++ ev1 ++ ev2) = out <$> resources (templatesFS_walk W))
      as Hokw'.
    { by rewrite !ok_writes_app, Hokw2, app_nil_r, Hokw, Hwrites. }
    split; [done|]. split; [by rewrite Hw, Hokw'|].
    split; [by rewrite Hw, length_fmap|].
    split; [by rewrite !reads_app, Hr2, app_nil_r, Hreads|].
    split; [by rewrite !renders_app, Hx2, app_nil_r, Hrenders|].
    rewrite written_ok_writes, Hokw'. split.
    + by rewrite dom_foldl_store, dom_empty_L, union_empty_l_L.
    + intros Hnodup. rewrite size_foldl_store; [|done|done].
      rewrite map_size_empty, length_fmap. done.
Qed.

(** A store of three templates: three writes, three files. *)
Lemma Generate_writes_each_resource_witness :
  let W := Sample.world Sample.store Sample.always Sample.always Sample.always in
  let r := run (Generate W (New "out") (Sample.config "shop" "order" [])) in
  (writes r.2).*1
  = ["out/shop/Makefile"; "out/shop/internal/order.go"; "out/shop/main.go"]
  /\ size (written r.2) = 3%nat.
Proof.
  intros W r.
  destruct (Generate_writes_each_resource W (New "out")
              (Sample.config "shop" "order" []) r.1 r.2)
    as (Hwrites & _ & _ & _ & _ & _ & Hsize).
  - apply surjective_pairing.
  - vm_compute. repeat (constructor; [simpl; eauto|]). constructor.
  - repeat constructor.
  - split; [by rewrite Hwrites | apply Hsize].
    apply (bool_decide_unpack _). vm_compute. exact I.
Defined.

(** C8 as stated fails for a store with the templates [templates/a] and
    [templates/a.tmpl]: every step succeeds, the store has two
    resources, and one file is written, twice. *)
Lemma colliding_templates_one_file :
  let W := Sample.world Sample.colliding Sample.always Sample.always Sample.always in
  let r := run (Generate W (New "out") (Sample.config "shop" "order" [])) in
  r.1 = None
  /\ Forall io_ok r.2
  /\ length (resources (templatesFS_walk W)) = 2%nat
  /\ (writes r.2).*1 = ["out/shop/a"; "out/shop/a"]
  /\ size (written r.2) = 1%nat.
Proof.
  intros W r. split; [reflexivity|]. split.
  - vm_compute. repeat (constructor; [simpl; eauto|]). constructor.
  - split; [reflexivity|]. split; [reflexivity|]. vm_compute. reflexivity.
Qed.

(** C6.  In every world, when the project directory was created and
    [processTemplates] returns an error, [Generate] returns that very
    error and its run ends there.  The store splits into the calls
    before the failing one, which all succeeded in store order (their
    templates were read, rendered and written, in this order), the
    failing call, and the calls after it, of which the run holds no
    event: what the failing call added is about its own template only
    and holds no successful write.  The error is the walk's own error
    for that call, or wraps the error of the failing step with the
    template path (read, parse, execute) or the output path (directory,
    write).  The files written are those of the calls before: nothing
    is removed. *)
Theorem processTemplates_fails_fast W g config err ev1 :
  let data := templateData W config in
  let dir := projectDirOf W g config in
  let mk := EvMkdirAll dir 493 None in
  os_MkdirAll W [] dir 493 = None ->
  processTemplates W data dir [mk] = (Some err, ev1) ->
  run (Generate W g config) = (Some err, mk :: ev1)
  /\ exists pre c post evs_pre evs_c,
       templatesFS_walk W = pre ++ c :: post
       /\ ev1 = evs_pre ++ evs_c
       /\ walk_run W data dir pre None evs_pre
       /\ walk_outcome W data dir c (Some err) evs_c
       /\ reads evs_pre = resources pre
       /\ renders evs_pre = resources pre
       /\ writes evs_pre = output W data dir <$> resources pre
       /\ reads evs_c ⊆ [wc_path c]
       /\ renders evs_c ⊆ [wc_path c]
       /\ (writes evs_c).*1 ⊆ [outputPath W data dir (wc_path c)]
       /\ (wc_err c = Some err
           \/ names err (wc_path c) (outputPath W data dir (wc_path c)))
       /\ written (mk :: ev1) = written evs_pre.
Proof.
  intros data dir mk Hmk Hpt. split.
  - unfold run, Generate, bind, MkdirAll, perform, ret.
    fold data. fold (projectDirOf W g config). fold dir.
    rewrite Hmk. cbn [app]. fold mk. rewrite Hpt. by rewrite app_nil_r.
  - pose proof (WalkDir_run W data dir (templatesFS_walk W) [mk]) as Hwalk.
    unfold processTemplates in Hpt. rewrite Hpt in Hwalk. simpl in Hwalk.
    apply walk_run_failed in Hwalk
      as (pre & c & post & evs_pre & evs_c & Hsplit & -> & Hpre & Hc).
    exists pre, c, post, evs_pre, evs_c.
    destruct (walk_run_ok _ _ _ _ _ _ Hpre eq_refl)
      as (_ & _ & Hreads & Hrenders & Hwrites & _).
    destruct (walk_outcome_failed _ _ _ _ _ _ Hc) as (Hnone & Hr & Hx & Hw).
    repeat (split; [done|]). split; [by eapply walk_outcome_names|].
    change (mk :: evs_pre ++ evs_c) with ([mk] ++ evs_pre ++ evs_c).
    rewrite app_assoc, written_app_no_writes by done.
    rewrite !written_ok_writes. by rewrite ok_writes_app.
Qed.

(** A world that denies the write of the second template. *)
Lemma processTemplates_fails_fast_witness :
  let W := Sample.world Sample.store Sample.always
             (Sample.denied "out/shop/internal/order.go") Sample.always in
  let r := run (Generate W (New "out") (Sample.config "shop" "order" [])) in
  r.1 = Some (Errorf "failed to write file out/shop/internal/order.go: "
                (errorString "permission denied"))
  /\ reads r.2 = ["templates/Makefile"; "templates/internal/{{.domain}}.go.tmpl"].
Proof.
  intros W r.
  pose proof (processTemplates_fails_fast W (New "out")
                (Sample.config "shop" "order" [])
                (Errorf "failed to write file out/shop/internal/order.go: "
                   (errorString "permission denied"))
                (processTemplates W (templateData W (Sample.config "shop" "order" []))
                   "out/shop" [EvMkdirAll "out/shop" 493 None]).2
                eq_refl eq_refl) as [Hrun _].
  subst r. rewrite Hrun. split; reflexivity.
Defined.

End Effects.

(** ** Path resolution: leniency and order *)

Lemma substitute_absent path data :
  (forall token, token ∈ tokens -> occurs path token = false) ->
  Generator1.substitute path data = path.
Proof.
  intros Habsent. unfold Generator1.substitute.
  rewrite (ReplaceAll_absent path "{{.AppName}}") by (apply Habsent; in_list).
  rewrite (ReplaceAll_absent path "{{.Domain}}") by (apply Habsent; in_list).
  rewrite (ReplaceAll_absent path "{{.domain}}") by (apply Habsent; in_list).
  apply ReplaceAll_absent, Habsent. in_list.
Qed.

Section Scan.
Implicit Types s t x y d : string.

Lemma HasPrefix_nil s : strings.HasPrefix s EmptyString = true.
Proof. apply HasPrefix_true. by exists s. Qed.

Lemma HasPrefix_empty c t : strings.HasPrefix EmptyString (String c t) = false.
Proof. reflexivity. Qed.

Lemma HasPrefix_cons c s c' t :
  strings.HasPrefix (String c s) (String c' t)
  = Ascii.eqb c c' && strings.HasPrefix s t.
Proof.
  unfold strings.HasPrefix. simpl.
  destruct (Ascii.eqb c c'), (String.length t <=? String.length s)%nat; done.
Qed.

Lemma HasPrefix_app_l x y t :
  strings.HasPrefix x t = true -> strings.HasPrefix (x +:+ y) t = true.
Proof.
  intros [r ->]%HasPrefix_true. rewrite app_assoc_string. apply HasPrefix_app.
Qed.

(** Two prefixes of one string: one is a prefix of the other. *)
Lemma prefixes_comparable y t d :
  strings.HasPrefix y t = true -> strings.HasPrefix y d = true ->
  strings.HasPrefix t d || strings.HasPrefix d t = true.
Proof.
  revert t d. induction y as [|c y IH]; intros t d;
    (destruct d as [|cd d]; [intros _ _; by rewrite HasPrefix_nil|]);
    (destruct t as [|ct t]; [intros _ _; by rewrite HasPrefix_nil, orb_true_r|]);
    [done|].
  rewrite !HasPrefix_cons.
  intros [Hct Ht]%andb_true_iff [Hcd Hd]%andb_true_iff.
  apply Ascii.eqb_eq in Hct, Hcd. subst ct cd. rewrite Ascii.eqb_refl. simpl.
  by apply IH.
Qed.

Lemma clear_of_prefix d t y x :
  clear_of d t = true -> strings.HasPrefix y d = true ->
  strings.HasPrefix (x +:+ y) t = true -> strings.HasPrefix x t = true.
Proof.
  intros Hclear Hd. revert t Hclear. induction x as [|c x IH]; intros [|ct t].
  - done.
  - simpl. intros [Hhere _]%andb_true_iff Ht. rewrite app_nil_string in Ht.
    rewrite (prefixes_comparable y (String ct t) d) in Hhere by done. done.
  - intros _ _. apply HasPrefix_nil.
  - cbn [clear_of]. intros [_ Hclear]%andb_true_iff.
    rewrite app_cons_string, !HasPrefix_cons.
    intros [-> Ht]%andb_true_iff. simpl. by apply IH.
Qed.

(** A match in [x ++ y] that starts in [x] lies in [x], when [y] begins
    with [d] and the token is clear of [d] after its first byte. *)
Lemma HasPrefix_before d t y x :
  clear_of d (slice_from 1 t) = true -> strings.HasPrefix y d = true -> x <> EmptyString ->
  strings.HasPrefix (x +:+ y) t = strings.HasPrefix x t.
Proof.
  intros Hclear Hd Hx. destruct x as [|c x]; [done|].
  destruct t as [|ct t]; [by rewrite !HasPrefix_nil|].
  rewrite app_cons_string, !HasPrefix_cons.
  destruct (Ascii.eqb c ct); [simpl|done].
  destruct (strings.HasPrefix (x +:+ y) t) eqn:Hxy.
  - symmetry. by apply (clear_of_prefix d t y x).
  - destruct (strings.HasPrefix x t) eqn:Hxt; [|done].
    by rewrite (HasPrefix_app_l x y t) in Hxy.
Qed.

Lemma replace_scan_app t new y :
  (forall x, x <> EmptyString ->
     strings.HasPrefix (x +:+ y) t = strings.HasPrefix x t) ->
  forall x k, (k <= String.length x)%nat ->
    strings.replace_scan t new k (x +:+ y)
    = strings.replace_scan t new k x +:+ strings.replace_scan t new O y.
Proof.
  intros Hbefore x. induction x as [|c x IH]; intros k Hk.
  - simpl in Hk. by replace k with O by lia.
  - rewrite app_cons_string. cbn [strings.replace_scan]. simpl in Hk.
    destruct k as [|k]; [|apply IH; lia].
    rewrite <- app_cons_string, Hbefore by done.
    destruct (strings.HasPrefix (String c x) t) eqn:Hhere.
    + rewrite IH, app_assoc_string; [done|].
      apply HasPrefix_true in Hhere as [r Hr].
      apply (f_equal String.length) in Hr. rewrite length_app in Hr. simpl in Hr. lia.
    + by rewrite IH, app_cons_string by lia.
Qed.

Lemma replace_scan_copy t new u y :
  (forall u0 u', u = u0 +:+ u' -> u' <> EmptyString ->
     strings.HasPrefix (u' +:+ y) t = false) ->
  strings.replace_scan t new O (u +:+ y) = u +:+ strings.replace_scan t new O y.
Proof.
  induction u as [|c u IH]; intros Hnone; [done|].
  rewrite app_cons_string. cbn [strings.replace_scan].
  rewrite <- app_cons_string, (Hnone EmptyString (String c u)) by done.
  rewrite IH, app_cons_string; [done|].
  intros u0 u' -> Hu'. by apply (Hnone (String c u0)).
Qed.

Lemma HasPrefix_app_cases x y t :
  strings.HasPrefix (x +:+ y) t = true ->
  strings.HasPrefix x t = true \/ exists t2, t2 <> EmptyString /\ t = x +:+ t2.
Proof.
  revert t. induction x as [|c x IH]; intros [|ct t].
  - by left.
  - right. by exists (String ct t).
  - left. apply HasPrefix_nil.
  - rewrite app_cons_string, !HasPrefix_cons.
    intros [Hc [Ht | (t2 & Ht2 & ->)]%IH]%andb_true_iff.
    + left. by rewrite Hc, Ht.
    + right. apply Ascii.eqb_eq in Hc as ->. by exists t2.
Qed.

Lemma occurs_here s t : strings.HasPrefix s t = true -> occurs s t = true.
Proof. intros Hs. destruct s; simpl; by rewrite Hs. Qed.

Lemma occurs_app_r u0 u' t : occurs u' t = true -> occurs (u0 +:+ u') t = true.
Proof.
  intros Hu'. induction u0 as [|c u0 IH]; [done|].
  rewrite app_cons_string. cbn [occurs]. by rewrite IH, orb_true_r.
Qed.

(** A non-empty suffix of a string that ends in "}}" is "}" or ends in
    "}}". *)
Lemma suffix_of_closed u0 u' v :
  u0 +:+ u' = v +:+ "}}" -> u' <> EmptyString ->
  u' = "}" \/ exists w, u' = w +:+ "}}".
Proof.
  revert v. induction u0 as [|c u0 IH]; intros v Heq Hu'.
  - right. by exists v.
  - destruct v as [|cv v].
    + rewrite app_cons_string in Heq. injection Heq as _ Heq.
      destruct u0 as [|c2 u0]; [by left|].
      rewrite app_cons_string in Heq. injection Heq as _ Heq.
      destruct u0; [done|discriminate Heq].
    + rewrite !app_cons_string in Heq. injection Heq as _ Heq. by apply (IH v).
Qed.

Lemma early_app d w t2 : t2 <> EmptyString -> early d (w +:+ d +:+ t2) = true.
Proof.
  intros Ht2. induction w as [|c w IH].
  - rewrite app_nil_string.
    destruct (d +:+ t2) as [|c r] eqn:Hdt.
    + destruct d, t2; done.
    + cbn [early]. rewrite <- Hdt, HasPrefix_app.
      destruct (String.eqb (d +:+ t2) d) eqn:Heq; [|done].
      apply String.eqb_eq, (f_equal String.length) in Heq.
      rewrite length_app in Heq. destruct t2; [done|simpl in Heq; lia].
  - rewrite app_cons_string. cbn [early]. by rewrite IH, orb_true_r.
Qed.

Lemma no_match_inside t u y :
  token_ok t = true -> strings.HasSuffix u "}}" = true -> occurs u t = false ->
  forall u0 u', u = u0 +:+ u' -> u' <> EmptyString ->
    strings.HasPrefix (u' +:+ y) t = false.
Proof.
  intros [[_ Hfirst%negb_true_iff]%andb_true_iff Hearly%negb_true_iff]%andb_true_iff
    [v Hv]%HasSuffix_true Hnone u0 u' Hu Hu'.
  apply not_true_is_false. intros [Hin | (t2 & Ht2 & ->)]%HasPrefix_app_cases.
  - rewrite Hu, (occurs_app_r u0 u' t) in Hnone; [done | by apply occurs_here].
  - destruct (suffix_of_closed u0 u' v) as [Hone | [w Hw]];
      [by rewrite <- Hu | done | subst u' | subst u'].
    + by rewrite HasPrefix_app in Hfirst.
    + by rewrite app_assoc_string, early_app in Hearly.
Qed.

(** A replacement passes over an unknown token: what is before and what
    is after are replaced as if they stood alone. *)
Lemma ReplaceAll_around t new a u b :
  token_ok t = true ->
  strings.HasPrefix u "{{" = true -> strings.HasSuffix u "}}" = true ->
  occurs u t = false ->
  strings.ReplaceAll (a +:+ u +:+ b) t new
  = strings.ReplaceAll a t new +:+ u +:+ strings.ReplaceAll b t new.
Proof.
  intros Hok Hopen Hclose Hnone. unfold strings.ReplaceAll.
  destruct (String.eqb t new); [done|]. destruct t as [|c t]; [done|].
  rewrite replace_scan_app; [|intros x Hx|lia].
  - by rewrite (replace_scan_copy _ _ u b) by by apply no_match_inside.
  - apply (HasPrefix_before "{{"); [|by apply HasPrefix_app_l|done].
    by apply andb_true_iff in Hok as [[Hleft _]%andb_true_iff _].
Qed.
End Scan.


Lemma substitute_around a u b data :
  unknown_token u ->
  Generator1.substitute (a +:+ u +:+ b) data
  = Generator1.substitute a data +:+ u +:+ Generator1.substitute b data.
Proof.
  intros (Hopen & Hclose & Hnone). unfold Generator1.substitute.
  rewrite !ReplaceAll_around; try done; apply Hnone; in_list.
Qed.


Lemma replace_scan_skip_all old new k s :
  (String.length s <= k)%nat -> strings.replace_scan old new k s = EmptyString.
Proof.
  revert k. induction s as [|c s IH]; intros k Hk; [done|].
  destruct k as [|k]; simpl in *; [lia|]. apply IH. lia.
Qed.

Lemma HasPrefix_refl s : strings.HasPrefix s s = true.
Proof. apply HasPrefix_true. exists EmptyString. by rewrite app_empty_r. Qed.

(** Replacing a token in the string that is just that token gives the
    new value. *)
Lemma ReplaceAll_whole c token new :
  strings.ReplaceAll (String c token) (String c token) new = new.
Proof.
  unfold strings.ReplaceAll.
  destruct (String.eqb (String c token) new) eqn:Heq.
  - by apply String.eqb_eq in Heq.
  - cbn [strings.replace_scan].
    rewrite HasPrefix_refl, replace_scan_skip_all, app_empty_r; [done|].
    simpl. lia.
Qed.

(** ** Text that no token can overlap *)

Lemma clear_of_suffix d u0 u' : clear_of d (u0 +:+ u') = true -> clear_of d u' = true.
Proof.
  induction u0 as [|c u0 IH]; [done|].
  rewrite app_cons_string. cbn [clear_of]. intros [_ Hrest]%andb_true_iff. by apply IH.
Qed.

Lemma clear_of_split d t :
  (forall u0 u', t = u0 +:+ u' -> u' <> EmptyString ->
     strings.HasPrefix u' d = false /\ strings.HasPrefix d u' = false) ->
  clear_of d t = true.
Proof.
  induction t as [|c t IH]; intros Hall; [done|]. cbn [clear_of].
  destruct (Hall EmptyString (String c t)) as [-> ->]; [done..|]. simpl.
  apply IH. intros u0 u' -> Hu'. by apply (Hall (String c u0)).
Qed.

(** No match begins inside a text that is clear of the token, whatever
    follows the text. *)
Lemma clear_of_no_match t m y :
  clear_of t m = true ->
  forall u0 u', m = u0 +:+ u' -> u' <> EmptyString ->
    strings.HasPrefix (u' +:+ y) t = false.
Proof.
  intros Hclear u0 u' -> Hu'. apply clear_of_suffix in Hclear.
  destruct u' as [|c u']; [done|]. cbn [clear_of] in Hclear.
  apply andb_true_iff in Hclear as [Hhere%negb_true_iff _].
  apply orb_false_iff in Hhere as [Hlong Hshort].
  apply not_true_is_false. intros [Hin | (t2 & _ & ->)]%HasPrefix_app_cases.
  - by rewrite Hin in Hlong.
  - by rewrite HasPrefix_app in Hshort.
Qed.

(** A replacement passes over a text that the token cannot overlap: what
    is before and what is after are replaced as if they stood alone. *)
Lemma ReplaceAll_over t new a m b :
  clear_of t m = true -> clear_of m (slice_from 1 t) = true ->
  strings.ReplaceAll (a +:+ m +:+ b) t new
  = strings.ReplaceAll a t new +:+ m +:+ strings.ReplaceAll b t new.
Proof.
  intros Hinside Hbefore. unfold strings.ReplaceAll.
  destruct (String.eqb t new); [done|]. destruct t as [|c t]; [done|].
  rewrite replace_scan_app; [|intros x Hx|lia].
  - by rewrite (replace_scan_copy _ _ m b) by by apply clear_of_no_match.
  - apply (HasPrefix_before m); [done | apply HasPrefix_app | done].
Qed.

Lemma inert_token m token :
  inert m = true -> token ∈ tokens ->
  clear_of token m = true /\ clear_of m (slice_from 1 token) = true.
Proof.
  unfold inert. rewrite forallb_forall. intros Hall Hin.
  apply andb_true_iff, Hall. by apply list_elem_of_In.
Qed.

Lemma substitute_over a m b data :
  inert m = true ->
  Generator1.substitute (a +:+ m +:+ b) data
  = Generator1.substitute a data +:+ m +:+ Generator1.substitute b data.
Proof.
  intros Hm. unfold Generator1.substitute.
  rewrite !ReplaceAll_over; try done; apply (inert_token m); try done; in_list.
Qed.

Lemma getOutputPath_stripped templatePath data :
  Generator1.getOutputPath templatePath data
  = Generator1.substitute (stripped templatePath) data.
Proof. reflexivity. Qed.

Lemma stripped_tmpl rest : stripped ("templates/" +:+ rest +:+ ".tmpl") = rest.
Proof. unfold stripped. by rewrite TrimPrefix_app, HasSuffix_app, TrimSuffix_app. Qed.

Lemma stripped_plain rest :
  ~ ends_in rest ".tmpl" -> stripped ("templates/" +:+ rest) = rest.
Proof.
  intros Hsuffix%HasSuffix_false. unfold stripped. by rewrite TrimPrefix_app, Hsuffix.
Qed.

(** A token cannot begin inside an unknown token. *)
Lemma unknown_token_inside t u :
  token_ok t = true -> strings.HasSuffix u "}}" = true -> occurs u t = false ->
  clear_of t u = true.
Proof.
  intros Hok Hclose Hnone. apply clear_of_split. intros u0 u' Hu Hu'. split.
  - rewrite <- (app_empty_r u').
    by apply (no_match_inside t u EmptyString Hok Hclose Hnone u0).
  - apply not_true_is_false. intros [r Hr]%HasPrefix_true.
    assert (strings.HasPrefix (u' +:+ r) t = false) as Hno
      by by apply (no_match_inside t u r Hok Hclose Hnone u0).
    rewrite <- Hr in Hno. rewrite <- (app_empty_r t), HasPrefix_app in Hno at 1. done.
Qed.

(** No token begun before a text that opens with "{{" runs into it. *)
Lemma opened_clear_of u token :
  strings.HasPrefix u "{{" = true -> token ∈ tokens ->
  clear_of u (slice_from 1 token) = true.
Proof.
  intros [w ->]%HasPrefix_true Htoken.
  rewrite !app_cons_string, app_nil_string.
  unfold tokens in Htoken. which_event Htoken; subst token;
    cbv [slice_from]; cbn [clear_of]; rewrite !HasPrefix_cons; reflexivity.
Qed.

Lemma unknown_token_inert u : unknown_token u -> inert u = true.
Proof.
  intros (Hopen & Hclose & Hnone). unfold inert. apply forallb_forall.
  intros token Htoken%list_elem_of_In. apply andb_true_iff. split.
  - apply unknown_token_inside; [|done|by apply Hnone].
    unfold tokens in Htoken. which_event Htoken; subst token; reflexivity.
  - by apply opened_clear_of.
Qed.

(** The token of the application name resolves to the application name
    when the name holds no token. *)
Lemma substitute_token data :
  (forall t, t ∈ tokens -> occurs (Generator1.TemplateData.AppName data) t = false) ->
  Generator1.substitute "{{.AppName}}" data = Generator1.TemplateData.AppName data.
Proof.
  intros Habsent. unfold Generator1.substitute.
  rewrite ReplaceAll_whole.
  rewrite (ReplaceAll_absent _ "{{.Domain}}") by (apply Habsent; in_list).
  rewrite (ReplaceAll_absent _ "{{.domain}}") by (apply Habsent; in_list).
  apply ReplaceAll_absent, Habsent. in_list.
Qed.

(** C9, as amended.  Path resolution does not fail: [getOutputPath] has
    no error result, every error of the callback of the walk is the one
    it was handed or wraps a failure to read, parse, execute, create a
    directory or write, and once a template is rendered the directory of
    the resolved path is created next.  Text is left verbatim where no
    token can overlap it: a path whose stripped form holds no token is
    returned in its stripped form; and a text [m] that is inert (no
    token can begin inside it and none begun before it can run into it)
    is kept wherever it stands in any template path, for every data,
    with what is before it and what is after it resolved as if they
    stood alone.  Every unknown token, delimited by "{{" and "}}" and
    holding none of the four, is inert; so are the path separator, the
    dotless [{{AppName}}] and the malformed [{{.Domain.go], which
    therefore stays beside a known token.  The unterminated texts
    [{{.Domain] and [{{.] and the closing "}}" are not inert: a value
    put in beside them can complete them to a token, and then they are
    replaced. *)
Theorem getOutputPath_keeps_inert_text :
  (forall W data dir c tr err,
      (Generator1.walkFn W data dir c tr).1 = Some err ->
      Generator1.wc_err c = Some err
      \/ names err (Generator1.wc_path c) (outputPath W data dir (Generator1.wc_path c)))
  /\ (forall W data dir c tr content buf,
        Generator1.wc_err c = None -> Generator1.wc_isDir c = false ->
        Generator1.templatesFS_ReadFile W (Generator1.wc_path c) = Ok content ->
        Generator1.template_Parse W (Generator1.wc_path c) content = None ->
        Generator1.template_Execute W
          {| Generator1.tmpl_name := Generator1.wc_path c;
             Generator1.tmpl_text := content |} data = Ok buf ->
        exists res,
          (Generator1.walkFn W data dir c tr).2 !! 3%nat
          = Some (Generator1.EvMkdirAll
                    (Generator1.filepath_Dir W
                       (Generator1.filepath_Join W dir
                          (Generator1.getOutputPath (Generator1.wc_path c) data)))
                    493 res))
  /\ (forall templatePath data,
        (forall token, token ∈ tokens -> occurs (stripped templatePath) token = false) ->
        Generator1.getOutputPath templatePath data = stripped templatePath)
  /\ (forall templatePath a m b data,
        inert m = true -> stripped templatePath = a +:+ m +:+ b ->
        Generator1.getOutputPath templatePath data
        = Generator1.substitute a data +:+ m +:+ Generator1.substitute b data)
  /\ (forall a m b data, inert m = true ->
        Generator1.getOutputPath ("templates/" +:+ (a +:+ m +:+ b) +:+ ".tmpl") data
        = Generator1.substitute a data +:+ m +:+ Generator1.substitute b data)
  /\ (forall a m b data, inert m = true -> ~ ends_in (a +:+ m +:+ b) ".tmpl" ->
        Generator1.getOutputPath ("templates/" +:+ (a +:+ m +:+ b)) data
        = Generator1.substitute a data +:+ m +:+ Generator1.substitute b data)
  /\ (forall u, unknown_token u -> inert u = true)
  /\ (inert "/" = true /\ inert "{{AppName}}" = true /\ inert "{{.Domain.go" = true
      /\ inert "{{.Unknown}}" = true /\ inert "{{.Domain" = false /\ inert "{{." = false
      /\ inert "}}" = false)
  /\ (forall data,
        (forall token, token ∈ tokens ->
           occurs (Generator1.TemplateData.AppName data) token = false) ->
        Generator1.getOutputPath "templates/{{.AppName}}/{{.Domain.go" data
        = Generator1.TemplateData.AppName data +:+ "/{{.Domain.go")
  /\ (forall data,
        Generator1.TemplateData.AppName data = "shop" ->
        Generator1.TemplateData.Domain data = "order" ->
        Generator1.getOutputPath
          "templates/{{.AppName}}/{{.Unknown}}/{{.Domain}}.go.tmpl" data
        = "shop/{{.Unknown}}/order.go")
  /\ (forall data,
        Generator1.getOutputPath
          "templates/{{.Unknown}}/{{AppName}}/{{.Domain.go.tmpl" data
        = "{{.Unknown}}/{{AppName}}/{{.Domain.go").
Proof.
  split.
  { intros W data dir c tr err Herr.
    apply (walk_outcome_names W data dir c err (Generator1.walkFn W data dir c tr).2).
    rewrite <- Herr. apply walkFn_outcome. }
  split.
  { intros W data dir c tr content buf Hnil Hfile Hread Hparse Hexec.
    pose proof (walkFn_outcome W data dir c tr) as Hout.
    inversion Hout; try congruence; eexists; reflexivity. }
  split.
  { intros templatePath data Habsent.
    rewrite getOutputPath_stripped. by apply substitute_absent. }
  split.
  { intros templatePath a m b data Hm Hpath.
    rewrite getOutputPath_stripped, Hpath. by apply substitute_over. }
  split.
  { intros a m b data Hm. rewrite getOutputPath_tmpl. by apply substitute_over. }
  split.
  { intros a m b data Hm Hsuffix. rewrite getOutputPath_plain by done.
    by apply substitute_over. }
  split; [exact unknown_token_inert|].
  split; [by vm_compute|].
  split.
  { intros data Habsent.
    change "templates/{{.AppName}}/{{.Domain.go"
      with ("templates/" +:+ ("{{.AppName}}" +:+ "/{{.Domain.go" +:+ EmptyString)).
    rewrite getOutputPath_plain.
    - rewrite substitute_over by reflexivity.
      rewrite substitute_token by done.
      rewrite substitute_absent, app_empty_r; [done|].
      intros token Htoken. unfold tokens in Htoken.
      which_event Htoken; subst token; reflexivity.
    - by apply HasSuffix_false. }
  split.
  { intros data Happ Hdomain.
    change "templates/{{.AppName}}/{{.Unknown}}/{{.Domain}}.go.tmpl"
      with ("templates/" +:+ ("{{.AppName}}/" +:+ "{{.Unknown}}" +:+ "/{{.Domain}}.go")
            +:+ ".tmpl").
    rewrite getOutputPath_tmpl, substitute_over by reflexivity.
    unfold Generator1.substitute. rewrite Happ, Hdomain.
    change (strings.ReplaceAll
              (strings.ReplaceAll "{{.AppName}}/" "{{.AppName}}" "shop")
              "{{.Domain}}" "order") with "shop/".
    change (strings.ReplaceAll
              (strings.ReplaceAll "/{{.Domain}}.go" "{{.AppName}}" "shop")
              "{{.Domain}}" "order") with "/order.go".
    rewrite (ReplaceAll_absent "shop/" "{{.domain}}") by reflexivity.
    rewrite (ReplaceAll_absent "/order.go" "{{.domain}}") by reflexivity.
    by rewrite !ReplaceAll_absent by reflexivity. }
  intros data.
  change "templates/{{.Unknown}}/{{AppName}}/{{.Domain.go.tmpl"
    with ("templates/" +:+ "{{.Unknown}}/{{AppName}}/{{.Domain.go" +:+ ".tmpl").
  rewrite getOutputPath_tmpl. apply substitute_absent.
  intros token Htoken. unfold tokens in Htoken.
  which_event Htoken; subst token; reflexivity.
Qed.

(** A path separator and a malformed token beside a known token, in the
    path of a file that is copied under its own name. *)
Lemma getOutputPath_keeps_inert_text_witness :
  Generator1.getOutputPath "templates/{{.AppName}}/{{.Domain.go"
    (Generator1.templateData
       (Sample.world [] Sample.always Sample.always Sample.always)
       (Sample.config "shop" "order" []))
  = "shop" +:+ "/{{.Domain.go" +:+ EmptyString.
Proof.
  exact (proj1 (proj2 (proj2 (proj2 getOutputPath_keeps_inert_text)))
           "templates/{{.AppName}}/{{.Domain.go" "{{.AppName}}" "/{{.Domain.go" EmptyString
           (Generator1.templateData
              (Sample.world [] Sample.always Sample.always Sample.always)
              (Sample.config "shop" "order" []))
           eq_refl eq_refl).
Defined.

(** Text that is no token is not always kept: a value can complete the
    text around it to a token.  With the application name "domain", the
    text "{{." before the token of the application name is no token and
    is not kept: the first replacement writes "{{.domain}}", which the
    third replaces.  With the application name "}}", the malformed token
    "{{.Domain" is closed by the value and replaced. *)
Lemma getOutputPath_value_completes_a_token :
  let W := Sample.world [] Sample.always Sample.always Sample.always in
  (Generator1.getOutputPath "templates/{{.{{.AppName}}}}/main.go"
     (Generator1.templateData W (Sample.config "domain" "Order" []))
   = "order/main.go"
   /\ occurs "templates/{{.{{.AppName}}}}/main.go" "{{." = true
   /\ ("{{." ∉ tokens)
   /\ occurs (Generator1.getOutputPath "templates/{{.{{.AppName}}}}/main.go"
                (Generator1.templateData W (Sample.config "domain" "Order" [])))
             "{{." = false)
  /\ (Generator1.getOutputPath "templates/{{.Domain{{.AppName}}/main.go"
        (Generator1.templateData W (Sample.config "}}" "order" []))
      = "order/main.go"
      /\ occurs "templates/{{.Domain{{.AppName}}/main.go" "{{.Domain" = true
      /\ ("{{.Domain" ∉ tokens)
      /\ occurs (Generator1.getOutputPath "templates/{{.Domain{{.AppName}}/main.go"
                   (Generator1.templateData W (Sample.config "}}" "order" [])))
                "{{.Domain" = false).
Proof.
  cbv zeta. repeat split; try reflexivity;
    intros Hin; unfold tokens in Hin; which_event Hin; discriminate.
Qed.

(** C10.  [getOutputPath] applies the replacements one after the other
    to the whole path, for the application name, the domain, the
    lower-cased domain and the plural, in this order (part_000: the
    application name, then the domain).  A value that was put in is
    therefore searched by the later replacements: the path that is just
    the application-name token resolves to the application name with
    the three later replacements applied to it; and for the application
    name [{{.Domain}}] and the domain "order", the path
    [templates/{{.AppName}}/main.go] resolves to [order/main.go], not
    to [{{.Domain}}/main.go]. *)
Theorem substitutions_are_sequential :
  (forall data,
      Generator1.substitute "{{.AppName}}" data
      = strings.ReplaceAll
          (strings.ReplaceAll
             (strings.ReplaceAll (Generator1.TemplateData.AppName data)
                "{{.Domain}}" (Generator1.TemplateData.Domain data))
             "{{.domain}}" (Generator1.TemplateData.DomainLower data))
          "{{.domain_plural}}" (Generator1.TemplateData.DomainPlural data))
  /\ (forall data,
        Generator1.TemplateData.AppName data = "{{.Domain}}" ->
        Generator1.TemplateData.Domain data = "order" ->
        occurs (Generator1.TemplateData.AppName data) "{{.Domain}}" = true
        /\ Generator1.getOutputPath "templates/{{.AppName}}/main.go" data
           = "order/main.go"
        /\ Generator1.getOutputPath "templates/{{.AppName}}/main.go" data
           <> Generator1.TemplateData.AppName data +:+ "/main.go")
  /\ (forall data,
        Generator0.getOutputPath "{{.AppName}}" data
        = strings.ReplaceAll (Generator0.TemplateData.AppName data)
            "{{.Domain}}" (Generator0.TemplateData.Domain data))
  /\ (forall data,
        Generator0.TemplateData.AppName data = "{{.Domain}}" ->
        Generator0.TemplateData.Domain data = "order" ->
        Generator0.getOutputPath "templates/{{.AppName}}/main.go" data
        = "order/main.go").
Proof.
  split.
  { intros data. unfold Generator1.substitute. by rewrite ReplaceAll_whole. }
  split.
  { intros data Happ Hdomain.
    assert (Generator1.getOutputPath "templates/{{.AppName}}/main.go" data
            = "order/main.go") as Hpath.
    { change "templates/{{.AppName}}/main.go"
        with ("templates/" +:+ "{{.AppName}}/main.go").
      rewrite getOutputPath_plain by (by apply HasSuffix_false).
      unfold Generator1.substitute. rewrite Happ, Hdomain.
      change (strings.ReplaceAll
                (strings.ReplaceAll "{{.AppName}}/main.go" "{{.AppName}}" "{{.Domain}}")
                "{{.Domain}}" "order") with "order/main.go".
      rewrite (ReplaceAll_absent "order/main.go" "{{.domain}}") by reflexivity.
      by rewrite ReplaceAll_absent by reflexivity. }
    rewrite Hpath, Happ. by repeat split. }
  split.
  { intros data. unfold Generator0.getOutputPath.
    change (strings.TrimPrefix "{{.AppName}}" "templates/") with "{{.AppName}}".
    change (strings.HasSuffix "{{.AppName}}" ".tmpl") with false.
    cbv iota. by rewrite ReplaceAll_whole. }
  intros data Happ Hdomain. unfold Generator0.getOutputPath.
  by rewrite Happ, Hdomain.
Qed.

(** The data [Generate] builds for the application [{{.Domain}}]. *)
Lemma substitutions_are_sequential_witness :
  Generator1.getOutputPath "templates/{{.AppName}}/main.go"
    (Generator1.templateData
       (Sample.world [] Sample.always Sample.always Sample.always)
       (Sample.config "{{.Domain}}" "order" []))
  = "order/main.go".
Proof.
  apply (proj1 (proj2 substitutions_are_sequential)); reflexivity.
Defined.

(** * Further properties of the code *)

(** ** Name derivation and path resolution *)

Lemma app_inj_last s a t b :
  s +:+ String a EmptyString = t +:+ String b EmptyString -> s = t /\ a = b.
Proof.
  revert t. induction s as [|c s IH]; intros [|d t];
    rewrite ?app_cons_string, ?app_nil_string.
  - by intros [= ->].
  - intros [= -> H]. destruct t; discriminate H.
  - intros [= -> H]. destruct s; discriminate H.
  - intros [= -> H]. apply IH in H as [-> ->]. done.
Qed.

Lemma pluralize_shape word :
  exists stem, Generator0.pluralize word = stem +:+ "s".
Proof.
  unfold Generator0.pluralize.
  destruct (strings.HasSuffix word "y") eqn:Hy.
  - exists (strings.TrimSuffix word "y" +:+ "ie"). by rewrite app_assoc_string.
  - destruct (_ || _).
    + exists (word +:+ "e"). by rewrite app_assoc_string.
    + by exists word.
Qed.

Lemma pluralize_plural stem :
  Generator0.pluralize (stem +:+ "s") = (stem +:+ "s") +:+ "es".
Proof.
  apply pluralize_sibilant.
  - intros [t Ht]. by apply app_inj_last in Ht as [_ [=]].
  - left. by exists stem.
Qed.

Lemma pluralize_length word :
  (String.length word + 1 <= String.length (Generator0.pluralize word)
   <= String.length word + 2)%nat.
Proof.
  unfold Generator0.pluralize.
  destruct (strings.HasSuffix word "y") eqn:Hy.
  - apply HasSuffix_true in Hy as [t ->].
    rewrite TrimSuffix_app, !length_app. simpl. lia.
  - destruct (_ || _); rewrite length_app; simpl; lia.
Qed.

(** X1.  Whatever the word, [pluralize] of part_000 returns a word that
    ends in "s" and is one or two bytes longer than its input; so
    pluralizing a second time always appends "es": a domain that is
    already plural, such as "orders", becomes "orderses". *)
Theorem pluralize_ends_in_s word :
  strings.HasSuffix (Generator0.pluralize word) "s" = true
  /\ Generator0.pluralize (Generator0.pluralize word)
     = Generator0.pluralize word +:+ "es"
  /\ (String.length word + 1 <= String.length (Generator0.pluralize word)
      <= String.length word + 2)%nat.
Proof.
  destruct (pluralize_shape word) as [stem Hstem].
  split; [|split].
  - rewrite Hstem. apply HasSuffix_app.
  - rewrite Hstem. apply pluralize_plural.
  - apply pluralize_length.
Qed.

Lemma upper_byte_idem c : strings.upper_byte (strings.upper_byte c) = strings.upper_byte c.
Proof. by destruct c as [[] [] [] [] [] [] [] []]. Qed.

Lemma lower_byte_idem c : strings.lower_byte (strings.lower_byte c) = strings.lower_byte c.
Proof. by destruct c as [[] [] [] [] [] [] [] []]. Qed.

Lemma upper_byte_ascii c :
  strings.is_ascii_byte (strings.upper_byte c) = strings.is_ascii_byte c.
Proof. by destruct c as [[] [] [] [] [] [] [] []]. Qed.

Lemma lower_byte_ascii c :
  strings.is_ascii_byte (strings.lower_byte c) = strings.is_ascii_byte c.
Proof. by destruct c as [[] [] [] [] [] [] [] []]. Qed.

Lemma map_lower_idem s :
  strings.map_bytes strings.lower_byte (strings.map_bytes strings.lower_byte s)
  = strings.map_bytes strings.lower_byte s.
Proof. induction s as [|c s IH]; [done|]. simpl. by rewrite lower_byte_idem, IH. Qed.

Lemma map_lower_ascii s :
  strings.isASCII (strings.map_bytes strings.lower_byte s) = strings.isASCII s.
Proof. induction s as [|c s IH]; [done|]. simpl. by rewrite lower_byte_ascii, IH. Qed.

Lemma map_bytes_length f s : String.length (strings.map_bytes f s) = String.length s.
Proof. induction s as [|c s IH]; [done|]. simpl. by rewrite IH. Qed.

(** X2.  On an ASCII word [titleCase] is idempotent, keeps the length and
    returns an ASCII word: a domain that is already in title case is left
    as it is. *)
Theorem titleCase_idempotent W s :
  strings.isASCII s = true ->
  Generator1.titleCase W (Generator1.titleCase W s) = Generator1.titleCase W s
  /\ String.length (Generator1.titleCase W s) = String.length s
  /\ strings.isASCII (Generator1.titleCase W s) = true.
Proof.
  destruct s as [|c rest]; [done|]. intros Hs.
  rewrite (titleCase_ascii W c rest Hs).
  simpl in Hs. apply andb_true_iff in Hs as [Hc Hrest].
  assert (strings.isASCII (String (strings.upper_byte c)
            (strings.map_bytes strings.lower_byte rest)) = true) as Hs'.
  { simpl. by rewrite upper_byte_ascii, map_lower_ascii, Hc, Hrest. }
  split; [|split; [|done]].
  - by rewrite (titleCase_ascii W _ _ Hs'), upper_byte_idem, map_lower_idem.
  - simpl. by rewrite map_bytes_length.
Qed.

(** The word oRDER_item. *)
Lemma titleCase_idempotent_witness :
  let W := Sample.world [] Sample.always Sample.always Sample.always in
  Generator1.titleCase W (Generator1.titleCase W "oRDER_item") = "Order_item".
Proof.
  intros W.
  destruct (titleCase_idempotent W "oRDER_item" eq_refl) as (Hidem & _ & _).
  exact Hidem.
Defined.

Lemma title_byte_stable (sep : bool) c :
  Ascii.eqb (if sep then strings.upper_byte c else c) (strings.lower_byte c)
  = negb (strings.is_upper c) && negb (sep && strings.is_lower c).
Proof. by destruct sep, c as [[] [] [] [] [] [] [] []]. Qed.

Lemma title_scan_stable prev s :
  strings.title_scan prev s = strings.map_bytes strings.lower_byte s
  <-> title_stable prev s = true.
Proof.
  revert prev. induction s as [|c s IH]; intros prev; [done|].
  simpl. rewrite !andb_true_iff, <- IH, <- andb_true_iff, <- title_byte_stable.
  rewrite Ascii.eqb_eq. split; [by intros [= -> ->] | by intros [-> ->]].
Qed.

(** X3.  The two revisions compute [DomainTitle] differently, with
    [strings.Title] in part_000 and with [titleCase] in part_001. On a
    non-empty ASCII word the two functions agree exactly when no byte
    after the first is an upper-case letter and no lower-case letter
    directly follows a separator (a byte that is no letter, digit or
    underscore): they agree on "order_item2" and differ on "PRODUCT" and
    on "order-item". *)
Theorem Title_agrees_with_titleCase U W c rest :
  strings.isASCII (String c rest) = true ->
  strings.Title U (String c rest) = Generator1.titleCase W (String c rest)
  <-> title_stable c rest = true.
Proof.
  intros Hs. rewrite (titleCase_ascii W c rest Hs).
  unfold strings.Title. rewrite Hs. cbn [strings.title_scan].
  rewrite <- title_scan_stable.
  change (strings.isSeparator " ") with true. cbn iota.
  split; [by intros [= ->] | by intros ->].
Qed.

(** The word order_item2. *)
Lemma Title_agrees_with_titleCase_witness :
  strings.Title ascii_only "order_item2"
  = Generator1.titleCase
      (Sample.world [] Sample.always Sample.always Sample.always) "order_item2".
Proof.
  apply (Title_agrees_with_titleCase ascii_only
           (Sample.world [] Sample.always Sample.always Sample.always)
           "o"%char "rder_item2"); reflexivity.
Defined.

(** X4.  [getOutputPath] of part_001 is that of part_000 followed by the
    replacements of "{{.domain}}" and "{{.domain_plural}}": for the same
    application name and domain, a path that part_000 resolves to a string
    without these two tokens resolves to the same string in part_001. *)
Theorem getOutputPath_extends_part_000 path data0 data1 :
  Generator1.TemplateData.AppName data1 = Generator0.TemplateData.AppName data0 ->
  Generator1.TemplateData.Domain data1 = Generator0.TemplateData.Domain data0 ->
  Generator1.getOutputPath path data1
  = strings.ReplaceAll
      (strings.ReplaceAll (Generator0.getOutputPath path data0)
         "{{.domain}}" (Generator1.TemplateData.DomainLower data1))
      "{{.domain_plural}}" (Generator1.TemplateData.DomainPlural data1)
  /\ (occurs (Generator0.getOutputPath path data0) "{{.domain}}" = false ->
      occurs (Generator0.getOutputPath path data0) "{{.domain_plural}}" = false ->
      Generator1.getOutputPath path data1 = Generator0.getOutputPath path data0).
Proof.
  intros Happ Hdom.
  assert (Generator1.getOutputPath path data1
          = strings.ReplaceAll
              (strings.ReplaceAll (Generator0.getOutputPath path data0)
                 "{{.domain}}" (Generator1.TemplateData.DomainLower data1))
              "{{.domain_plural}}" (Generator1.TemplateData.DomainPlural data1)) as Heq.
  { unfold Generator1.getOutputPath, Generator1.substitute, Generator0.getOutputPath.
    by rewrite Happ, Hdom. }
  split; [done|]. intros H1 H2. rewrite Heq.
  rewrite (ReplaceAll_absent _ "{{.domain}}") by done.
  by rewrite ReplaceAll_absent.
Qed.

(** A path with the two tokens of part_000 only. *)
Lemma getOutputPath_extends_part_000_witness :
  Generator1.getOutputPath "templates/cmd/{{.AppName}}/{{.Domain}}.go.tmpl"
    (Generator1.templateData
       (Sample.world [] Sample.always Sample.always Sample.always)
       (Sample.config "shop" "order" []))
  = Generator0.getOutputPath "templates/cmd/{{.AppName}}/{{.Domain}}.go.tmpl"
      (Generator0.templateData ascii_only (Sample.config0 "shop" "order" [])).
Proof.
  apply (getOutputPath_extends_part_000
           "templates/cmd/{{.AppName}}/{{.Domain}}.go.tmpl"
           (Generator0.templateData ascii_only (Sample.config0 "shop" "order" []))
           (Generator1.templateData
              (Sample.world [] Sample.always Sample.always Sample.always)
              (Sample.config "shop" "order" []))
           eq_refl eq_refl); reflexivity.
Defined.

Lemma getOutputPath0_stripped templatePath data :
  Generator0.getOutputPath templatePath data = substitute0 (stripped templatePath) data.
Proof. reflexivity. Qed.

Lemma substitute0_around a u b data :
  strings.HasPrefix u "{{" = true -> strings.HasSuffix u "}}" = true ->
  occurs u "{{.AppName}}" = false -> occurs u "{{.Domain}}" = false ->
  substitute0 (a +:+ u +:+ b) data = substitute0 a data +:+ u +:+ substitute0 b data.
Proof.
  intros Hopen Hclose Happ Hdom. unfold substitute0. by rewrite !ReplaceAll_around.
Qed.

(** X5.  [getOutputPath] of part_000 knows two tokens only. Any other text
    delimited by "{{" and "}}" that holds neither of the two is left
    verbatim wherever it stands, what is before it and what is after it
    being resolved as if they stood alone.  This holds of every template
    path, through either branch of the code: whether or not the path
    begins with "templates/" and whether or not it ends in ".tmpl", the
    text stays where it lies in the stripped path.  So the tokens
    "{{.domain}}" and "{{.domain_plural}}", which part_001 replaces, stay
    in the paths of part_000, in [templates/{{.domain}}/Makefile] as in
    a path that ends in ".tmpl". *)
Theorem getOutputPath0_keeps_other_tokens :
  (forall templatePath a u b data,
      strings.HasPrefix u "{{" = true -> strings.HasSuffix u "}}" = true ->
      occurs u "{{.AppName}}" = false -> occurs u "{{.Domain}}" = false ->
      stripped templatePath = a +:+ u +:+ b ->
      Generator0.getOutputPath templatePath data
      = substitute0 a data +:+ u +:+ substitute0 b data)
  /\ (forall a u b data,
        strings.HasPrefix u "{{" = true -> strings.HasSuffix u "}}" = true ->
        occurs u "{{.AppName}}" = false -> occurs u "{{.Domain}}" = false ->
        Generator0.getOutputPath ("templates/" +:+ (a +:+ u +:+ b) +:+ ".tmpl") data
        = substitute0 a data +:+ u +:+ substitute0 b data)
  /\ (forall a u b data,
        strings.HasPrefix u "{{" = true -> strings.HasSuffix u "}}" = true ->
        occurs u "{{.AppName}}" = false -> occurs u "{{.Domain}}" = false ->
        ~ ends_in (a +:+ u +:+ b) ".tmpl" ->
        Generator0.getOutputPath ("templates/" +:+ (a +:+ u +:+ b)) data
        = substitute0 a data +:+ u +:+ substitute0 b data)
  /\ (forall a u b data,
        strings.HasPrefix u "{{" = true -> strings.HasSuffix u "}}" = true ->
        occurs u "{{.AppName}}" = false -> occurs u "{{.Domain}}" = false ->
        strings.HasPrefix (a +:+ u +:+ b) "templates/" = false ->
        ~ ends_in (a +:+ u +:+ b) ".tmpl" ->
        Generator0.getOutputPath (a +:+ u +:+ b) data
        = substitute0 a data +:+ u +:+ substitute0 b data)
  /\ (forall data,
        Generator0.getOutputPath "templates/{{.domain}}/Makefile" data
        = "{{.domain}}/Makefile")
  /\ (forall data,
        Generator0.getOutputPath "templates/internal/{{.domain_plural}}/doc.go.tmpl" data
        = "internal/{{.domain_plural}}/doc.go").
Proof.
  split.
  { intros templatePath a u b data Hopen Hclose Happ Hdom Hpath.
    rewrite getOutputPath0_stripped, Hpath. by apply substitute0_around. }
  split.
  { intros a u b data Hopen Hclose Happ Hdom.
    rewrite getOutputPath0_stripped, stripped_tmpl. by apply substitute0_around. }
  split.
  { intros a u b data Hopen Hclose Happ Hdom Hsuffix.
    rewrite getOutputPath0_stripped, stripped_plain by done.
    by apply substitute0_around. }
  split.
  { intros a u b data Hopen Hclose Happ Hdom Hprefix Hsuffix%HasSuffix_false.
    rewrite getOutputPath0_stripped. unfold stripped, strings.TrimPrefix.
    rewrite Hprefix. cbv zeta. rewrite Hsuffix. by apply substitute0_around. }
  split; intros data.
  - rewrite getOutputPath0_stripped.
    change (stripped "templates/{{.domain}}/Makefile")
      with (EmptyString +:+ "{{.domain}}" +:+ "/Makefile").
    rewrite substitute0_around by reflexivity.
    unfold substitute0.
    rewrite !(ReplaceAll_absent _ "{{.AppName}}") by reflexivity.
    by rewrite !(ReplaceAll_absent _ "{{.Domain}}") by reflexivity.
  - rewrite getOutputPath0_stripped.
    change (stripped "templates/internal/{{.domain_plural}}/doc.go.tmpl")
      with ("internal/" +:+ "{{.domain_plural}}" +:+ "/doc.go").
    rewrite substitute0_around by reflexivity.
    unfold substitute0.
    rewrite !(ReplaceAll_absent _ "{{.AppName}}") by reflexivity.
    by rewrite !(ReplaceAll_absent _ "{{.Domain}}") by reflexivity.
Qed.

(** The token of the lower-cased domain, which part_001 added, in the
    path of a file that is copied under its own name. *)
Lemma getOutputPath0_keeps_other_tokens_witness :
  Generator0.getOutputPath "templates/{{.Domain}}/{{.domain}}/Makefile"
    (Generator0.templateData ascii_only (Sample.config0 "shop" "Order" []))
  = "Order/{{.domain}}/Makefile".
Proof.
  exact (proj1 getOutputPath0_keeps_other_tokens
           "templates/{{.Domain}}/{{.domain}}/Makefile"
           "{{.Domain}}/" "{{.domain}}" "/Makefile"
           (Generator0.templateData ascii_only (Sample.config0 "shop" "Order" []))
           eq_refl eq_refl eq_refl eq_refl eq_refl).
Defined.

(** ** Every run of [Generate] *)

Section Runs.
Import Generator1.

Lemma Error_Errorf text err : Error (Errorf text err) = text +:+ Error err.
Proof. reflexivity. Qed.

Lemma wraps_Errorf text err : wraps (Errorf text err) err.
Proof. by left. Qed.

Lemma wraps_Errorf_2 text1 text2 err : wraps (Errorf text1 (Errorf text2 err)) err.
Proof. right. by left. Qed.

Lemma ends_in_Errorf text err : ends_in (Error (Errorf text err)) (Error err).
Proof. by exists text. Qed.

Lemma ends_in_Errorf_2 text1 text2 err :
  ends_in (Error (Errorf text1 (Errorf text2 err))) (Error err).
Proof. exists (text1 +:+ text2). by rewrite !Error_Errorf, app_assoc_string. Qed.

(** Every command [PostProcess] starts runs in the project directory,
    attached to the terminal exactly in verbose mode. *)
Lemma PostProcess_scoped W g dir data tr cmd r :
  EvRun cmd r ∈ (PostProcess W g dir data tr).2 ->
  cmd_dir cmd = dir /\ cmd_attached cmd = verbose g.
Proof.
  run_post.
  repeat (destruct (exec_Run W _ _) in |- *; cbn -[String.append]);
    intros Hin; which_event Hin; done.
Qed.

Lemma PostProcess_prefix W g dir data tr :
  commands (PostProcess W g dir data tr).2
  `prefix_of` [ ["go"; "mod"; "init"; TemplateData.ModuleName data];
                ["sqlc"; "generate"];
                ["go"; "mod"; "tidy"];
                ["go"; "fmt"; "./..."];
                ["goimports"; "-w"; "."];
                ["go"; "build"; "./..."] ].
Proof.
  run_post.
  repeat (destruct (exec_Run W _ _) in |- *; cbn -[String.append]);
    first [ done | by eexists ].
Qed.

(** The ways [PostProcess] ends. *)
Lemma PostProcess_result W g dir data tr :
  match (PostProcess W g dir data tr).1 with
  | Some err =>
      exists cmd cause,
        last (PostProcess W g dir data tr).2 = Some (EvRun cmd (Some cause))
        /\ fatal cmd = true /\ err = Errorf (fatal_step cmd) cause
  | None =>
      (forall cmd err, EvRun cmd (Some err) ∈ (PostProcess W g dir data tr).2 ->
         best_effort cmd = true)
      /\ last (printed (PostProcess W g dir data tr).2) = Some closing_line
  end.
Proof.
  run_post.
  repeat (destruct (exec_Run W _ _) in |- *; cbn -[String.append]);
    first [ by eexists _, _; split; [reflexivity|]
          | split; [|done]; intros cmd err Hin; which_event Hin; done ].
Qed.


Lemma fatal_not_best_effort cmd : fatal cmd = true -> best_effort cmd = false.
Proof.
  unfold fatal, best_effort, module_init.
  destruct (String.eqb (cmd_name cmd) "go") eqn:Hgo.
  - apply string_eqb_true in Hgo. rewrite Hgo. cbn [String.eqb Ascii.eqb Bool.eqb orb andb].
    repeat case_bool_decide; try done.
    all: destruct (cmd_args cmd) as [|a [|b [|c [|d l]]]]; try done;
      simplify_eq/=; done.
  - rewrite !andb_false_l. done.
Qed.

Lemma post_events_io_ok evs :
  Forall (fun ev => post_event ev = true) evs -> Forall io_ok evs.
Proof.
  intros Hall. eapply Forall_impl; [exact Hall|]. by intros [].
Qed.

(** X6.  A run of [Generate] returns nil exactly when the walk reports no
    error, every directory creation, read, parse, rendering and write
    succeeded, and every command that failed is a best-effort one. When it
    returns nil the six commands ran in order, every resource was written,
    and the last line printed is the closing line of the post-processing. *)
Theorem Generate_succeeds_iff W g config res evs :
  run (Generate W g config) = (res, evs) ->
  (res = None <->
     Forall (fun c => wc_err c = None) (templatesFS_walk W)
     /\ Forall io_ok evs
     /\ forall cmd err, EvRun cmd (Some err) ∈ evs -> best_effort cmd = true)
  /\ (res = None ->
      commands evs = pipeline config
      /\ ok_writes evs
         = output W (templateData W config) (projectDirOf W g config)
             <$> resources (templatesFS_walk W)
      /\ last (printed evs) = Some closing_line).
Proof.
  intros Hrun. pose proof (Generate_run W g config) as Hcases.
  rewrite Hrun in Hcases. simpl in Hcases.
  inversion Hcases as [err0|err0 ev1 Hwalk|ev1 res2 ev2 Hwalk Hpost]; subst.
  - split; [|done]. split; [done|]. intros (_ & Hok & _).
    apply Forall_cons in Hok as [Hok _]. done.
  - split; [|done]. split; [done|]. intros (Hclean & Hok & _).
    apply Forall_cons in Hok as [_ Hok].
    by apply (walk_run_all_ok _ _ _ _ _ _ Hwalk).
  - pose proof (PostProcess_result W g (projectDirOf W g config) (templateData W config)
                  (EvMkdirAll (projectDirOf W g config) 493 None :: ev1)) as Hres.
    pose proof (PostProcess_events W g (projectDirOf W g config) (templateData W config)
                  (EvMkdirAll (projectDirOf W g config) 493 None :: ev1)) as Hevs.
    rewrite Hpost in Hres, Hevs. simpl in Hres, Hevs.
    pose proof (walk_run_events _ _ _ _ _ _ Hwalk) as Hpre.
    destruct res2 as [err|].
    + split; [|done]. split; [done|]. intros (_ & _ & Hbest).
      destruct Hres as (cmd & cause & Hlast & Hfatal & _).
      apply fatal_not_best_effort in Hfatal.
      rewrite (Hbest cmd cause) in Hfatal; [done|].
      apply elem_of_cons. right. apply elem_of_app. right.
      apply last_Some in Hlast as [l' ->]. apply elem_of_app. right. in_list.
    + destruct Hres as [Hbest Hclose].
      destruct (walk_run_ok _ _ _ _ _ _ Hwalk eq_refl)
        as (Hclean & Hok & _ & _ & Hwrites & Hokw).
      destruct (writes_post_events _ Hevs) as (_ & Hnow & _ & _).
      destruct (PostProcess_best_effort _ _ _ _ _ _ _ Hpost Hbest) as (_ & Hcmds & _).
      assert (forall cmd err,
                EvRun cmd (Some err)
                ∈ EvMkdirAll (projectDirOf W g config) 493 None :: ev1 ++ ev2 ->
                best_effort cmd = true) as Hall.
      { intros cmd err [Hin|Hin]%elem_of_cons; [done|].
        apply elem_of_app in Hin as [Hin|Hin]; [|by eapply Hbest].
        by apply (run_not_template_event _ _ _ Hpre) in Hin. }
      split.
      * split; [|done]. intros _. split; [done|]. split; [|done].
        constructor; [done|]. apply Forall_app. split; [done|].
        by apply post_events_io_ok.
      * intros _.
        change (EvMkdirAll ?d ?p ?r :: ev1 ++ ev2)
          with ([EvMkdirAll d p r] ++ ev1 ++ ev2).
        unfold commands, printed. rewrite !ok_writes_app, !omap_app.
        fold (commands ev1) (commands ev2) (printed ev1) (printed ev2).
        rewrite (commands_template_events ev1), (printed_template_events ev1) by done.
        rewrite Hnow, Hokw, Hwrites, app_nil_r. done.
Qed.

(** A world where only [sqlc] fails. *)
Lemma Generate_succeeds_iff_witness :
  let W := Sample.world Sample.store Sample.always Sample.always
             (Sample.failing "sqlc" "generate") in
  let r := run (Generate W (New "out") (Sample.config "shop" "order" [])) in
  r.1 = None /\ last (printed r.2) = Some closing_line.
Proof.
  intros W r.
  destruct (Generate_succeeds_iff W (New "out") (Sample.config "shop" "order" [])
              r.1 r.2) as [Hiff Hdone].
  - apply surjective_pairing.
  - assert (r.1 = None) as Hres.
    { apply Hiff. split; [vm_compute; by repeat constructor|]. split.
      - vm_compute. repeat constructor; by eexists.
      - intros cmd err Hin. vm_compute in Hin. which_event Hin. reflexivity. }
    split; [exact Hres|]. by apply Hdone.
Defined.

(** The last event of a failing call is the call that failed, and the
    error wraps its error. *)
Lemma walk_outcome_cause W data dir c err ev :
  walk_outcome W data dir c (Some err) ev ->
  (wc_err c = Some err /\ ev = [])
  \/ exists e cause text,
       last ev = Some e /\ failure e = Some cause /\ err = Errorf text cause.
Proof.
  inversion 1; subst; [by left|right..]; by eexists _, _, _.
Qed.

(** X7.  An error that [Generate] returns is never of its own making: it
    is the error the walk handed to the callback, returned unchanged, or
    it wraps the error of the call that failed, which is the last event of
    the run; that cause is reached from the result by [Unwrap], and the
    message of the result ends with the message of the cause. *)
Theorem Generate_error_has_cause W g config err evs :
  run (Generate W g config) = (Some err, evs) ->
  (exists c, c ∈ templatesFS_walk W /\ wc_err c = Some err)
  \/ (exists ev cause,
        last evs = Some ev /\ failure ev = Some cause
        /\ wraps err cause /\ ends_in (Error err) (Error cause)).
Proof.
  intros Hrun. pose proof (Generate_run W g config) as Hcases.
  rewrite Hrun in Hcases. simpl in Hcases.
  inversion Hcases as [err0|err0 ev1 Hwalk|ev1 res2 ev2 Hwalk Hpost Hres]; subst.
  - right. eexists _, err0. split; [done|]. split; [done|].
    split; [apply wraps_Errorf | apply ends_in_Errorf].
  - apply walk_run_failed in Hwalk
      as (pre & c & post & ea & eb & Hcalls & -> & _ & Hfail).
    apply walk_outcome_cause in Hfail
      as [[Herr ->]|(e & cause & text & Hlast & Hfailure & ->)].
    + left. exists c. split; [|done]. rewrite Hcalls. apply elem_of_app. right. in_list.
    + right. exists e, cause. split; [|split; [done|]].
      * by rewrite app_comm_cons, last_app, Hlast.
      * split; [apply wraps_Errorf | apply ends_in_Errorf].
  - destruct res2 as [err2|]; [|done]. injection Hres as <-.
    pose proof (PostProcess_result W g (projectDirOf W g config) (templateData W config)
                  (EvMkdirAll (projectDirOf W g config) 493 None :: ev1)) as Hpp.
    rewrite Hpost in Hpp. simpl in Hpp.
    destruct Hpp as (cmd & cause & Hlast & _ & ->).
    right. exists (EvRun cmd (Some cause)), cause.
    split; [|split; [done|]].
    + by rewrite !app_comm_cons, last_app, Hlast.
    + split; [apply wraps_Errorf_2 | apply ends_in_Errorf_2].
Qed.

(** A world where the first file cannot be written. *)
Lemma Generate_error_has_cause_witness :
  let W := Sample.world Sample.store Sample.always
             (Sample.denied "out/shop/Makefile") Sample.always in
  let r := run (Generate W (New "out") (Sample.config "shop" "order" [])) in
  exists ev,
    last r.2 = Some ev /\ failure ev = Some (errorString "permission denied")
    /\ wraps (Errorf "failed to write file out/shop/Makefile: "
                (errorString "permission denied"))
         (errorString "permission denied").
Proof.
  intros W r.
  destruct (Generate_error_has_cause W (New "out") (Sample.config "shop" "order" [])
              (Errorf "failed to write file out/shop/Makefile: "
                 (errorString "permission denied")) r.2)
    as [(c & Hc & Herr)|(ev & cause & Hlast & Hfail & Hwraps & _)].
  - vm_compute. reflexivity.
  - exfalso. vm_compute in Hc.
    repeat (apply elem_of_cons in Hc as [->|Hc]; [discriminate Herr|]).
    by apply elem_of_nil in Hc.
  - exists ev. split; [exact Hlast|].
    assert (cause = errorString "permission denied") as ->.
    { vm_compute in Hlast. injection Hlast as <-. by injection Hfail as <-. }
    split; [exact Hfail | exact Hwraps].
Defined.

(** Every command of a run of [Generate] is started in the project
    directory, attached as the generator says. *)
Lemma Generate_commands_scoped W g config res evs cmd r :
  run (Generate W g config) = (res, evs) -> EvRun cmd r ∈ evs ->
  cmd_dir cmd = projectDirOf W g config /\ cmd_attached cmd = verbose g.
Proof.
  intros Hrun. pose proof (Generate_run W g config) as Hcases.
  rewrite Hrun in Hcases. simpl in Hcases.
  inversion Hcases as [err0|err0 ev1 Hwalk|ev1 res2 ev2 Hwalk Hpost Hres]; subst.
  - intros Hin. which_event Hin.
  - apply walk_run_events in Hwalk. intros [Hin|Hin]%elem_of_cons; [done|].
    by apply (run_not_template_event _ _ _ Hwalk) in Hin.
  - apply walk_run_events in Hwalk. intros [Hin|Hin]%elem_of_cons; [done|].
    apply elem_of_app in Hin as [Hin|Hin].
    + by apply (run_not_template_event _ _ _ Hwalk) in Hin.
    + apply (PostProcess_scoped W g _ (templateData W config)
               (EvMkdirAll (projectDirOf W g config) 493 None :: ev1) cmd r).
      by rewrite Hpost.
Qed.

(** The commands of a run of [Generate] are the first ones of the
    pipeline, in its order. *)
Lemma Generate_commands_prefix W g config res evs :
  run (Generate W g config) = (res, evs) ->
  commands evs `prefix_of` pipeline config.
Proof.
  intros Hrun. pose proof (Generate_run W g config) as Hcases.
  rewrite Hrun in Hcases. simpl in Hcases.
  inversion Hcases as [err0|err0 ev1 Hwalk|ev1 res2 ev2 Hwalk Hpost Hres]; subst.
  - by eexists.
  - apply walk_run_events in Hwalk.
    rewrite (commands_template_events (_ :: ev1)) by (by constructor). by eexists.
  - apply walk_run_events in Hwalk.
    rewrite app_comm_cons. unfold commands. rewrite omap_app.
    fold (commands (EvMkdirAll (projectDirOf W g config) 493 None :: ev1)).
    rewrite (commands_template_events (_ :: ev1)) by (by constructor). simpl.
    pose proof (PostProcess_prefix W g (projectDirOf W g config) (templateData W config)
                  (EvMkdirAll (projectDirOf W g config) 493 None :: ev1)) as Hpp.
    by rewrite Hpost in Hpp.
Qed.

(** X8.  Every command a run of [Generate] starts has the project
    directory as its working directory, and is attached to the standard
    output and error exactly when the generator is verbose; so no command
    of a generator made by [New], which is not verbose, is attached. The
    commands of a run are a prefix of the six of the pipeline: none runs
    twice or out of order. *)
Theorem Generate_commands_in_project_dir W g config res evs :
  run (Generate W g config) = (res, evs) ->
  (forall cmd r, EvRun cmd r ∈ evs ->
     cmd_dir cmd = projectDirOf W g config /\ cmd_attached cmd = verbose g)
  /\ commands evs `prefix_of` pipeline config
  /\ (verbose g = false ->
      Forall (fun ev => match ev with
                        | EvRun cmd _ => cmd_attached cmd = false
                        | _ => True
                        end) evs).
Proof.
  intros Hrun. split; [|split].
  - intros cmd r. exact (Generate_commands_scoped W g config res evs cmd r Hrun).
  - exact (Generate_commands_prefix W g config res evs Hrun).
  - intros Hquiet. apply Forall_forall. intros [] Hin; try done.
    rewrite <- Hquiet.
    by destruct (Generate_commands_scoped W g config res evs _ _ Hrun Hin).
Qed.

(** A verbose generator in a world where [go mod tidy] fails. *)
Lemma Generate_commands_in_project_dir_witness :
  let W := Sample.world Sample.store Sample.always Sample.always
             (Sample.failing "go" "tidy") in
  let r := run (Generate W (NewWithVerbose "out" true)
                  (Sample.config "shop" "order" [])) in
  commands r.2 `prefix_of` pipeline (Sample.config "shop" "order" [])
  /\ cmd_attached {| cmd_name := "go"; cmd_args := ["mod"; "tidy"];
                     cmd_dir := "out/shop"; cmd_attached := true |}
     = verbose (NewWithVerbose "out" true).
Proof.
  intros W r.
  destruct (Generate_commands_in_project_dir W (NewWithVerbose "out" true)
              (Sample.config "shop" "order" []) r.1 r.2) as (Hscoped & Hprefix & _).
  - apply surjective_pairing.
  - split; [exact Hprefix|].
    apply (Hscoped {| cmd_name := "go"; cmd_args := ["mod"; "tidy"];
                      cmd_dir := "out/shop"; cmd_attached := true |}
             (Some (errorString "exit status 1"))).
    vm_compute. in_list.
Defined.

(** The first event of a run of [Generate] creates the project
    directory. *)
Lemma Generate_head W g config res evs :
  run (Generate W g config) = (res, evs) ->
  exists r, head evs = Some (EvMkdirAll (projectDirOf W g config) 493 r).
Proof.
  intros Hrun. pose proof (Generate_run W g config) as Hcases.
  rewrite Hrun in Hcases. simpl in Hcases.
  inversion Hcases; subst; by eexists.
Qed.

(** X9.  Every run of [Generate] begins by creating the project directory
    with mode 0755. If that fails nothing else happens and the error is
    wrapped with "failed to create project directory". Otherwise the
    events of the templates all come before the commands and the printed
    lines of the post-processing, and a run in which the post-processing
    started has written every resource of the store. *)
Theorem Generate_templates_before_commands W g config res evs :
  run (Generate W g config) = (res, evs) ->
  exists r ev1 ev2,
    evs = EvMkdirAll (projectDirOf W g config) 493 r :: ev1 ++ ev2
    /\ Forall (fun ev => post_event ev = false) ev1
    /\ Forall (fun ev => post_event ev = true) ev2
    /\ (forall err, r = Some err ->
          ev1 = [] /\ ev2 = []
          /\ res = Some (Errorf "failed to create project directory: " err))
    /\ (ev2 <> [] ->
          Forall (fun c => wc_err c = None) (templatesFS_walk W)
          /\ ok_writes ev1
             = output W (templateData W config) (projectDirOf W g config)
                 <$> resources (templatesFS_walk W)).
Proof.
  intros Hrun. pose proof (Generate_run W g config) as Hcases.
  rewrite Hrun in Hcases. simpl in Hcases.
  inversion Hcases as [err0|err0 ev1 Hwalk|ev1 res2 ev2 Hwalk Hpost Hres]; subst.
  - exists (Some err0), [], []. split; [done|]. split; [done|]. split; [done|].
    split; [|done]. by intros err [= ->].
  - exists None, ev1, []. rewrite app_nil_r. split; [done|].
    split; [by eapply walk_run_events|]. by repeat split.
  - exists None, ev1, ev2. split; [done|].
    split; [by eapply walk_run_events|]. split.
    { pose proof (PostProcess_events W g (projectDirOf W g config) (templateData W config)
                    (EvMkdirAll (projectDirOf W g config) 493 None :: ev1)) as Hpp.
      by rewrite Hpost in Hpp. }
    split; [done|]. intros _.
    destruct (walk_run_ok _ _ _ _ _ _ Hwalk eq_refl)
      as (Hclean & _ & _ & _ & Hwrites & Hokw).
    by rewrite Hokw, Hwrites.
Qed.

(** A world where nothing fails. *)
Lemma Generate_templates_before_commands_witness :
  let W := Sample.world Sample.store Sample.always Sample.always Sample.always in
  let r := run (Generate W (New "out") (Sample.config "shop" "order" [])) in
  exists ev1 ev2,
    r.2 = EvMkdirAll "out/shop" 493 None :: ev1 ++ ev2
    /\ Forall (fun ev => post_event ev = false) ev1
    /\ Forall (fun ev => post_event ev = true) ev2.
Proof.
  intros W r.
  destruct (Generate_templates_before_commands W (New "out")
              (Sample.config "shop" "order" []) r.1 r.2)
    as (res & ev1 & ev2 & Hevs & Hpre & Hpost & _).
  - apply surjective_pairing.
  - exists ev1, ev2. split; [|by split].
    rewrite Hevs. f_equal. f_equal.
    assert (head r.2 = Some (EvMkdirAll "out/shop" 493 None)) as Hhead
      by (vm_compute; reflexivity).
    rewrite Hevs in Hhead. by injection Hhead as <-.
Defined.


Section Guarded.
Context (W : World) (data : TemplateData.t) (dir : string).

Lemma writes_guarded_mono paths paths' evs :
  paths ⊆ paths' ->
  writes_guarded W data dir paths evs -> writes_guarded W data dir paths' evs.
Proof.
  intros Hsub Hg i name buf perm r Hi.
  destruct (Hg i name buf perm r Hi) as (Hperm & (path & Hin & Hout) & Hj).
  split; [done|]. split; [|done]. exists path. split; [by apply Hsub | done].
Qed.

Lemma writes_guarded_app paths (ev1 ev2 : list Event) :
  writes_guarded W data dir paths ev1 -> writes_guarded W data dir paths ev2 ->
  writes_guarded W data dir paths (ev1 ++ ev2).
Proof.
  intros H1 H2 i name buf perm r Hi.
  apply lookup_app_Some in Hi as [Hi|[Hlen Hi]].
  - destruct (H1 i name buf perm r Hi) as (Hperm & Hpath & j & -> & Hj).
    split; [done|]. split; [done|]. exists j. split; [done|].
    by apply lookup_app_l_Some.
  - destruct (H2 _ name buf perm r Hi) as (Hperm & Hpath & j & Hij & Hj).
    split; [done|]. split; [done|]. exists (length ev1 + j)%nat.
    split; [lia|]. by rewrite lookup_app_r, Nat.add_comm, Nat.add_sub by lia.
Qed.

Lemma writes_guarded_other paths evs :
  writes evs = [] -> writes_guarded W data dir paths evs.
Proof.
  intros Hnone i name buf perm r Hi. exfalso.
  apply list_elem_of_lookup_2 in Hi.
  assert ((name, buf) ∈ writes evs) as Hin.
  { unfold writes. apply list_elem_of_omap. by eexists. }
  rewrite Hnone in Hin. by apply elem_of_nil in Hin.
Qed.

Lemma walk_outcome_guarded c res ev :
  walk_outcome W data dir c res ev ->
  writes_guarded W data dir (resources [c]) ev.
Proof.
  inversion 1 as [| | | | | |content buf err Herr Hdir Hread Hparse Hexec
                  |content buf Herr Hdir Hread Hparse Hexec]; subst;
    try (by apply writes_guarded_other).
  all: intros i name buf' perm r Hi;
    do 5 (destruct i as [|i]; [simplify_eq/=|]); [|done].
  all: (split; [done|]); split; [|by exists 3%nat].
  all: exists (wc_path c); unfold resources; simpl; rewrite Herr, Hdir;
    split; [in_list|]; unfold output, rendering; by rewrite Hread, Hexec.
Qed.

Lemma walk_run_guarded calls res evs :
  walk_run W data dir calls res evs ->
  writes_guarded W data dir (resources calls) evs.
Proof.
  induction 1 as [|c rest err' ev Hc|c rest ev res evs Hc Hrest IH].
  - by apply writes_guarded_other.
  - apply walk_outcome_guarded in Hc. revert Hc. apply writes_guarded_mono.
    rewrite (resources_cons c rest). set_solver.
  - apply walk_outcome_guarded in Hc. rewrite (resources_cons c rest).
    apply writes_guarded_app; [revert Hc | revert IH]; apply writes_guarded_mono;
      set_solver.
Qed.

End Guarded.

(** X10.  In every run of [Generate], failed or not, a file is only
    written with mode 0644, to the output path of a resource of the store,
    with the rendering of that template, and directly after the directory
    of that path was created successfully with mode 0755. *)
Theorem Generate_writes_are_guarded W g config res evs :
  run (Generate W g config) = (res, evs) ->
  writes_guarded W (templateData W config) (projectDirOf W g config)
    (resources (templatesFS_walk W)) evs.
Proof.
  intros Hrun. pose proof (Generate_run W g config) as Hcases.
  rewrite Hrun in Hcases. simpl in Hcases.
  inversion Hcases as [err0|err0 ev1 Hwalk|ev1 res2 ev2 Hwalk Hpost Hres]; subst.
  - by apply writes_guarded_other.
  - apply (writes_guarded_app _ _ _ _ [_]); [by apply writes_guarded_other|].
    by eapply walk_run_guarded.
  - apply (writes_guarded_app _ _ _ _ [_]); [by apply writes_guarded_other|].
    apply writes_guarded_app; [by eapply walk_run_guarded|].
    apply writes_guarded_other.
    pose proof (PostProcess_events W g (projectDirOf W g config) (templateData W config)
                  (EvMkdirAll (projectDirOf W g config) 493 None :: ev1)) as Hpp.
    rewrite Hpost in Hpp. by apply writes_post_events in Hpp as (? & _).
Qed.

(** The first write of the sample store is the sixth event; the fifth
    creates its directory. *)
Lemma Generate_writes_are_guarded_witness :
  let W := Sample.world Sample.store Sample.always Sample.always Sample.always in
  let r := run (Generate W (New "out") (Sample.config "shop" "order" [])) in
  r.2 !! 4%nat = Some (EvMkdirAll "out/shop" 493 None).
Proof.
  intros W r.
  destruct (Generate_writes_are_guarded W (New "out")
              (Sample.config "shop" "order" []) r.1 r.2 (surjective_pairing _)
              5%nat "out/shop/Makefile" "" 420 None)
    as (_ & _ & j & Hj & Hlook).
  - vm_compute. reflexivity.
  - injection Hj as <-. exact Hlook.
Defined.

End Runs.

(** ** The generator of part_000 *)

Section Part000.
Import Generator1.

(** One call of the callback of part_000. *)
Lemma walkFn0_outcome W data dir c tr :
  let r := Generator0Run.walkFn W data dir c tr in
  (r.1 = None <-> wc_err c = None /\ Forall io_ok r.2)
  /\ Forall (fun ev => post_event ev = false) r.2
  /\ (r.1 = None ->
      ok_writes r.2 = Generator0Run.output W data dir <$> resources [c])
  /\ (forall err, r.1 = Some err -> ok_writes r.2 = []).
Proof.
  unfold Generator0Run.walkFn, resources. simpl.
  destruct (wc_err c) as [err|] eqn:Herr; [by repeat split; try done; intros []|].
  destruct (wc_isDir c) eqn:Hdir; [by repeat split|].
  unfold bind, Generator0Run.ReadFile, Generator0Run.Parse, Generator0Run.Execute,
    Generator0Run.MkdirAll, Generator0Run.WriteFile, perform, ret,
    Generator0Run.output.
  destruct (Generator0Run.templatesFS_ReadFile W (wc_path c)) as [content|err] eqn:Hread;
    [|by failed_call].
  destruct (Generator0Run.template_Parse W (wc_path c) content) as [err|] eqn:Hparse;
    [by failed_call|].
  cbn -[Generator0.getOutputPath].
  destruct (Generator0Run.template_Execute W _ data) as [buf|err] eqn:Hexec;
    [|by failed_call].
  cbn -[Generator0.getOutputPath].
  destruct (Generator0Run.os_MkdirAll W _ _ _) as [err|] eqn:Hmkdir; [by failed_call|].
  cbn -[Generator0.getOutputPath].
  destruct (Generator0Run.os_WriteFile W _ _ _ _) as [err|] eqn:Hwrite;
    [by failed_call|].
  simpl. rewrite Hread, Hexec.
  repeat split; try done; repeat constructor; simpl; eauto.
Qed.

Lemma WalkDir0_outcome W data dir calls tr :
  let r := WalkDir calls (Generator0Run.walkFn W data dir) tr in
  (r.1 = None <-> Forall (fun c => wc_err c = None) calls /\ Forall io_ok r.2)
  /\ Forall (fun ev => post_event ev = false) r.2
  /\ exists paths,
       paths `prefix_of` resources calls
       /\ ok_writes r.2 = Generator0Run.output W data dir <$> paths
       /\ (r.1 = None -> paths = resources calls).
Proof.
  revert tr. induction calls as [|c rest IH]; intros tr.
  { cbn. split; [done|]. split; [done|]. by exists []. }
  cbn [WalkDir]. unfold bind, ret.
  pose proof (walkFn0_outcome W data dir c tr) as Hc. cbv zeta in Hc.
  destruct (Generator0Run.walkFn W data dir c tr) as [[err|] ev]; cbn [fst snd] in *.
  - destruct Hc as (Hiff & Hpre & _ & Hnone). rewrite app_nil_r.
    split; [split; [done|]|].
    { intros [[Herr _]%Forall_cons Hok]. by apply Hiff. }
    split; [done|]. exists []. split; [by eexists|]. split; [by eapply Hnone | done].
  - destruct Hc as (Hiff & Hpre & Hwr & _).
    specialize (IH (tr ++ ev)).
    cbv zeta in IH.
    destruct (WalkDir rest _ (tr ++ ev)) as [res evs]. cbn [fst snd] in *.
    destruct IH as (IHiff & IHpre & paths & Hprefix & Hdone & Hall).
    destruct (proj1 Hiff eq_refl) as [Herr Hok].
    split; [|split].
    + rewrite IHiff, Forall_cons, Forall_app. tauto.
    + by apply Forall_app.
    + exists (resources [c] ++ paths). rewrite (resources_cons c rest).
      split; [by apply prefix_app|].
      rewrite ok_writes_app, fmap_app, Hwr, Hdone by done.
      split; [done|]. intros Hres. by rewrite Hall.
Qed.

(** X11.  [Generate] of part_000 returns nil exactly when the walk reports
    no error and every step succeeded; it starts no command and prints
    nothing; the files it wrote are the outputs of a prefix of the
    resources, in store order, and of all of them when it returns nil. *)
Theorem Generate0_writes_or_fails W g config res evs :
  run (Generator0Run.Generate W g config) = (res, evs) ->
  let data := Generator0.templateData (Generator0Run.world_unicode W) config in
  let dir := Generator0Run.filepath_Join W (Generator0Run.outputDir g)
               (Generator0.ProjectConfig.AppName config) in
  (res = None <->
     Forall (fun c => wc_err c = None) (Generator0Run.templatesFS_walk W)
     /\ Forall io_ok evs)
  /\ Forall (fun ev => post_event ev = false) evs
  /\ exists paths,
       paths `prefix_of` resources (Generator0Run.templatesFS_walk W)
       /\ ok_writes evs = Generator0Run.output W data dir <$> paths
       /\ (res = None -> paths = resources (Generator0Run.templatesFS_walk W)).
Proof.
  intros Hrun data dir. revert Hrun.
  unfold run, Generator0Run.Generate, bind, Generator0Run.MkdirAll, perform, ret,
    Generator0Run.processTemplates.
  cbn [app]. fold data dir. intros Hrun.
  destruct (Generator0Run.os_MkdirAll W [] dir 493) as [err|].
  - injection Hrun as <- <-. split; [split; [done|]|].
    { intros [_ [[=] _]%Forall_cons]. }
    split; [by repeat constructor|]. exists []. split; [by eexists | done].
  - pose proof (WalkDir0_outcome W data dir (Generator0Run.templatesFS_walk W)
                  [EvMkdirAll dir 493 None]) as Hwalk.
    cbv zeta in Hwalk.
    destruct (WalkDir _ _ _) as [r ev]. cbn [fst snd] in *. injection Hrun as <- <-.
    destruct Hwalk as (Hiff & Hpre & paths & Hprefix & Hdone & Hall).
    split; [|split].
    + rewrite Hiff, Forall_cons. simpl. tauto.
    + by constructor.
    + exists paths. by repeat split.
Qed.

(** A world where nothing fails. *)
Lemma Generate0_writes_or_fails_witness :
  let W := Sample0.world Sample.store Sample.always Sample.always in
  let r := run (Generator0Run.Generate W (Generator0Run.New "out")
                  (Sample.config0 "shop" "order" [])) in
  r.1 = None.
Proof.
  intros W r.
  destruct (Generate0_writes_or_fails W (Generator0Run.New "out")
              (Sample.config0 "shop" "order" []) r.1 r.2) as (Hiff & _ & _).
  - apply surjective_pairing.
  - apply Hiff. split; [vm_compute; by repeat constructor|].
    vm_compute. repeat constructor; by eexists.
Defined.

End Part000.

(** ** The [create] command *)

Section CreateFacts.
Import Create.

Lemma eqb_empty s : String.eqb s "" = true <-> s = "".
Proof. apply string_eqb_true. Qed.

Lemma eqb_nonempty s : String.eqb s "" = false <-> s <> "".
Proof. apply string_eqb_false. Qed.

(** The three name checks come first, in order. *)
Lemma validateConfig_names W config tr :
  let r := validateConfig W config tr in
  (r.1 = Some (errorString "app name is required") <-> Config.AppName config = "")
  /\ (r.1 = Some (errorString "module name is required")
      <-> Config.AppName config <> "" /\ Config.ModuleName config = "")
  /\ (r.1 = Some (errorString "domain is required")
      <-> Config.AppName config <> "" /\ Config.ModuleName config <> ""
          /\ Config.Domain config = "").
Proof.
  validate_cases.
  all: repeat match goal with
         | H : String.eqb _ "" = true |- _ => apply eqb_empty in H
         | H : String.eqb _ "" = false |- _ => apply eqb_nonempty in H
         end.
  all: repeat split; try done; try tauto; try (by intros [? ?]);
    try (by intros (? & ? & ?)).
Qed.

(** X12.  [validateConfig] checks the three names first, in the order
    application, module, domain: each of its three errors "... is
    required" is returned exactly for the first empty name, and the
    validation touches neither the file system nor the terminal exactly
    when one of the names is empty. *)
Theorem validateConfig_checks_names_first W config tr :
  let r := validateConfig W config tr in
  (r.1 = Some (errorString "app name is required") <-> Config.AppName config = "")
  /\ (r.1 = Some (errorString "module name is required")
      <-> Config.AppName config <> "" /\ Config.ModuleName config = "")
  /\ (r.1 = Some (errorString "domain is required")
      <-> Config.AppName config <> "" /\ Config.ModuleName config <> ""
          /\ Config.Domain config = "")
  /\ (r.2 = []
      <-> Config.AppName config = "" \/ Config.ModuleName config = ""
          \/ Config.Domain config = "").
Proof.
  pose proof (validateConfig_names W config tr) as (Happ & Hmod & Hdom).
  cbv zeta. split; [done|]. split; [done|]. split; [done|]. clear Happ Hmod Hdom.
  validate_cases.
  all: repeat match goal with
         | H : String.eqb _ "" = true |- _ => apply eqb_empty in H
         | H : String.eqb _ "" = false |- _ => apply eqb_nonempty in H
         end.
  all: split; try done; try tauto; by intros [?|[?|?]].
Qed.

(** X13.  With the three names given, [validateConfig] first calls
    [os.Stat] on the output directory. It returns "output directory does
    not exist: " followed by the directory exactly when that call fails
    with an error for which [os.IsNotExist] holds, and then it does
    nothing else; any other failure of that call is ignored, and the next
    step is the [os.Stat] of the target directory. *)
Theorem validateConfig_output_dir W config tr :
  Config.AppName config <> "" -> Config.ModuleName config <> "" ->
  Config.Domain config <> "" ->
  let r := validateConfig W config tr in
  let found := os_Stat W tr (Config.OutputDir config) in
  let missing := exists err, found = Some err /\ os_IsNotExist W err = true in
  head r.2 = Some (EvStat (Config.OutputDir config) found)
  /\ (r.1 = Some (errorString ("output directory does not exist: "
                               +:+ Config.OutputDir config))
      <-> missing)
  /\ (missing -> r.2 = [EvStat (Config.OutputDir config) found])
  /\ (~ missing ->
      r.2 !! 1%nat
      = Some (EvStat (Join W (Config.OutputDir config) (Config.AppName config))
                (os_Stat W (tr ++ [EvStat (Config.OutputDir config) found])
                   (Join W (Config.OutputDir config) (Config.AppName config))))).
Proof.
  intros Happ%eqb_nonempty Hmod%eqb_nonempty Hdom%eqb_nonempty.
  run_validate. rewrite Happ, Hmod, Hdom.
  cbn -[String.append Create.EqualFold Create.Join String.eqb].
  destruct (os_Stat W tr (Config.OutputDir config)) as [err|] eqn:Hfound.
  2: { cbn -[String.append Create.EqualFold Create.Join String.eqb].
       repeat validate_step.
       all: split; [done|]; split; [by split; [|intros (? & ? & _)]|].
       all: split; [by intros (? & ? & _) | done]. }
  destruct (os_IsNotExist W err) eqn:Hmissing.
  { cbn. split; [done|]. split; [by split; eauto|]. split; [done|].
    intros Hnot. exfalso. apply Hnot. eauto. }
  cbn -[String.append Create.EqualFold Create.Join String.eqb].
  repeat validate_step.
  all: split; [done|]; split;
    [split; [done|]; intros (? & [= <-] & ?); congruence|].
  all: split; [intros (? & [= <-] & ?); congruence | done].
Qed.

(** No output directory. *)
Lemma validateConfig_output_dir_witness :
  let W := SampleCreate.world [] [] [] in
  (validateConfig W (defaults (setAppName flags "shop")) []).1
  = Some (errorString "output directory does not exist: .").
Proof.
  intros W.
  destruct (validateConfig_output_dir W (defaults (setAppName flags "shop")) [])
    as (_ & Hiff & _); [done..|].
  apply Hiff. eexists. split; reflexivity.
Defined.

(** A removal is of the target directory, and decides the result. *)
Lemma validateConfig_removal W config tr path res :
  EvRemoveAll path res ∈ (validateConfig W config tr).2 ->
  path = Join W (Config.OutputDir config) (Config.AppName config)
  /\ (validateConfig W config tr).1
     = match res with
       | Some err => Some (Errorf "failed to remove existing directory: " err)
       | None => None
       end.
Proof.
  validate_cases.
  all: intros Hin; which_event Hin; done.
Qed.

(** X14.  [validateConfig] removes a directory in one way only: the
    directory is [filepath.Join(OutputDir, AppName)], [os.Stat] found it,
    it was opened and [Readdirnames] found an entry, the user was asked,
    and the answer was "y" or "yes" for [strings.EqualFold]. The removal
    is the last step, and its error, if any, is returned wrapped. *)
Theorem validateConfig_removes_only_when_confirmed W config tr path res :
  EvRemoveAll path res ∈ (validateConfig W config tr).2 ->
  let target := Join W (Config.OutputDir config) (Config.AppName config) in
  exists found response,
    (validateConfig W config tr).2
    = [ EvStat (Config.OutputDir config) found;
        EvStat target None;
        EvOpen target None;
        EvReaddirnames target 1 None;
        EvClose target;
        EvPrint ("Directory '" +:+ target +:+ "' already exists and contains files."
                 +:+ nl);
        EvPrint "Do you want to recreate it? [y/N]: ";
        EvScanln response;
        EvRemoveAll target res ]
    /\ path = target
    /\ confirmed W response = true
    /\ (validateConfig W config tr).1
       = match res with
         | Some err => Some (Errorf "failed to remove existing directory: " err)
         | None => None
         end.
Proof.
  unfold confirmed. validate_cases.
  all: intros Hin; which_event Hin.
  all: eexists _, _; split; [reflexivity|]; split; [done|]; split; [|done].
  all: repeat match goal with H : EqualFold _ _ _ = _ |- _ => rewrite H end;
    by rewrite ?orb_true_r.
Qed.

(** The target directory holds a file and the user answers YES. *)
Lemma validateConfig_removes_only_when_confirmed_witness :
  let W := SampleCreate.world ["YES"] ["."; "shop"] ["shop"] in
  let r := validateConfig W (defaults (setAppName flags "shop")) [] in
  r.1 = None /\ EvScanln "YES" ∈ r.2.
Proof.
  intros W r.
  destruct (validateConfig_removes_only_when_confirmed W
              (defaults (setAppName flags "shop")) [] "shop" None)
    as (found & response & Hevs & _ & _ & Hres).
  - vm_compute. in_list.
  - split; [exact Hres|]. vm_compute. in_list.
Defined.

(** X15.  When [validateConfig] asks whether to recreate the directory, an
    answer other than "y" or "yes" ends it with "operation cancelled":
    nothing is removed and the answer is the last event. After "y" or
    "yes" the last step is the removal of the target directory. And
    "operation cancelled" is returned after such an answer only. *)
Theorem validateConfig_asks_before_removing W config tr response :
  EvScanln response ∈ (validateConfig W config tr).2 ->
  let r := validateConfig W config tr in
  let target := Join W (Config.OutputDir config) (Config.AppName config) in
  (confirmed W response = false ->
     r.1 = Some (errorString "operation cancelled")
     /\ last r.2 = Some (EvScanln response)
     /\ forall path res, EvRemoveAll path res ∉ r.2)
  /\ (confirmed W response = true ->
      exists res, last r.2 = Some (EvRemoveAll target res))
  /\ (r.1 = Some (errorString "operation cancelled") -> confirmed W response = false).
Proof.
  unfold confirmed. validate_cases.
  all: intros Hin; which_event Hin; simplify_eq.
  all: repeat match goal with H : EqualFold _ _ _ = _ |- _ => rewrite H end;
    cbn [orb].
  all: split; [|split]; try done; try (by intros _; eexists).
  all: try (exfalso; congruence).
  all: intros _; split; [done|]; split; [done|].
  all: intros path res' Hin; which_event Hin.
Qed.

(** The target directory holds a file and the user answers no. *)
Lemma validateConfig_asks_before_removing_witness :
  let W := SampleCreate.world ["no"] ["."; "shop"] ["shop"] in
  let r := validateConfig W (defaults (setAppName flags "shop")) [] in
  r.1 = Some (errorString "operation cancelled")
  /\ last r.2 = Some (EvScanln "no").
Proof.
  intros W r.
  destruct (validateConfig_asks_before_removing W
              (defaults (setAppName flags "shop")) [] "no") as (Hno & _).
  - vm_compute. in_list.
  - destruct (Hno eq_refl) as (Hres & Hlast & _). by split.
Defined.

(** X16.  [isDirEmpty] takes every failure of [Readdirnames] for an empty
    directory: when it fails, with whatever error, [validateConfig]
    returns nil without asking and without removing anything.
    [Readdirnames] is called for one name of the target directory, and the
    file is closed afterwards. *)
Theorem validateConfig_unreadable_is_empty W config tr name n err :
  EvReaddirnames name n (Some err) ∈ (validateConfig W config tr).2 ->
  (validateConfig W config tr).1 = None
  /\ name = Join W (Config.OutputDir config) (Config.AppName config)
  /\ n = 1
  /\ last (validateConfig W config tr).2 = Some (EvClose name)
  /\ Forall (fun ev => terminal_event ev = false) (validateConfig W config tr).2.
Proof.
  validate_cases.
  all: intros Hin; which_event Hin.
  all: by repeat split; repeat constructor.
Qed.

(** The target directory exists and [Readdirnames] returns [EOF]. *)
Lemma validateConfig_unreadable_is_empty_witness :
  let W := SampleCreate.world [] ["."; "shop"] [] in
  (validateConfig W (defaults (setAppName flags "shop")) []).1 = None.
Proof.
  intros W.
  destruct (validateConfig_unreadable_is_empty W
              (defaults (setAppName flags "shop")) [] "shop" 1
              (errorString "EOF")) as (Hres & _).
  - vm_compute. in_list.
  - exact Hres.
Defined.

(** The file that [isDirEmpty] opens is closed. *)
Lemma validateConfig_closes W config tr name :
  EvOpen name None ∈ (validateConfig W config tr).2 ->
  EvClose name ∈ (validateConfig W config tr).2.
Proof.
  validate_cases.
  all: intros Hin; which_event Hin; simplify_eq; in_list.
Qed.


(** *** The confirmation *)

Lemma ascii_eqb_N a b : Ascii.eqb a b = (N_of_ascii a =? N_of_ascii b).
Proof.
  destruct (Ascii.eqb_spec a b) as [->|Hne].
  - by rewrite N.eqb_refl.
  - symmetry. apply N.eqb_neq. intros Heq. apply Hne.
    by rewrite <- (ascii_N_embedding a), <- (ascii_N_embedding b), Heq.
Qed.

Lemma N_of_lower_byte c :
  N_of_ascii (strings.lower_byte c)
  = if strings.is_upper c then N_of_ascii c + 32 else N_of_ascii c.
Proof.
  unfold strings.lower_byte. destruct (strings.is_upper c) eqn:Hc; [|done].
  apply N_ascii_embedding. unfold strings.is_upper in Hc.
  apply andb_true_iff in Hc as [_ Hc%N.leb_le]. lia.
Qed.

(** One step of the loop of [EqualFold] on two ASCII bytes. *)
Lemma fold_byte sr tr :
  Ascii.eqb tr sr
  || (strings.is_upper (if N_of_ascii tr <? N_of_ascii sr then tr else sr)
      && (N_of_ascii (if N_of_ascii tr <? N_of_ascii sr then sr else tr)
          =? N_of_ascii (if N_of_ascii tr <? N_of_ascii sr then tr else sr) + 32))
  = Ascii.eqb (strings.lower_byte sr) (strings.lower_byte tr).
Proof.
  rewrite !ascii_eqb_N, !N_of_lower_byte. unfold strings.is_upper.
  destruct (N.ltb_spec (N_of_ascii tr) (N_of_ascii sr)).
  all: repeat match goal with
         | |- context [?a <=? ?b] => destruct (N.leb_spec a b); cbn [andb orb]
         | |- context [?a =? ?b] => destruct (N.eqb_spec a b); cbn [andb orb]
         end; try done; lia.
Qed.

Lemma EqualFold_ascii W s t :
  strings.isASCII s = true -> strings.isASCII t = true ->
  EqualFold W s t
  = String.eqb (strings.map_bytes strings.lower_byte s)
      (strings.map_bytes strings.lower_byte t).
Proof.
  revert t. induction s as [|sr s IH]; intros [|tr t]; try done.
  cbn [strings.isASCII]. intros [Hsr Hs]%andb_true_iff [Htr Ht]%andb_true_iff.
  cbn [EqualFold strings.map_bytes String.eqb]. rewrite Hsr, Htr. cbn [andb negb].
  rewrite <- fold_byte, <- (IH t Hs Ht).
  destruct (Ascii.eqb tr sr); [done|]. cbn [orb].
  by destruct (_ && _).
Qed.

(** X17.  For an ASCII answer the confirmation of [validateConfig] holds
    exactly when the lower-cased answer is "y" or "yes":
    [strings.EqualFold] ignores the case and nothing else. *)
Theorem confirmed_is_yes_in_any_case W U response :
  strings.isASCII response = true ->
  confirmed W response = true
  <-> strings.ToLower U response = "y" \/ strings.ToLower U response = "yes".
Proof.
  intros Hascii. unfold confirmed.
  rewrite !(EqualFold_ascii W response) by done.
  rewrite (ToLower_ascii U response Hascii).
  rewrite orb_true_iff, !string_eqb_true. done.
Qed.

(** The answer YeS. *)
Lemma confirmed_is_yes_in_any_case_witness :
  confirmed (SampleCreate.world [] [] []) "YeS" = true.
Proof.
  apply (confirmed_is_yes_in_any_case (SampleCreate.world [] [] []) ascii_only "YeS").
  - reflexivity.
  - right. reflexivity.
Defined.


(** *** The two modes *)

Lemma runDirectMode_run W config tr :
  runDirectMode W config tr
  = ((defaults config, (validateConfig W (defaults config) tr).1),
     (validateConfig W (defaults config) tr).2).
Proof.
  unfold runDirectMode, bind, ret.
  destruct (validateConfig W (defaults config) tr) as [res evs].
  by rewrite app_nil_r.
Qed.

Lemma defaults_filled config :
  Config.ModuleName (defaults config) <> ""
  /\ Config.Domain (defaults config) <> ""
  /\ Config.Description (defaults config) <> ""
  /\ Config.Author (defaults config) <> "".
Proof.
  unfold defaults. cbn.
  repeat split.
  all: repeat match goal with
         | |- context [String.eqb ?s ""] =>
             let H := fresh in destruct (String.eqb s "") eqn:H;
             [|apply eqb_nonempty in H]
         end; done.
Qed.

Lemma defaults_idempotent config : defaults (defaults config) = defaults config.
Proof.
  destruct (defaults_filled config) as (Hm & Hd & Hdesc & Ha).
  apply eqb_nonempty in Hm, Hd, Hdesc, Ha.
  unfold defaults at 1. by rewrite Hm, Hd, Hdesc, Ha.
Qed.

(** X18.  After [runDirectMode] the module name, the domain, the
    description and the author are not empty: an empty one has its default
    ("github.com/user/" and the application name; "item"; "A ", the domain
    just set, " management API"; "Developer") and a given one is kept. The
    application name, the output directory and the features are untouched,
    and running it on its own result changes nothing. So in direct mode
    [validateConfig] never returns "module name is required" or "domain is
    required". *)
Theorem runDirectMode_fills_the_blanks W config tr :
  let r := runDirectMode W config tr in
  let config' := r.1.1 in
  (Config.ModuleName config' <> "" /\ Config.Domain config' <> ""
   /\ Config.Description config' <> "" /\ Config.Author config' <> "")
  /\ (Config.ModuleName config' = Config.ModuleName config
      \/ Config.ModuleName config = ""
         /\ Config.ModuleName config' = "github.com/user/" +:+ Config.AppName config)
  /\ (Config.Domain config' = Config.Domain config
      \/ Config.Domain config = "" /\ Config.Domain config' = "item")
  /\ (Config.Description config' = Config.Description config
      \/ Config.Description config = ""
         /\ Config.Description config'
            = "A " +:+ Config.Domain config' +:+ " management API")
  /\ (Config.Author config' = Config.Author config
      \/ Config.Author config = "" /\ Config.Author config' = "Developer")
  /\ (Config.AppName config' = Config.AppName config
      /\ Config.OutputDir config' = Config.OutputDir config
      /\ Config.Features config' = Config.Features config)
  /\ (runDirectMode W config' tr).1.1 = config'
  /\ r.1.2 <> Some (errorString "module name is required")
  /\ r.1.2 <> Some (errorString "domain is required").
Proof.
  rewrite !runDirectMode_run. cbn [fst snd]. rewrite runDirectMode_run. cbn [fst snd].
  destruct (defaults_filled config) as (Hm & Hd & Hdesc & Ha).
  split; [done|].
  split; [|split; [|split; [|split; [|split; [done|]]]]].
  1-4: unfold defaults; cbn;
    match goal with
    | |- context [String.eqb ?s ""] =>
        let H := fresh in destruct (String.eqb s "") eqn:H;
        [apply eqb_empty in H; by right | by left]
    end.
  split; [apply defaults_idempotent|].
  pose proof (validateConfig_names W (defaults config) tr) as (_ & Hmod & Hdom).
  split; intros Hres; [apply Hmod in Hres | apply Hdom in Hres]; tauto.
Qed.


Lemma promptString_run W prompt defaultValue tr :
  promptString W prompt defaultValue tr
  = (answer W defaultValue (fmt_Scanln W (tr ++ [EvPrint (label prompt defaultValue)])),
     [ EvPrint (label prompt defaultValue);
       EvScanln (fmt_Scanln W (tr ++ [EvPrint (label prompt defaultValue)])) ]).
Proof.
  unfold promptString, bind, Scanln, perform, Print, ret, label, answer.
  destruct (negb (String.eqb defaultValue "")); cbn;
    by destruct (String.eqb (fmt_Scanln W _) "").
Qed.

Lemma validateConfig_own W config tr :
  Forall (fun ev => own_event ev = true) (validateConfig W config tr).2.
Proof. validate_cases; by repeat constructor. Qed.

Lemma promptString_facts W prompt defaultValue tr :
  Forall (fun ev => terminal_event ev = true) (promptString W prompt defaultValue tr).2
  /\ ((forall tr', fmt_Scanln W tr' = "") ->
      (promptString W prompt defaultValue tr).1 = defaultValue).
Proof.
  rewrite promptString_run. cbn [fst snd]. split; [by repeat constructor|].
  intros Hempty. unfold answer. by rewrite Hempty.
Qed.

(** [runInteractiveMode] asks six times and validates what it was told;
    of [config] it reads the features only. *)
Lemma runInteractiveMode_run W config tr :
  exists config' pre,
    runInteractiveMode W config tr
    = ((config', (validateConfig W config' (tr ++ pre)).1),
       pre ++ (validateConfig W config' (tr ++ pre)).2)
    /\ Forall (fun ev => terminal_event ev = true) pre
    /\ Config.Features config' = Config.Features config
    /\ ((forall tr', fmt_Scanln W tr' = "") ->
        config' = defaults (setAppName
                    {| Config.AppName := ""; Config.ModuleName := "";
                       Config.Domain := ""; Config.Description := "";
                       Config.Author := ""; Config.OutputDir := ".";
                       Config.Features := Config.Features config |} "myapp")).
Proof.
  unfold runInteractiveMode, bind, Println, Print.
  cbn -[promptString validateConfig String.append].
  repeat match goal with
         | |- context [promptString W ?p ?d ?t] =>
             let H := fresh "Hp" in
             pose proof (promptString_facts W p d t) as H;
             destruct (promptString W p d t) as [? ?]; cbn [fst snd] in H;
             cbn -[promptString validateConfig String.append]
         end.
  repeat rewrite <- app_assoc. cbn [app].
  match goal with
  | |- context [validateConfig W ?c (tr ++ ?pre)] =>
      exists c, pre; destruct (validateConfig W c (tr ++ pre)) as [res evs]
  end.
  split; [cbn -[String.append]; by rewrite !app_nil_r, <- ?app_assoc|].
  repeat match goal with H : _ /\ _ |- _ => destruct H as [? ?] end.
  split; [|split; [done|]].
  - repeat apply Forall_cons_2; try done.
    repeat (apply Forall_app; split); done.
  - intros Hempty.
    repeat match goal with
           | H : (forall tr', fmt_Scanln W tr' = "") -> ?a = _ |- _ =>
               specialize (H Hempty); try subst a
           end.
    reflexivity.
Qed.

(** X19.  [runInteractiveMode] reads nothing of the flags but the
    features: a run behaves as the run on the blank configuration with the
    same features, every other field being overwritten by what the prompts
    return. And the defaults that the prompts offer are those of the
    direct mode: when every prompt is answered with an empty line, the
    configuration that [runInteractiveMode] validates is the one
    [runDirectMode] builds for the project name "myapp" with no flag but
    the features. *)
Theorem runInteractiveMode_offers_the_defaults W config tr :
  let blank := {| Config.AppName := ""; Config.ModuleName := "";
                  Config.Domain := ""; Config.Description := "";
                  Config.Author := ""; Config.OutputDir := ".";
                  Config.Features := Config.Features config |} in
  runInteractiveMode W config tr = runInteractiveMode W blank tr
  /\ ((forall tr', fmt_Scanln W tr' = "") ->
      (runInteractiveMode W config tr).1.1
      = (runDirectMode W (setAppName blank "myapp") tr).1.1).
Proof.
  split; [reflexivity|]. intros Hempty.
  destruct (runInteractiveMode_run W config tr) as (config' & pre & -> & _ & _ & Hdef).
  rewrite runDirectMode_run. cbn [fst]. by apply Hdef.
Qed.

(** A user who answers every prompt with an empty line. *)
Lemma runInteractiveMode_offers_the_defaults_witness :
  let W := SampleCreate.world [] ["."] [] in
  (runInteractiveMode W flags []).1.1
  = (runDirectMode W (setAppName flags "myapp") []).1.1.
Proof.
  intros W.
  apply (proj2 (runInteractiveMode_offers_the_defaults W flags [])).
  intros tr'. cbn. by destruct (SampleCreate.asked tr').
Defined.

(** *** [runCreate] *)

Lemma generated_own evs :
  Forall (fun ev => own_event ev = true) evs -> generated evs = [].
Proof.
  induction 1 as [|ev evs Hev _ IH]; [done|]. by destruct ev.
Qed.

Lemma terminal_own evs :
  Forall (fun ev => terminal_event ev = true) evs ->
  Forall (fun ev => own_event ev = true) evs.
Proof. intros Hall. eapply Forall_impl; [exact Hall|]. by intros []. Qed.

Lemma generated_app (ev1 ev2 : list Event) :
  generated (ev1 ++ ev2) = generated ev1 ++ generated ev2.
Proof. apply omap_app. Qed.

Lemma generated_embedded evs : generated (EvGenerator <$> evs) = evs.
Proof. induction evs as [|ev evs IH]; [done|]. cbn. f_equal. exact IH. Qed.

Lemma generated_printed lines : generated (EvPrint <$> lines) = [].
Proof. by induction lines. Qed.

Lemma PrintAll_run lines tr : PrintAll lines tr = (tt, EvPrint <$> lines).
Proof.
  revert tr. induction lines as [|line rest IH]; intros tr; [done|].
  cbn [PrintAll]. unfold bind, Print. by rewrite IH.
Qed.

(** The tail of [runCreate], after a history without generator events. *)
Lemma generate_tail W config verr tr :
  generated tr = [] ->
  generate W config verr tr
  = match verr with
    | Some err => (Return (Some (Errorf "failed to create project: " err)), [])
    | None =>
        let g := Generator1.run
                   (Generator1.Generate (generator_World W)
                      (Generator1.New (Config.OutputDir config))
                      (projectConfig config)) in
        match g.1 with
        | Some err =>
            (Return (Some (Errorf "failed to generate project: " err)),
             EvGenerator <$> g.2)
        | None => (Return None, (EvGenerator <$> g.2) ++ (EvPrint <$> success W config))
        end
    end.
Proof.
  intros Hnone. unfold generate. destruct verr as [err|]; [done|].
  unfold bind, Generate, ret, Generator1.run. rewrite Hnone.
  destruct (Generator1.Generate _ _ _ []) as [[err|] evs]; cbn [fst snd].
  - by rewrite app_nil_r.
  - by rewrite PrintAll_run, app_nil_r.
Qed.

(** The runs of [runCreate] that the [Args] validator lets through:
    the mode, then the tail. *)
Lemma runCreate_split W interactive config args out evs :
  run (runCreate W interactive config args) = (out, evs) ->
  Args interactive args = None ->
  exists config' pre,
    Forall (fun ev => terminal_event ev = true) pre
    /\ (interactive = false ->
        pre = [] /\ exists name rest,
          args = name :: rest /\ config' = defaults (setAppName config name))
    /\ (out, evs)
       = ((generate W config' (validateConfig W config' pre).1
             (pre ++ (validateConfig W config' pre).2)).1,
          pre ++ (validateConfig W config' pre).2
          ++ (generate W config' (validateConfig W config' pre).1
                (pre ++ (validateConfig W config' pre).2)).2).
Proof.
  unfold run, runCreate. intros Hrun Hargs. destruct interactive.
  - unfold bind in Hrun.
    destruct (runInteractiveMode_run W config []) as (config' & pre & Hmode & Hpre & _).
    rewrite Hmode in Hrun. cbn [fst snd app] in Hrun.
    exists config', pre. split; [done|]. split; [done|].
    destruct (generate W config' _ _) as [o ev2]. rewrite <- Hrun.
    by rewrite app_assoc.
  - destruct args as [|name rest]; [done|].
    unfold bind in Hrun. rewrite runDirectMode_run in Hrun. cbn [fst snd app] in Hrun.
    exists (defaults (setAppName config name)), []. split; [done|].
    split; [by eauto|]. cbn [app].
    destruct (generate W _ _ _) as [o ev2]. by rewrite <- Hrun.
Qed.

Lemma validation_generates_nothing W config pre :
  Forall (fun ev => terminal_event ev = true) pre ->
  generated (pre ++ (validateConfig W config pre).2) = [].
Proof.
  intros Hpre. apply generated_own, Forall_app.
  split; [by apply terminal_own | apply validateConfig_own].
Qed.

(** The generator events of a run of [runCreate]: none, or those of one
    run of [Generate]. *)
Lemma runCreate_generated W interactive config args out evs :
  run (runCreate W interactive config args) = (out, evs) ->
  Args interactive args = None ->
  exists config',
    (interactive = false ->
     exists name rest, args = name :: rest /\ config' = defaults (setAppName config name))
    /\ (generated evs = []
        \/ exists res,
             Generator1.run
               (Generator1.Generate (generator_World W)
                  (Generator1.New (Config.OutputDir config')) (projectConfig config'))
             = (res, generated evs)).
Proof.
  intros Hrun Hargs.
  destruct (runCreate_split W interactive config args out evs Hrun Hargs)
    as (config' & pre & Hpre & Hdirect & Heq).
  exists config'. split; [intros Hmode; by destruct (Hdirect Hmode) as [_ ?]|].
  pose proof (validation_generates_nothing W config' pre Hpre) as Hnone.
  rewrite (generate_tail W config' _ _ Hnone) in Heq.
  destruct (validateConfig W config' pre) as [[err|] val]; cbn [fst snd] in *.
  - injection Heq as -> ->. left. by rewrite app_nil_r.
  - cbv zeta in Heq. right.
    destruct (Generator1.run _) as [[err|] gen]; cbn [fst snd] in *;
      injection Heq as -> ->; eexists; f_equal;
      rewrite app_assoc, generated_app, Hnone;
      by rewrite ?generated_app, ?generated_embedded, ?generated_printed, ?app_nil_r.
Qed.

(** X20.  A run of [runCreate] that the [Args] validator lets through
    consists of the prompts (none in direct mode, where the configuration
    is the defaults applied to the flags with the first argument as name),
    then the validation, and then: when the validation failed, its error
    wrapped with "failed to create project" and no call of the generator;
    otherwise one run of [Generate], for a generator made by [New] for the
    output directory and the six fields copied, whose names are not empty,
    followed by the six success lines when it returned nil, and its error
    wrapped with "failed to generate project" otherwise. *)
Theorem runCreate_generates_after_validation W interactive config args out evs :
  run (runCreate W interactive config args) = (out, evs) ->
  Args interactive args = None ->
  exists config' pre,
    Forall (fun ev => terminal_event ev = true) pre
    /\ (interactive = false ->
        pre = [] /\ exists name rest,
          args = name :: rest /\ config' = defaults (setAppName config name))
    /\ let v := validateConfig W config' pre in
       match v.1 with
       | Some err =>
           out = Return (Some (Errorf "failed to create project: " err))
           /\ evs = pre ++ v.2
           /\ generated evs = []
       | None =>
           let g := Generator1.run
                      (Generator1.Generate (generator_World W)
                         (Generator1.New (Config.OutputDir config'))
                         (projectConfig config')) in
           out = Return match g.1 with
                        | Some err => Some (Errorf "failed to generate project: " err)
                        | None => None
                        end
           /\ evs = pre ++ v.2 ++ (EvGenerator <$> g.2)
                    ++ match g.1 with
                       | Some _ => []
                       | None => EvPrint <$> success W config'
                       end
           /\ generated evs = g.2
           /\ Config.AppName config' <> "" /\ Config.ModuleName config' <> ""
           /\ Config.Domain config' <> ""
       end.
Proof.
  intros Hrun Hargs.
  destruct (runCreate_split W interactive config args out evs Hrun Hargs)
    as (config' & pre & Hpre & Hdirect & Heq).
  exists config', pre. split; [done|]. split; [done|]. cbv zeta.
  pose proof (validateConfig_names W config' pre) as (Happ & Hmod & Hdom).
  pose proof (validation_generates_nothing W config' pre Hpre) as Hnone.
  rewrite (generate_tail W config' _ _ Hnone) in Heq.
  destruct (validateConfig W config' pre) as [[err|] val]; cbn [fst snd] in *.
  - injection Heq as -> ->. rewrite app_nil_r. by repeat split.
  - cbv zeta in Heq.
    assert (Config.AppName config' <> "" /\ Config.ModuleName config' <> ""
            /\ Config.Domain config' <> "") as Hnames.
    { destruct (decide (Config.AppName config' = "")) as [He|Ha];
        [by apply Happ in He|].
      destruct (decide (Config.ModuleName config' = "")) as [He|Hm];
        [by (assert (None = Some (errorString "module name is required"))
               by by apply Hmod)|].
      destruct (decide (Config.Domain config' = "")) as [He|Hd];
        [by (assert (None = Some (errorString "domain is required"))
               by by apply Hdom)|].
      done. }
    destruct (Generator1.run _) as [[err|] gen]; cbn [fst snd] in *;
      injection Heq as -> ->; rewrite ?app_nil_r;
      (split; [done|]); (split; [done|]);
      (split; [|done]); rewrite app_assoc, generated_app, Hnone;
      by rewrite ?generated_app, ?generated_embedded, ?generated_printed, ?app_nil_r.
Qed.

(** [create shop] in a directory without a [shop]. *)
Lemma runCreate_generates_after_validation_witness :
  let W := SampleCreate.world [] ["."] [] in
  let r := run (runCreate W false flags ["shop"]) in
  r.1 = Return None
  /\ Generator1.commands (generated r.2)
     = pipeline (projectConfig (defaults (setAppName flags "shop"))).
Proof.
  intros W r.
  destruct (runCreate_generates_after_validation W false flags ["shop"] r.1 r.2)
    as (config' & pre & _ & Hdirect & Hcases).
  - apply surjective_pairing.
  - reflexivity.
  - destruct (Hdirect eq_refl) as (-> & name & rest & [= <- <-] & ->).
    vm_compute in Hcases. destruct Hcases as (Hout & _).
    split; [exact Hout | vm_compute; reflexivity].
Defined.

Lemma generate_returns W config verr tr : (generate W config verr tr).1 <> Panic.
Proof.
  unfold generate. destruct verr as [err|]; [done|].
  unfold bind, Generate, ret.
  destruct (Generator1.Generate _ _ _ _) as [[err|] evs]; [done|].
  by rewrite PrintAll_run.
Qed.

(** X21.  The [Args] validator rejects exactly the calls on which
    [runCreate] would index [args[0]] out of range, those that are not
    interactive and have no argument; its error is then "project name is
    required when not using --interactive", and [runCreate] would have
    done nothing before the panic. *)
Theorem Args_guards_runCreate W interactive config args tr :
  ((runCreate W interactive config args tr).1 = Panic
   <-> Args interactive args <> None)
  /\ (Args interactive args <> None
      <-> interactive = false /\ args = [])
  /\ (Args interactive args <> None ->
      Args interactive args
      = Some (errorString "project name is required when not using --interactive")
      /\ (runCreate W interactive config args tr).2 = []).
Proof.
  unfold runCreate, Args. destruct interactive.
  - split; [|split; [|done]]; [|split; [done | by intros [? _]]].
    split; [|done]. unfold bind.
    destruct (runInteractiveMode W config tr) as [[config' verr] pre]. cbn [fst snd].
    pose proof (generate_returns W config' verr (tr ++ pre)) as Hret.
    by destruct (generate W config' verr (tr ++ pre)).
  - destruct args as [|name rest]; cbn.
    + by repeat split.
    + split; [|split; [|done]]; [|split; [done | by intros [_ ?]]].
      split; [|done]. unfold bind.
      destruct (runDirectMode W _ tr) as [[config' verr] pre]. cbn [fst snd].
      pose proof (generate_returns W config' verr (tr ++ pre)) as Hret.
      by destruct (generate W config' verr (tr ++ pre)).
Qed.

(** X22.  No command that [runCreate] makes the generator start is
    attached to the terminal, since [New] is not verbose. In direct mode
    the commands are a prefix of the pipeline for the defaulted
    configuration, so [go mod init] gets "github.com/user/" and the name
    when no module flag is given, and every command runs in
    [filepath.Join(OutputDir, name)]. *)
Theorem runCreate_runs_the_pipeline_detached W interactive config args out evs :
  run (runCreate W interactive config args) = (out, evs) ->
  (forall cmd r, Generator1.EvRun cmd r ∈ generated evs ->
     Generator1.cmd_attached cmd = false)
  /\ (forall name rest, interactive = false -> args = name :: rest ->
        Generator1.commands (generated evs)
        `prefix_of` pipeline (projectConfig (defaults (setAppName config name)))
        /\ (Config.ModuleName config = "" ->
            Generator1.ProjectConfig.ModuleName
              (projectConfig (defaults (setAppName config name)))
            = "github.com/user/" +:+ name)
        /\ (forall cmd r, Generator1.EvRun cmd r ∈ generated evs ->
              Generator1.cmd_dir cmd = Join W (Config.OutputDir config) name)).
Proof.
  intros Hrun.
  assert (forall name, Config.ModuleName config = "" ->
            Generator1.ProjectConfig.ModuleName
              (projectConfig (defaults (setAppName config name)))
            = "github.com/user/" +:+ name) as Hmodule.
  { intros name Hmod. cbn. by rewrite Hmod. }
  destruct (Args interactive args) as [err|] eqn:Hargs.
  { assert (interactive = false /\ args = []) as [-> ->].
    { unfold Args in Hargs. destruct interactive; [done|]. by destruct args. }
    injection Hrun as <- <-. split; [by intros cmd r ?%elem_of_nil|]. done. }
  destruct (runCreate_generated W interactive config args out evs Hrun Hargs)
    as (config' & Hdirect & [Hnone|[res Hgen]]).
  { rewrite Hnone. split; [by intros cmd r ?%elem_of_nil|].
    intros name rest _ _. split; [by eexists|].
    split; [by apply Hmodule | by intros cmd r ?%elem_of_nil]. }
  split.
  { intros cmd r Hin.
    by destruct (Generate_commands_scoped _ _ _ _ _ _ _ Hgen Hin) as [_ ->]. }
  intros name rest Hmode Hname.
  destruct (Hdirect Hmode) as (name' & rest' & Hname' & ->).
  rewrite Hname in Hname'. injection Hname' as <- <-.
  split; [by apply (Generate_commands_prefix _ _ _ _ _ Hgen)|].
  split; [by apply Hmodule|].
  intros cmd r Hin.
  by destruct (Generate_commands_scoped _ _ _ _ _ _ _ Hgen Hin) as [-> _].
Qed.

(** [create shop] in a directory without a [shop]. *)
Lemma runCreate_runs_the_pipeline_detached_witness :
  let W := SampleCreate.world [] ["."] [] in
  let r := run (runCreate W false flags ["shop"]) in
  Generator1.commands (generated r.2)
  `prefix_of` pipeline (projectConfig (defaults (setAppName flags "shop"))).
Proof.
  intros W r.
  destruct (runCreate_runs_the_pipeline_detached W false flags ["shop"] r.1 r.2)
    as [_ Hdirect].
  - apply surjective_pairing.
  - by destruct (Hdirect "shop" [] eq_refl eq_refl) as (Hprefix & _).
Defined.

(** X23.  The directory that [runCreate] removes after a confirmation is
    the one the generator then creates: when the removal succeeded, the
    first thing the generator does is [os.MkdirAll] of that very path with
    mode 0755; when it failed, the generator is not called and the error
    is returned wrapped twice. *)
Theorem runCreate_recreates_what_it_removed W interactive config args out evs path res :
  run (runCreate W interactive config args) = (out, evs) ->
  EvRemoveAll path res ∈ evs ->
  match res with
  | None =>
      exists r, head (generated evs) = Some (Generator1.EvMkdirAll path 493 r)
  | Some err =>
      generated evs = []
      /\ out = Return (Some (Errorf "failed to create project: "
                               (Errorf "failed to remove existing directory: " err)))
  end.
Proof.
  intros Hrun Hin.
  destruct (Args interactive args) as [err|] eqn:Hargs.
  { assert (interactive = false /\ args = []) as [-> ->].
    { unfold Args in Hargs. destruct interactive; [done|]. by destruct args. }
    injection Hrun as <- <-. by apply elem_of_nil in Hin. }
  destruct (runCreate_split W interactive config args out evs Hrun Hargs)
    as (config' & pre & Hpre & _ & Heq).
  pose proof (validation_generates_nothing W config' pre Hpre) as Hnone.
  rewrite (generate_tail W config' _ _ Hnone) in Heq.
  pose proof (validateConfig_removal W config' pre path res) as Hremoval.
  destruct (validateConfig W config' pre) as [verr val]; cbn [fst snd] in *.
  assert (EvRemoveAll path res ∈ val ->
          path = Join W (Config.OutputDir config') (Config.AppName config')
          /\ verr = match res with
                    | Some err => Some (Errorf "failed to remove existing directory: " err)
                    | None => None
                    end) as Hval by done.
  clear Hremoval.
  assert (EvRemoveAll path res ∉ pre) as Hnotpre.
  { intros Hp. rewrite Forall_forall in Hpre. by apply Hpre in Hp. }
  destruct verr as [verr|].
  - injection Heq as -> ->. rewrite app_nil_r in Hin |- *.
    apply elem_of_app in Hin as [Hin|Hin]; [done|].
    destruct (Hval Hin) as [_ Hres]. destruct res as [err|]; [|done].
    injection Hres as ->. done.
  - cbv zeta in Heq.
    destruct (Generator1.run _) as [gres gen] eqn:Hgen. cbn [fst snd] in Heq.
    assert (EvRemoveAll path res ∈ val) as Hinval.
    { destruct gres; injection Heq as -> ->;
        repeat (apply elem_of_app in Hin as [Hin|Hin]); try done;
        first [ apply list_elem_of_fmap in Hin as (? & [=] & _)
              | by which_event Hin ]. }
    destruct (Hval Hinval) as [-> Hres]. destruct res as [err|]; [done|].
    destruct (Generate_head _ _ _ _ _ Hgen) as [r Hhead]. exists r.
    assert (generated evs = gen) as ->; [|exact Hhead].
    destruct gres; injection Heq as -> ->;
      rewrite app_assoc, generated_app, Hnone;
      by rewrite ?generated_app, ?generated_embedded, ?generated_printed, ?app_nil_r.
Qed.

(** [create shop] where [shop] holds a file and the user answers y. *)
Lemma runCreate_recreates_what_it_removed_witness :
  let W := SampleCreate.world ["y"] ["."; "shop"] ["shop"] in
  let r := run (runCreate W false flags ["shop"]) in
  exists res, head (generated r.2) = Some (Generator1.EvMkdirAll "shop" 493 res).
Proof.
  intros W r.
  apply (runCreate_recreates_what_it_removed W false flags ["shop"] r.1 r.2
           "shop" None).
  - apply surjective_pairing.
  - vm_compute. in_list.
Defined.

End CreateFacts.
